(** * Multi-agent research workflow: a shallow embedding and its properties

    The development follows the Python sources:
    - [providers/llm.py], [providers/search.py]: the two gateways;
    - [agents/planner.py], [agents/researcher.py], [agents/writer.py],
      [agents/reviewer.py]: the four stage functions;
    - [workflow.py]: the state record, the conditional edge and the driver.

    Python [str] values are Rocq strings (their UTF-8 bytes), dictionaries
    with a fixed schema are records, a key that may be absent is an
    [option] field, [set()] is a [gset].  Everything outside the
    repository (the language model, the search back ends, the process
    environment) is gathered in a [World] of oracles; every call to one of
    them is recorded in a log, and raised exceptions are values of an error
    monad. *)

From Stdlib Require Import Ascii.
From stdpp Require Import gmap strings list pretty.


(** ** Python runtime: the built-ins the sources call *)

Module Py.

(** Exceptions, by the classes the sources distinguish in their
    [except] clauses. *)
Inductive exn : Type :=
| ValueError (msg : string)
| KeyError (key : string)
| ImportError (msg : string)
| RequestException (msg : string)
| RuntimeError (msg : string)
| JSONDecodeError (msg : string)
| GraphRecursionError
| OtherException (msg : string).

(** [str(e)] of an exception. A [KeyError] prints the [repr] of its key. *)
Definition str_exn (e : exn) : string :=
  match e with
  | ValueError m | ImportError m | RequestException m
  | RuntimeError m | JSONDecodeError m | OtherException m => m
  | KeyError k => "'" +:+ k +:+ "'"
  | GraphRecursionError => "Recursion limit reached"
  end.

(** [isinstance(e, ValueError)]; [json.JSONDecodeError] is a subclass. *)
Definition is_ValueError (e : exn) : bool :=
  match e with ValueError _ | JSONDecodeError _ => true | _ => false end.

Definition is_JSONDecodeError (e : exn) : bool :=
  match e with JSONDecodeError _ => true | _ => false end.

Inductive res (A : Type) : Type :=
| Ret (a : A)
| Raise (e : exn).
Arguments Ret {A} a.
Arguments Raise {A} e.

(** Truthiness of a [str]: only the empty string is falsy. *)
Definition truthy (s : string) : bool :=
  match s with EmptyString => false | String _ _ => true end.

(** Strings are held as their UTF-8 bytes. *)
Definition bytes (l : list nat) : string :=
  foldr (λ n s, String (ascii_of_nat n) s) EmptyString l.

(** [str.upper()] on one ASCII letter. *)
Definition upper_ascii (c : ascii) : ascii :=
  let n := nat_of_ascii c in
  if (97 <=? n)%nat && (n <=? 122)%nat then ascii_of_nat (n - 32) else c.

(** The characters outside ASCII whose upper case has an ASCII letter,
    by their encoding, with the encoding of their upper case.  Two
    bytes: U+00DF (SS), U+0131 (I), U+0149 (U+02BC N), U+017F (S) and
    U+01F0 (J U+030C). *)
Definition upper2 (c1 c2 : ascii) : option string :=
  let a := nat_of_ascii c1 in
  let b := nat_of_ascii c2 in
  if (a =? 195)%nat && (b =? 159)%nat then Some "SS"
  else if (a =? 196)%nat && (b =? 177)%nat then Some "I"
  else if (a =? 197)%nat && (b =? 137)%nat
       then Some (bytes [202; 188] +:+ "N")
  else if (a =? 197)%nat && (b =? 191)%nat then Some "S"
  else if (a =? 199)%nat && (b =? 176)%nat
       then Some ("J" +:+ bytes [204; 140])
  else None.

(** Three bytes: U+1E96 to U+1E9A (H, T, W, Y and A, each with a
    combining mark or modifier after it) and the ligatures U+FB00 to
    U+FB06 (FF, FI, FL, FFI, FFL, ST, ST). *)
Definition upper3 (c1 c2 c3 : ascii) : option string :=
  let a := nat_of_ascii c1 in
  let b := nat_of_ascii c2 in
  let c := nat_of_ascii c3 in
  if (a =? 225)%nat && (b =? 186)%nat then
    if (c =? 150)%nat then Some ("H" +:+ bytes [204; 177])
    else if (c =? 151)%nat then Some ("T" +:+ bytes [204; 136])
    else if (c =? 152)%nat then Some ("W" +:+ bytes [204; 138])
    else if (c =? 153)%nat then Some ("Y" +:+ bytes [204; 138])
    else if (c =? 154)%nat then Some ("A" +:+ bytes [202; 190])
    else None
  else if (a =? 239)%nat && (b =? 172)%nat then
    if (c =? 128)%nat then Some "FF"
    else if (c =? 129)%nat then Some "FI"
    else if (c =? 130)%nat then Some "FL"
    else if (c =? 131)%nat then Some "FFI"
    else if (c =? 132)%nat then Some "FFL"
    else if (c =? 133)%nat then Some "ST"
    else if (c =? 134)%nat then Some "ST"
    else None
  else None.

(** [str.upper()] as far as a search for an ASCII string can see: the
    ASCII letters and the characters above are upper-cased; the bytes of
    every other character are kept, its upper case having no ASCII
    character either.  The runs of ASCII characters of the result are
    those of Python's. *)
Fixpoint upper (s : string) : string :=
  match s with
  | EmptyString => EmptyString
  | String c1 s1 =>
      match s1 with
      | EmptyString => String (upper_ascii c1) EmptyString
      | String c2 s2 =>
          match upper2 c1 c2 with
          | Some out => out +:+ upper s2
          | None =>
              match s2 with
              | EmptyString => String (upper_ascii c1) (upper s1)
              | String c3 s3 =>
                  match upper3 c1 c2 c3 with
                  | Some out => out +:+ upper s3
                  | None => String (upper_ascii c1) (upper s1)
                  end
              end
          end
      end
  end.

(** The bytes of UTF-8: a continuation byte, and a byte of ASCII. *)
Definition cont (c : ascii) : Prop := 128 ≤ nat_of_ascii c < 192.
Definition plain (c : ascii) : Prop := nat_of_ascii c < 128.

Fixpoint all_plain (s : string) : Prop :=
  match s with
  | EmptyString => True
  | String c s' => plain c ∧ all_plain s'
  end.

(** The string does not start inside a character. *)
Definition starts_ok (s : string) : Prop :=
  match s with EmptyString => True | String d _ => ¬ cont d end.

(** [needle in hay] for strings. *)
Fixpoint contains (needle hay : string) : bool :=
  String.prefix needle hay ||
  match hay with
  | EmptyString => false
  | String _ hay' => contains needle hay'
  end.

(** [str.isspace] on one character of the ASCII range: tab, line feed,
    vertical tab, form feed, carriage return, the four separators
    0x1c-0x1f and the space. *)
Definition isspace (c : ascii) : bool :=
  let n := nat_of_ascii c in
  ((9 <=? n)%nat && (n <=? 13)%nat) ||
  ((28 <=? n)%nat && (n <=? 32)%nat).

(** The white space of [str.isspace] beyond ASCII, by its encoding.
    Two bytes: U+0085 (C2 85) and U+00A0 (C2 A0). *)
Definition isspace2 (c1 c2 : ascii) : bool :=
  let a := nat_of_ascii c1 in
  let b := nat_of_ascii c2 in
  (a =? 194)%nat && ((b =? 133)%nat || (b =? 160)%nat).

(** Three bytes: U+1680 (E1 9A 80), U+2000 to U+200A (E2 80 80 to
    E2 80 8A), U+2028, U+2029 and U+202F (E2 80 A8, A9, AF), U+205F
    (E2 81 9F) and U+3000 (E3 80 80). *)
Definition isspace3 (c1 c2 c3 : ascii) : bool :=
  let a := nat_of_ascii c1 in
  let b := nat_of_ascii c2 in
  let c := nat_of_ascii c3 in
  ((a =? 225)%nat && (b =? 154)%nat && (c =? 128)%nat)
  || ((a =? 226)%nat && (b =? 128)%nat
      && (((128 <=? c)%nat && (c <=? 138)%nat)
          || (c =? 168)%nat || (c =? 169)%nat || (c =? 175)%nat))
  || ((a =? 226)%nat && (b =? 129)%nat && (c =? 159)%nat)
  || ((a =? 227)%nat && (b =? 128)%nat && (c =? 128)%nat).

(** [s.lstrip()]: the leading white space characters are dropped, of
    one, two or three bytes each. *)
Fixpoint lstrip (s : string) : string :=
  match s with
  | EmptyString => EmptyString
  | String c1 s1 =>
      if isspace c1 then lstrip s1
      else
        match s1 with
        | EmptyString => s
        | String c2 s2 =>
            if isspace2 c1 c2 then lstrip s2
            else
              match s2 with
              | EmptyString => s
              | String c3 s3 =>
                  if isspace3 c1 c2 c3 then lstrip s3 else s
              end
        end
  end.

(** The same from the end, on the reversed string: the bytes of a
    character come last byte first.  A lead byte of UTF-8 is never a
    continuation byte, so a white space character is at the end of a
    string exactly when its bytes are. *)
Fixpoint lstrip_reversed (s : string) : string :=
  match s with
  | EmptyString => EmptyString
  | String c1 s1 =>
      if isspace c1 then lstrip_reversed s1
      else
        match s1 with
        | EmptyString => s
        | String c2 s2 =>
            if isspace2 c2 c1 then lstrip_reversed s2
            else
              match s2 with
              | EmptyString => s
              | String c3 s3 =>
                  if isspace3 c3 c2 c1 then lstrip_reversed s3 else s
              end
        end
  end.

(** [s.rstrip()] *)
Definition rstrip (s : string) : string :=
  String.rev (lstrip_reversed (String.rev s)).

(** [s.strip()] *)
Definition strip (s : string) : string := rstrip (lstrip s).

Definition newline : ascii := ascii_of_nat 10.

(** [s.split("\n")]: never empty, [k] separators give [k + 1] pieces. *)
Fixpoint split_lines (s : string) : list string :=
  match s with
  | EmptyString => [EmptyString]
  | String c s' =>
      if ascii_dec c newline then EmptyString :: split_lines s'
      else match split_lines s' with
           | [] => [String c EmptyString]
           | l :: ls => String c l :: ls
           end
  end.

(** [sep.join(parts)] *)
Fixpoint join (sep : string) (parts : list string) : string :=
  match parts with
  | [] => EmptyString
  | [p] => p
  | p :: ps => p +:+ sep +:+ join sep ps
  end.

(** [max(lo, min(n, hi))] *)
Definition clamp (lo hi : Z) (n : Z) : Z := Z.max lo (Z.min n hi).

(** [enumerate(l)] *)
Definition enumerate {A} (l : list A) : list (nat * A) := imap pair l.

End Py.
Export Py.


(** ** Data model ([workflow.py], and the dictionaries the stages exchange) *)

(** A search hit as the stages see it: the dictionary
    [{"title", "url", "snippet", "step_index"}].  [None] is an absent key. *)
Record SearchResult : Type := mkResult {
  title : option string;
  url : option string;
  snippet : option string;
  step_index : option nat
}.

(** [result.get("url", '')]: the empty string when the key is absent. *)
Definition get_url (r : SearchResult) : string := default EmptyString (url r).

(** [result["step_index"] = idx] *)
Definition set_step_index (idx : nat) (r : SearchResult) : SearchResult :=
  {| title := title r; url := url r; snippet := snippet r;
     step_index := Some idx |}.

Inductive message : Type :=
| HumanMessage (content : string)
| AIMessage (content : string).

(** [class ResearchState(TypedDict)] *)
Record ResearchState : Type := mkState {
  messages : list message;
  query : string;
  plan : list string;
  results : list SearchResult;
  draft : string;
  final : string;
  references : list string;
  revised_once : bool;
  llm_provider : string;
  model_name : string;
  search_provider : string;
  num_results : Z
}.

(** The dictionary a node returns: only the keys it sets.  No node sets
    [query] or a configuration key. *)
Record Update : Type := mkUpdate {
  u_messages : option (list message);
  u_plan : option (list string);
  u_results : option (list SearchResult);
  u_draft : option string;
  u_final : option string;
  u_references : option (list string);
  u_revised_once : option bool
}.

(** How the graph folds a node's return value into the state: the
    [messages] channel is annotated with [operator.add], every other
    channel keeps the last value written. *)
Definition merge (st : ResearchState) (u : Update) : ResearchState :=
  {| messages := messages st ++ default [] (u_messages u);
     query := query st;
     plan := default (plan st) (u_plan u);
     results := default (results st) (u_results u);
     draft := default (draft st) (u_draft u);
     final := default (final st) (u_final u);
     references := default (references st) (u_references u);
     revised_once := default (revised_once st) (u_revised_once u);
     llm_provider := llm_provider st;
     model_name := model_name st;
     search_provider := search_provider st;
     num_results := num_results st |}.

(** ** The world outside the repository, and the effect monad *)

(** The chat-model client [get_llm] builds. *)
Record LLM : Type := mkLLM {
  llm_class : string;
  llm_model : string;
  llm_api_key : string;
  llm_base_url : option string
}.

(** The variables handed to [chain.invoke] by the three prompting stages. *)
Inductive chain_input : Type :=
| PlanInput (query : string)
| WriteInput (query results_text : string)
| ReviewInput (draft : string).

(** A parsed JSON document, as [json.loads] returns it.  Numbers keep
    their literal. *)
#[warnings="-register-all"]
Inductive json : Type :=
| JNull
| JBool (b : bool)
| JNumber (literal : string)
| JString (s : string)
| JArray (items : list json)
| JObject (members : list (string * json)).

(** A raw hit of a search back end: a JSON object with string values. *)
Abbreviation RawItem := (gmap string string).

(** Calls that leave the stage functions, with their outcome. *)
Inductive call : Type :=
| CallGetLLM (provider model : option string) (r : res LLM)
| CallInvoke (llm : LLM) (i : chain_input) (r : res string)
| CallSearch (query : string) (provider : option string) (num : Z)
             (r : res (list SearchResult))
| CallBackend (backend : string) (query : string) (num : Z)
              (r : res (list RawItem))
| CallSleep (ms : nat).

Definition call_failed (c : call) : bool :=
  match c with
  | CallGetLLM _ _ (Raise _) | CallInvoke _ _ (Raise _)
  | CallSearch _ _ _ (Raise _) | CallBackend _ _ _ (Raise _) => true
  | _ => false
  end.

(** Everything the code reaches but does not own.  The oracles take the
    number of calls made so far, so that two calls with equal arguments
    may answer differently.
    - [environ]: [os.environ];
    - [chat]: the answer of [chain.invoke] (prompt, model, output parser);
    - [ddgs_text], [brave_get], [serper_post]: one request to a back end;
    - [json_loads], [py_repr]: [json.loads], and [str] on a parsed value
      that is not a string. *)
Record World : Type := mkWorld {
  environ : gmap string string;
  chat : nat → LLM → chain_input → res string;
  ddgs_text : nat → string → Z → res (list RawItem);
  brave_get : nat → string → Z → res (list RawItem);
  serper_post : nat → string → Z → res (list RawItem);
  json_loads : string → res json;
  py_repr : json → string
}.

(** [os.getenv(name)] and [os.getenv(name, dflt)] *)
Definition getenv (W : World) (name : string) : option string :=
  environ W !! name.
Definition getenv_default (W : World) (name dflt : string) : string :=
  default dflt (environ W !! name).

(** Computations that may raise and that log their calls.  The argument
    is the number of calls logged before the computation starts. *)
Definition M (A : Type) : Type := nat → res A * list call.

Definition ret {A} (a : A) : M A := λ _, (Ret a, []).
Definition raise {A} (e : exn) : M A := λ _, (Raise e, []).

Definition bind {A B} (m : M A) (k : A → M B) : M B := λ n,
  let '(r, l) := m n in
  match r with
  | Raise e => (Raise e, l)
  | Ret a => let '(r', l') := k a (n + length l) in (r', l ++ l')
  end.

(** [try: m  except <classes>: h]; [h e = None] when no clause matches
    the class of [e], which then propagates. *)
Definition try_except {A} (m : M A) (h : exn → option (M A)) : M A := λ n,
  let '(r, l) := m n in
  match r with
  | Ret a => (Ret a, l)
  | Raise e =>
      match h e with
      | None => (Raise e, l)
      | Some k => let '(r', l') := k (n + length l) in (r', l ++ l')
      end
  end.

(** Ask an oracle and log the call. *)
Definition perform {A} (ask : nat → res A) (entry : res A → call) : M A :=
  λ n, let r := ask n in (r, [entry r]).

Definition sleep (ms : nat) : M unit := λ _, (Ret tt, [CallSleep ms]).

Declare Scope M_scope.
Delimit Scope M_scope with M.
Bind Scope M_scope with M.
Notation "x <- m ;; k" := (bind m (λ x, k))
  (at level 100, m at next level, right associativity) : M_scope.
Notation "m ;;; k" := (bind m (λ _, k))
  (at level 100, right associativity) : M_scope.
Local Open Scope M_scope.

(** ** A reference [json.loads]

    The stage functions take [json.loads] from the [World]; this module is
    the decoder used to build concrete worlds.  It follows the grammar
    CPython's scanner accepts: the JSON values, plus [NaN], [Infinity] and
    [-Infinity]; control characters inside a string are rejected. *)

Module Json.

Definition is_char (c d : ascii) : bool := Stdlib.Strings.Ascii.eqb c d.

Definition dquote : ascii := ascii_of_nat 34.
Definition backslash : ascii := ascii_of_nat 92.

(** [quoted s] is [s] between two double quotes. *)
Definition quoted (s : string) : string :=
  String dquote (s +:+ String dquote EmptyString).

Definition is_ws (c : ascii) : bool :=
  let n := nat_of_ascii c in
  (n =? 32)%nat || (n =? 9)%nat || (n =? 10)%nat || (n =? 13)%nat.

Fixpoint skip_ws (s : string) : string :=
  match s with
  | String c s' => if is_ws c then skip_ws s' else s
  | EmptyString => s
  end.

Definition is_digit (c : ascii) : bool :=
  let n := nat_of_ascii c in (48 <=? n)%nat && (n <=? 57)%nat.

(** The longest prefix of digits, and what follows it. *)
Fixpoint span_digits (s : string) : string * string :=
  match s with
  | String c s' =>
      if is_digit c
      then let '(ds, rest) := span_digits s' in (String c ds, rest)
      else (EmptyString, s)
  | EmptyString => (EmptyString, s)
  end.

(** A number at the head of [s]: an optional minus sign, then a zero or
    a digit from 1 to 9 with any digits after it; an optional fraction
    (a dot and at least one digit); an optional exponent ([e] or [E], an
    optional sign, at least one digit). *)
Definition scan_int (s : string) : option (string * string) :=
  match s with
  | String c s' =>
      if is_char c "0" then Some ("0", s')
      else if is_digit c
           then let '(ds, rest) := span_digits s' in Some (String c ds, rest)
           else None
  | EmptyString => None
  end.

Definition scan_frac (s : string) : string * string :=
  match s with
  | String c s' =>
      if is_char c "." then
        match span_digits s' with
        | (EmptyString, _) => (EmptyString, s)
        | (ds, rest) => (String c ds, rest)
        end
      else (EmptyString, s)
  | EmptyString => (EmptyString, s)
  end.

Definition scan_exp (s : string) : string * string :=
  match s with
  | String e s' =>
      if is_char e "e" || is_char e "E" then
        let '(sign, s'') :=
          match s' with
          | String g t =>
              if is_char g "+" || is_char g "-"
              then (String g EmptyString, t) else (EmptyString, s')
          | EmptyString => (EmptyString, s')
          end in
        match span_digits s'' with
        | (EmptyString, _) => (EmptyString, s)
        | (ds, rest) => (String e (sign +:+ ds), rest)
        end
      else (EmptyString, s)
  | EmptyString => (EmptyString, s)
  end.

Definition scan_number (s : string) : option (string * string) :=
  let '(sign, s1) :=
    match s with
    | String c s' =>
        if is_char c "-" then (String c EmptyString, s')
        else (EmptyString, s)
    | EmptyString => (EmptyString, s)
    end in
  match scan_int s1 with
  | None => None
  | Some (i, s2) =>
      let '(f, s3) := scan_frac s2 in
      let '(e, s4) := scan_exp s3 in
      Some (sign +:+ i +:+ f +:+ e, s4)
  end.

Definition hexval (c : ascii) : option N :=
  let n := N_of_ascii c in
  if (48 <=? n)%N && (n <=? 57)%N then Some (n - 48)%N
  else if (97 <=? n)%N && (n <=? 102)%N then Some (n - 87)%N
  else if (65 <=? n)%N && (n <=? 70)%N then Some (n - 55)%N
  else None.

Definition hex4 (a b c d : ascii) : option N :=
  match hexval a, hexval b, hexval c, hexval d with
  | Some x, Some y, Some z, Some w =>
      Some (((x * 16 + y) * 16 + z) * 16 + w)%N
  | _, _, _, _ => None
  end.

Definition byte (n : N) : ascii := ascii_of_N n.

(** The bytes of one code point. *)
Definition utf8 (cp : N) : string :=
  if (cp <? 128)%N then String (byte cp) EmptyString
  else if (cp <? 2048)%N then
    String (byte (192 + cp / 64))
      (String (byte (128 + cp mod 64)) EmptyString)
  else if (cp <? 65536)%N then
    String (byte (224 + cp / 4096))
      (String (byte (128 + (cp / 64) mod 64))
         (String (byte (128 + cp mod 64)) EmptyString))
  else
    String (byte (240 + cp / 262144))
      (String (byte (128 + (cp / 4096) mod 64))
         (String (byte (128 + (cp / 64) mod 64))
            (String (byte (128 + cp mod 64)) EmptyString))).

Definition escape_char (c : ascii) : option ascii :=
  if is_char c dquote then Some dquote
  else if is_char c backslash then Some backslash
  else if is_char c "/" then Some "/"%char
  else if is_char c "b" then Some (ascii_of_nat 8)
  else if is_char c "f" then Some (ascii_of_nat 12)
  else if is_char c "n" then Some (ascii_of_nat 10)
  else if is_char c "r" then Some (ascii_of_nat 13)
  else if is_char c "t" then Some (ascii_of_nat 9)
  else None.

Definition is_high_surrogate (u : N) : bool :=
  (55296 <=? u)%N && (u <=? 56319)%N.
Definition is_low_surrogate (u : N) : bool :=
  (56320 <=? u)%N && (u <=? 57343)%N.

(** The low half of a surrogate pair at the head of [s], if any. *)
Definition low_surrogate (s : string) : option (N * string) :=
  match s with
  | String b (String u (String h1 (String h2 (String h3 (String h4 rest))))) =>
      if is_char b backslash && is_char u "u" then
        match hex4 h1 h2 h3 h4 with
        | Some lo => if is_low_surrogate lo then Some (lo, rest) else None
        | None => None
        end
      else None
  | _ => None
  end.

(** The body of a string, after its opening quote: the decoded text and
    what follows the closing quote. *)
Fixpoint scan_string (fuel : nat) (s : string) : option (string * string) :=
  match fuel with
  | O => None
  | S fuel' =>
      match s with
      | EmptyString => None
      | String c s' =>
          if is_char c dquote then Some (EmptyString, s')
          else if is_char c backslash then
            match s' with
            | String e t =>
                if is_char e "u" then
                  match t with
                  | String h1 (String h2 (String h3 (String h4 t'))) =>
                      match hex4 h1 h2 h3 h4 with
                      | None => None
                      | Some hi =>
                          let '(cp, t'') :=
                            match (if is_high_surrogate hi
                                   then low_surrogate t' else None) with
                            | Some (lo, rest) =>
                                ((65536 + (hi - 55296) * 1024
                                  + (lo - 56320))%N, rest)
                            | None => (hi, t')
                            end in
                          match scan_string fuel' t'' with
                          | Some (str, rest) => Some (utf8 cp +:+ str, rest)
                          | None => None
                          end
                      end
                  | _ => None
                  end
                else
                  match escape_char e with
                  | None => None
                  | Some x =>
                      match scan_string fuel' t with
                      | Some (str, rest) => Some (String x str, rest)
                      | None => None
                      end
                  end
            | EmptyString => None
            end
          else if (nat_of_ascii c <? 32)%nat then None
          else
            match scan_string fuel' s' with
            | Some (str, rest) => Some (String c str, rest)
            | None => None
            end
      end
  end.

Definition string_body (s : string) : option (string * string) :=
  scan_string (S (String.length s)) s.

Inductive parsed (A : Type) : Type :=
| Parsed (a : A) (rest : string)
| Malformed
| TooDeep.
Arguments Parsed {A} a rest.
Arguments Malformed {A}.
Arguments TooDeep {A}.

Definition literal (word : string) (v : json) (s : string) : parsed json :=
  if String.prefix word s
  then Parsed v (String.substring (String.length word)
                   (String.length s - String.length word) s)
  else Malformed.

(** One value at the head of [s]; [elements] and [members] read the rest
    of an array after its first bracket and of an object after its first
    key's opening quote.  [fuel] bounds the number of nested calls. *)
Fixpoint value (fuel : nat) (s : string) {struct fuel} : parsed json :=
  match fuel with
  | O => TooDeep
  | S fuel' =>
      match s with
      | EmptyString => Malformed
      | String c s' =>
          if is_char c dquote then
            match string_body s' with
            | Some (str, rest) => Parsed (JString str) rest
            | None => Malformed
            end
          else if is_char c "{" then
            match skip_ws s' with
            | String d t =>
                if is_char d dquote then
                  match members fuel' t with
                  | Parsed ms rest => Parsed (JObject ms) rest
                  | Malformed => Malformed
                  | TooDeep => TooDeep
                  end
                else if is_char d "}" then Parsed (JObject []) t
                else Malformed
            | EmptyString => Malformed
            end
          else if is_char c "[" then
            match skip_ws s' with
            | String d t =>
                if is_char d "]" then Parsed (JArray []) t
                else
                  match elements fuel' (String d t) with
                  | Parsed vs rest => Parsed (JArray vs) rest
                  | Malformed => Malformed
                  | TooDeep => TooDeep
                  end
            | EmptyString => Malformed
            end
          else if is_char c "n" then literal "null" JNull s
          else if is_char c "t" then literal "true" (JBool true) s
          else if is_char c "f" then literal "false" (JBool false) s
          else
            match scan_number s with
            | Some (lit, rest) => Parsed (JNumber lit) rest
            | None =>
                if is_char c "N" then literal "NaN" (JNumber "NaN") s
                else if is_char c "I"
                then literal "Infinity" (JNumber "Infinity") s
                else if is_char c "-"
                then literal "-Infinity" (JNumber "-Infinity") s
                else Malformed
            end
      end
  end
with elements (fuel : nat) (s : string) {struct fuel}
  : parsed (list json) :=
  match fuel with
  | O => TooDeep
  | S fuel' =>
      match value fuel' s with
      | Parsed v rest =>
          match skip_ws rest with
          | String d t =>
              if is_char d "]" then Parsed [v] t
              else if is_char d "," then
                match elements fuel' (skip_ws t) with
                | Parsed vs rest' => Parsed (v :: vs) rest'
                | Malformed => Malformed
                | TooDeep => TooDeep
                end
              else Malformed
          | EmptyString => Malformed
          end
      | Malformed => Malformed
      | TooDeep => TooDeep
      end
  end
with members (fuel : nat) (s : string) {struct fuel}
  : parsed (list (string * json)) :=
  match fuel with
  | O => TooDeep
  | S fuel' =>
      match string_body s with
      | None => Malformed
      | Some (key, rest) =>
          match skip_ws rest with
          | String d t =>
              if is_char d ":" then
                match value fuel' (skip_ws t) with
                | Parsed v rest' =>
                    match skip_ws rest' with
                    | String e u =>
                        if is_char e "}" then Parsed [(key, v)] u
                        else if is_char e "," then
                          match skip_ws u with
                          | String q w =>
                              if is_char q dquote then
                                match members fuel' w with
                                | Parsed ms rest'' =>
                                    Parsed ((key, v) :: ms) rest''
                                | Malformed => Malformed
                                | TooDeep => TooDeep
                                end
                              else Malformed
                          | EmptyString => Malformed
                          end
                        else Malformed
                    | EmptyString => Malformed
                    end
                | Malformed => Malformed
                | TooDeep => TooDeep
                end
              else Malformed
          | EmptyString => Malformed
          end
      end
  end.

(** [json.loads(s)]: one value between optional white space, and nothing
    after it.  A malformed document raises [JSONDecodeError]; nesting
    beyond the budget is reported as the interpreter reports an
    exhausted stack. *)
Definition loads (s : string) : res json :=
  match value (2 * String.length s + 2) (skip_ws s) with
  | Parsed v rest =>
      match skip_ws rest with
      | EmptyString => Ret v
      | String _ _ => Raise (JSONDecodeError "Extra data")
      end
  | Malformed => Raise (JSONDecodeError "Expecting value")
  | TooDeep => Raise (OtherException "RecursionError")
  end.

(** [str(v)] for a parsed value, used in concrete worlds: strings are
    themselves, [None], [True] and [False] print as such, a number
    prints its literal, a container prints a placeholder. *)
Definition str_value (v : json) : string :=
  match v with
  | JNull => "None"
  | JBool true => "True"
  | JBool false => "False"
  | JNumber lit => lit
  | JString s => s
  | JArray _ => "[...]"
  | JObject _ => "{...}"
  end.

End Json.

(** ** The gateways ([providers/llm.py], [providers/search.py]) *)

Module Providers.

Definition ChatAnthropic (model api_key : string) : LLM :=
  {| llm_class := "ChatAnthropic"; llm_model := model;
     llm_api_key := api_key; llm_base_url := None |}.

Definition ChatOpenAI (model api_key : string) (base : option string)
  : LLM :=
  {| llm_class := "ChatOpenAI"; llm_model := model;
     llm_api_key := api_key; llm_base_url := base |}.

(** [not os.getenv(name)]: the variable is unset or empty. *)
Definition env_missing (W : World) (name : string) : bool :=
  negb (truthy (default EmptyString (getenv W name))).

(** The body of [get_llm]: which client is built, or the [ValueError]. *)
Definition select_llm (W : World) (provider model_name : option string)
  : res LLM :=
  let provider := default (getenv_default W "LLM_PROVIDER" "anthropic")
                          provider in
  let model_name :=
    default (getenv_default W "MODEL_NAME" "claude-sonnet-4-5-20250929")
            model_name in
  if String.eqb provider "anthropic" then
    if env_missing W "ANTHROPIC_API_KEY" then
      Raise (ValueError
        ("ANTHROPIC_API_KEY required for provider 'anthropic'. " +:+
         "Get your API key at https://console.anthropic.com"))
    else Ret (ChatAnthropic model_name
                (default EmptyString (getenv W "ANTHROPIC_API_KEY")))
  else if String.eqb provider "openai" then
    if env_missing W "OPENAI_API_KEY" then
      Raise (ValueError
        ("OPENAI_API_KEY required for provider 'openai'. " +:+
         "Get your API key at https://platform.openai.com"))
    else Ret (ChatOpenAI model_name
                (default EmptyString (getenv W "OPENAI_API_KEY")) None)
  else if String.eqb provider "ollama" then
    Ret (ChatOpenAI model_name "not-needed"
           (Some (getenv_default W "OLLAMA_BASE_URL"
                    "http://localhost:11434/v1")))
  else if String.eqb provider "custom" then
    if env_missing W "OPENAI_BASE_URL" then
      Raise (ValueError
        ("OPENAI_BASE_URL required for provider 'custom'. " +:+
         "Set it to your self-hosted endpoint " +:+
         "(e.g., http://your-server:8000/v1)"))
    else Ret (ChatOpenAI model_name
                (getenv_default W "OPENAI_API_KEY" "not-needed")
                (getenv W "OPENAI_BASE_URL"))
  else
    Raise (ValueError
      ("Unknown provider: " +:+ provider +:+ ". " +:+
       "Supported: anthropic, openai, ollama, custom")).

(** [get_llm(provider, model_name)] *)
Definition get_llm (W : World) (provider model_name : option string)
  : M LLM :=
  perform (λ _, select_llm W provider model_name)
          (CallGetLLM provider model_name).

(** [chain.invoke(inputs)] for [chain = prompt | llm | StrOutputParser()] *)
Definition chain_invoke (W : World) (llm : LLM) (i : chain_input)
  : M string :=
  perform (λ n, chat W n llm i) (CallInvoke llm i).

(** The dictionary each back-end wrapper builds from a raw hit, with the
    back end's own key names for the link and the text. *)
Definition normalize (url_key snippet_key : string) (item : RawItem)
  : SearchResult :=
  {| title := Some (default "No title" (item !! "title"));
     url := Some (default EmptyString (item !! url_key));
     snippet := Some (default EmptyString (item !! snippet_key));
     step_index := None |}.

(** [_search_duckduckgo]: a missing package is re-raised, any other
    failure is printed and answered with no results. *)
Definition _search_duckduckgo (W : World) (query : string) (num : Z)
  : M (list SearchResult) :=
  try_except
    (items <- perform (λ n, ddgs_text W n query num)
                      (CallBackend "duckduckgo" query num) ;;
     ret (normalize "href" "body" <$> items))
    (λ e, match e with
          | ImportError _ =>
              Some (raise (ImportError
                ("duckduckgo-search required for DuckDuckGo provider. " +:+
                 "Install with: pip install duckduckgo-search")))
          | _ => Some (ret [])
          end).

Definition max_retries : nat := 3.

(** The retry loop shared in shape by [_search_brave] and
    [_search_serper]: [for attempt in range(max_retries)], a
    [RequestException] is retried after [2 ** attempt] seconds and gives
    no results on the last attempt; anything else propagates. *)
Fixpoint retry_loop (request : M (list SearchResult)) (attempts : list nat)
  : M (list SearchResult) :=
  match attempts with
  | [] => ret []
  | attempt :: later =>
      try_except request
        (λ e, match e with
              | RequestException _ =>
                  Some (if (attempt =? max_retries - 1)%nat then ret []
                        else (sleep (1000 * 2 ^ attempt) ;;;
                              retry_loop request later))
              | _ => None
              end)
  end.

Definition _search_brave (W : World) (query : string) (num : Z)
  : M (list SearchResult) :=
  if env_missing W "BRAVE_API_KEY" then
    raise (ValueError
      ("BRAVE_API_KEY required for Brave Search. " +:+
       "Get your API key at https://brave.com/search/api/"))
  else
    retry_loop
      (items <- perform (λ n, brave_get W n query num)
                        (CallBackend "brave" query num) ;;
       ret (normalize "url" "description" <$> take (Z.to_nat num) items))
      (seq 0 max_retries).

Definition _search_serper (W : World) (query : string) (num : Z)
  : M (list SearchResult) :=
  if env_missing W "SERPER_API_KEY" then
    raise (ValueError
      ("SERPER_API_KEY required for Serper. " +:+
       "Get your API key at https://serper.dev"))
  else
    retry_loop
      (items <- perform (λ n, serper_post W n query num)
                        (CallBackend "serper" query num) ;;
       ret (normalize "link" "snippet" <$> take (Z.to_nat num) items))
      (seq 0 max_retries).

Definition dispatch (W : World) (query : string) (provider : option string)
    (num_results : Z) : M (list SearchResult) :=
  let provider := default (getenv_default W "SEARCH_PROVIDER" "duckduckgo")
                          provider in
  let num_results := clamp 1 10 num_results in
  if String.eqb provider "duckduckgo" then
    _search_duckduckgo W query num_results
  else if String.eqb provider "brave" then
    _search_brave W query num_results
  else if String.eqb provider "serper" then
    _search_serper W query num_results
  else
    raise (ValueError
      ("Unknown search provider: " +:+ provider +:+ ". " +:+
       "Supported: duckduckgo, brave, serper")).

(** [search(query, provider, num_results)]; the call and its outcome are
    logged after the requests it made. *)
Definition search (W : World) (query : string) (provider : option string)
    (num_results : Z) : M (list SearchResult) := λ n,
  let '(r, l) := dispatch W query provider num_results n in
  (r, l ++ [CallSearch query provider num_results r]).

End Providers.
Import Providers.

(** ** The stage functions ([agents/]) *)

Module Agents.

(** The dictionaries the nodes return, by the keys they carry. *)
Definition plan_update (plan : list string) (msg : string) : Update :=
  {| u_messages := Some [AIMessage msg]; u_plan := Some plan;
     u_results := None; u_draft := None; u_final := None;
     u_references := None; u_revised_once := None |}.

Definition results_update (results : list SearchResult) (msg : string)
  : Update :=
  {| u_messages := Some [AIMessage msg]; u_plan := None;
     u_results := Some results; u_draft := None; u_final := None;
     u_references := None; u_revised_once := None |}.

Definition draft_update (draft : string) (references : list string)
    (msg : string) : Update :=
  {| u_messages := Some [AIMessage msg]; u_plan := None;
     u_results := None; u_draft := Some draft; u_final := None;
     u_references := Some references; u_revised_once := None |}.

Definition final_update (final : string) (msg : string) : Update :=
  {| u_messages := Some [AIMessage msg]; u_plan := None;
     u_results := None; u_draft := None; u_final := Some final;
     u_references := None; u_revised_once := None |}.

Definition revise_update (msg : string) : Update :=
  {| u_messages := Some [AIMessage msg]; u_plan := None;
     u_results := None; u_draft := None; u_final := None;
     u_references := None; u_revised_once := Some true |}.

(** [try: llm = get_llm(...)  except ValueError as e: return early e]:
    the client, or the dictionary the node returns at once. *)
Definition llm_or_return (W : World) (state : ResearchState)
    (early : exn → Update) : M (LLM + Update) :=
  try_except
    (llm <- get_llm W (Some (llm_provider state))
                      (Some (model_name state)) ;;
     ret (inl llm))
    (λ e, if is_ValueError e then Some (ret (inr (early e))) else None).

(** *** [planner_node] *)

(** [str(step)] *)
Definition py_str (W : World) (v : json) : string :=
  match v with JString s => s | _ => py_repr W v end.

(** The plan read from a response that parsed as JSON: a list of two to
    five items is kept, anything else is replaced by [[query]]; every
    item is then passed through [str]. *)
Definition plan_of_json (W : World) (query : string) (doc : json)
  : list string :=
  match doc with
  | JArray items =>
      if (length items <? 2)%nat || (5 <? length items)%nat
      then [query]
      else py_str W <$> items
  | _ => [query]
  end.

(** The plan read from a response that did not parse: its non-blank
    lines, stripped, at most five of them; [[query]] if there is none. *)
Definition plan_of_text (query response : string) : list string :=
  let lines :=
    strip <$> filter (λ line, truthy (strip line) = true)
                     (split_lines response) in
  match lines with
  | [] => [query]
  | _ :: _ => take 5 lines
  end.

(** The inner [try] of the planner: [json.loads], and the handler of
    [json.JSONDecodeError]; any other exception leaves it. *)
Definition parse_plan (W : World) (query response : string)
  : res (list string) :=
  match json_loads W response with
  | Ret doc => Ret (plan_of_json W query doc)
  | Raise e =>
      if is_JSONDecodeError e then Ret (plan_of_text query response)
      else Raise e
  end.

Definition planner_node (W : World) (state : ResearchState) : M Update :=
  r <- llm_or_return W state
         (λ e, plan_update [query state]
                 ("⚠️  Planner error: " +:+ str_exn e)) ;;
  match r with
  | inr early => ret early
  | inl llm =>
      try_except
        (response <- chain_invoke W llm (PlanInput (query state)) ;;
         match parse_plan W (query state) response with
         | Raise e => raise e
         | Ret plan =>
             ret (plan_update plan
                    ("Created research plan with " +:+
                     pretty (length plan) +:+ " steps"))
         end)
        (λ e, Some (ret (plan_update [query state]
                ("⚠️  Planning failed, using direct query: " +:+
                 str_exn e))))
  end.

(** *** [researcher_node] *)

(** The body of [for result in step_results]: a hit with a non-empty
    URL not seen before is stamped, appended and remembered. *)
Definition add_result (idx : nat)
    (acc : list SearchResult * gset string) (result : SearchResult)
  : list SearchResult * gset string :=
  let '(all_results, seen_urls) := acc in
  let url := get_url result in
  if truthy url && negb (bool_decide (url ∈ seen_urls))
  then (all_results ++ [set_step_index idx result], seen_urls ∪ {[url]})
  else acc.

(** How one pass through the loop body ends: at the next step, or with
    the [return] of the configuration-error handler. *)
Inductive flow : Type :=
| Continue (acc : list SearchResult * gset string)
| Return (u : Update).

Definition research_step (W : World) (state : ResearchState)
    (n_steps idx : nat) (step : string)
    (acc : list SearchResult * gset string) : M flow :=
  try_except
    (step_results <- search W step (Some (search_provider state))
                            (num_results state) ;;
     let acc' := foldl (add_result idx) acc step_results in
     (if (idx <? n_steps - 1)%nat then sleep 500 else ret tt) ;;;
     ret (Continue acc'))
    (λ e, if is_ValueError e
          then Some (ret (Return (results_update []
                 ("⚠️  Search configuration error: " +:+ str_exn e))))
          else Some (ret (Continue acc))).

Fixpoint research_loop (W : World) (state : ResearchState) (n_steps : nat)
    (steps : list (nat * string)) (acc : list SearchResult * gset string)
  : M flow :=
  match steps with
  | [] => ret (Continue acc)
  | (idx, step) :: later =>
      f <- research_step W state n_steps idx step acc ;;
      match f with
      | Return u => ret (Return u)
      | Continue acc' => research_loop W state n_steps later acc'
      end
  end.

Definition researcher_node (W : World) (state : ResearchState)
  : M Update :=
  match plan state with
  | [] => ret (results_update [] "⚠️  No research plan to execute")
  | _ :: _ =>
      f <- research_loop W state (length (plan state))
             (enumerate (plan state)) ([], ∅) ;;
      match f with
      | Return u => ret u
      | Continue ([], _) =>
          ret (results_update []
                 "⚠️  No search results found for any step")
      | Continue (all_results, _) =>
          ret (results_update all_results
                 ("Found " +:+ pretty (length all_results) +:+
                  " unique results across " +:+
                  pretty (length (plan state)) +:+ " research steps"))
      end
  end.

(** *** [writer_node] *)

Definition nl : string := String newline EmptyString.

(** [results[:20]] with its positions: the sources the prompt shows. *)
Definition source_window (results : list SearchResult)
  : list (nat * SearchResult) :=
  enumerate (take 20 results).

(** One entry of the listing; [r['title']] and the like raise
    [KeyError] on an absent key. *)
Definition format_source (entry : nat * SearchResult) : res string :=
  let '(i, r) := entry in
  match title r with
  | None => Raise (KeyError "title")
  | Some t =>
      match url r with
      | None => Raise (KeyError "url")
      | Some u =>
          match snippet r with
          | None => Raise (KeyError "snippet")
          | Some s =>
              Ret ("[" +:+ pretty (i + 1)%nat +:+ "] " +:+ t +:+ nl +:+
                   "URL: " +:+ u +:+ nl +:+
                   "Content: " +:+ s)
          end
      end
  end.

Fixpoint format_sources (entries : list (nat * SearchResult))
  : res (list string) :=
  match entries with
  | [] => Ret []
  | entry :: later =>
      match format_source entry with
      | Raise e => Raise e
      | Ret text =>
          match format_sources later with
          | Raise e => Raise e
          | Ret texts => Ret (text :: texts)
          end
      end
  end.

Definition results_text (results : list SearchResult) : res string :=
  match format_sources (source_window results) with
  | Raise e => Raise e
  | Ret texts => Ret (join (nl +:+ nl) texts)
  end.

(** The body of [for result in results[:20]] that fills [references]. *)
Definition add_reference (acc : list string * gset string)
    (result : SearchResult) : list string * gset string :=
  let '(references, seen_urls) := acc in
  let url := get_url result in
  if truthy url && negb (bool_decide (url ∈ seen_urls))
  then (references ++ [url], seen_urls ∪ {[url]})
  else acc.

Definition collect_references (results : list SearchResult)
  : list string :=
  (foldl add_reference ([], ∅) (take 20 results)).1.

Definition writer_node (W : World) (state : ResearchState) : M Update :=
  match results state with
  | [] =>
      ret (draft_update "No research results available to synthesize." []
             "⚠️  No results to write about")
  | _ :: _ =>
      r <- llm_or_return W state
             (λ e, draft_update
                     ("Error: Could not initialize LLM - " +:+ str_exn e)
                     [] ("⚠️  Writer error: " +:+ str_exn e)) ;;
      match r with
      | inr early => ret early
      | inl llm =>
          match results_text (results state) with
          | Raise e => raise e
          | Ret text =>
              try_except
                (draft <- chain_invoke W llm
                            (WriteInput (query state) text) ;;
                 let references := collect_references (results state) in
                 ret (draft_update (strip draft) references
                        ("Draft complete with " +:+
                         pretty (length references) +:+ " references")))
                (λ e, Some (ret (draft_update
                        ("Error generating brief: " +:+ str_exn e) []
                        ("⚠️  Writing failed: " +:+ str_exn e))))
          end
      end
  end.

(** *** [reviewer_node] *)

(** ["NEEDS_REVISION" in review.upper()] *)
Definition needs_revision (review : string) : bool :=
  contains "NEEDS_REVISION" (upper review).

Definition reviewer_node (W : World) (state : ResearchState) : M Update :=
  let draft := draft state in
  let revised_once := revised_once state in
  if negb (truthy draft) then
    ret (final_update "No draft available." "⚠️  No draft to review")
  else
    r <- llm_or_return W state
           (λ e, final_update draft
                   ("⚠️  Reviewer unavailable, auto-approving: " +:+
                    str_exn e)) ;;
    match r with
    | inr early => ret early
    | inl llm =>
        try_except
          (review <- chain_invoke W llm (ReviewInput draft) ;;
           if needs_revision review && negb revised_once then
             ret (revise_update ("Requesting revision: " +:+ review))
           else
             ret (final_update draft
                    (if negb (needs_revision review)
                     then "Research complete"
                     else "Revision limit reached, finalizing")))
          (λ e, Some (ret (final_update draft
                  ("⚠️  Review failed, auto-approving: " +:+ str_exn e))))
    end.

End Agents.
Import Agents.

(** ** The graph and its driver ([workflow.py]) *)

Module Workflow.

(** The two targets of the conditional edge: the key ["writer"], or
    [END]. *)
Inductive route : Type := to_writer | END.

(** [_should_revise(state)], evaluated on the state that already holds
    what the reviewer returned. *)
Definition _should_revise (state : ResearchState) : route :=
  if truthy (final state) then END
  else if truthy (draft state) && negb (revised_once state) then to_writer
  else END.

Inductive node : Type := planner | researcher | writer | reviewer.

Definition run_node (W : World) (nd : node) : ResearchState → M Update :=
  match nd with
  | planner => planner_node W
  | researcher => researcher_node W
  | writer => writer_node W
  | reviewer => reviewer_node W
  end.

(** The edges of [build_workflow]: three fixed ones, and the conditional
    edge out of the reviewer.  [None] is [END]. *)
Definition successor (nd : node) (state : ResearchState) : option node :=
  match nd with
  | planner => Some researcher
  | researcher => Some writer
  | writer => Some reviewer
  | reviewer =>
      match _should_revise state with
      | to_writer => Some writer
      | END => None
      end
  end.

(** The number of node executions the graph library allows in one run
    before it raises. *)
Definition recursion_limit : nat := 25.

(** [graph.stream] from node [nd] on: each executed node yields the
    one-entry dictionary [{name: returned}], which is what
    [list(state_update.values())[0]] takes apart; the returned
    dictionary is merged into the state before the next edge is chosen.
    An exception of a node ends the stream. *)
Fixpoint stream_from (W : World) (fuel : nat) (nd : node)
    (state : ResearchState) : M (list (node * Update)) :=
  match fuel with
  | O => raise GraphRecursionError
  | S fuel' =>
      u <- run_node W nd state ;;
      match successor nd (merge state u) with
      | None => ret [(nd, u)]
      | Some nd' =>
          chunks <- stream_from W fuel' nd' (merge state u) ;;
          ret ((nd, u) :: chunks)
      end
  end.

(** [graph.stream(initial_state, config)]: the entry point is the
    planner. *)
Definition stream (W : World) (initial_state : ResearchState)
  : M (list (node * Update)) :=
  stream_from W recursion_limit planner initial_state.

(** The state the graph holds after the chunks of a run. *)
Definition graph_state (initial_state : ResearchState)
    (chunks : list (node * Update)) : ResearchState :=
  foldl (λ st chunk, merge st chunk.2) initial_state chunks.

Definition initial_state (query llm_provider model_name
    search_provider : string) (num_results : Z) : ResearchState :=
  {| messages := [HumanMessage query];
     query := query;
     plan := [];
     results := [];
     draft := EmptyString;
     final := EmptyString;
     references := [];
     revised_once := false;
     llm_provider := llm_provider;
     model_name := model_name;
     search_provider := search_provider;
     num_results := clamp 1 10 num_results |}.

(** [not final_state] for a dictionary: it has no key. *)
Definition is_empty (u : Update) : bool :=
  match u with
  | {| u_messages := None; u_plan := None; u_results := None;
       u_draft := None; u_final := None; u_references := None;
       u_revised_once := None |} => true
  | _ => false
  end.

(** [run_research]: the value of the last chunk of the stream is
    returned. *)
Definition run_research (W : World) (query llm_provider model_name
    search_provider : string) (num_results : Z) : M Update :=
  chunks <- stream W (initial_state query llm_provider model_name
                        search_provider num_results) ;;
  match last chunks with
  | None => raise (RuntimeError "Workflow produced no output")
  | Some (_, final_state) =>
      if is_empty final_state
      then raise (RuntimeError "Workflow produced no output")
      else ret final_state
  end.

End Workflow.
Import Workflow.

(** ** What the specification speaks of *)

Module Spec.

(** A hit carries a URL when its [url] is present and not empty. *)
Definition has_url (r : SearchResult) : Prop := get_url r ≠ EmptyString.

#[global] Instance has_url_dec (r : SearchResult) : Decision (has_url r).
Proof. unfold has_url. apply _. Defined.

(** Deduplication that keeps first occurrences: the head stays, and
    every later entry with the head's key goes. *)
Fixpoint first_seen_by {A} (key : A → string) (l : list A) : list A :=
  match l with
  | [] => []
  | x :: l' => x :: filter (λ y, key y ≠ key x) (first_seen_by key l')
  end.

Definition first_seen : list string → list string := first_seen_by id.

(** The position of the first occurrence of [u]. *)
Fixpoint first_pos (u : string) (l : list string) : option nat :=
  match l with
  | [] => None
  | x :: l' => if decide (x = u) then Some 0%nat else S <$> first_pos u l'
  end.

(** [refs] lists its entries in the order in which they first occur in
    [urls]. *)
Definition in_first_seen_order (refs urls : list string) : Prop :=
  ∀ i j a b, refs !! i = Some a → refs !! j = Some b → (i < j)%nat →
    ∃ p q, first_pos a urls = Some p ∧ first_pos b urls = Some q ∧
           (p < q)%nat.

(** The hits of step [idx], stamped with it, and the step-order
    concatenation of all steps. *)
Definition stamped (idx : nat) (l : list SearchResult)
  : list SearchResult :=
  set_step_index idx <$> l.

Definition concat_steps (lists : list (list SearchResult))
  : list SearchResult :=
  mjoin (imap stamped lists).

(** The distinct values of the [url] field among [l]. *)
Definition distinct_urls (l : list SearchResult) : gset string :=
  list_to_set (get_url <$> l).

(** The URLs of the window the writer looks at. *)
Definition window_urls (results : list SearchResult) : list string :=
  get_url <$> take 20 results.

(** The label a source gets in the prompt: its position plus one. *)
Definition label (entry : nat * SearchResult) : nat := (entry.1 + 1)%nat.

End Spec.
Import Spec.

(** ** Reading the log *)

(** The calls to [search] of a run, in order: the query and the outcome. *)
Definition search_calls (calls : list call)
  : list (string * res (list SearchResult)) :=
  omap (λ c, match c with
             | CallSearch q _ _ r => Some (q, r)
             | _ => None
             end) calls.

(** What a step contributes: its hits, or nothing when the search
    raised. *)
Definition hits (o : res (list SearchResult)) : list SearchResult :=
  match o with Ret l => l | Raise _ => [] end.

(** The outcome is an exception the researcher takes for a configuration
    error. *)
Definition is_config_error (o : res (list SearchResult)) : bool :=
  match o with Raise e => is_ValueError e | Ret _ => false end.

(** The responses the planner's model call got. *)
Definition plan_responses (calls : list call) : list (res string) :=
  omap (λ c, match c with
             | CallInvoke _ (PlanInput _) r => Some r
             | _ => None
             end) calls.

Definition failed_calls (calls : list call) : list call :=
  filter (λ c, call_failed c = true) calls.

(** The loop body of the researcher and of the writer on an entry that
    already has its final shape: it is kept when its URL is not empty and
    not seen yet. *)
Definition add_stamped (acc : list SearchResult * gset string)
    (r : SearchResult) : list SearchResult * gset string :=
  if truthy (get_url r) && negb (bool_decide (get_url r ∈ acc.2))
  then (acc.1 ++ [r], acc.2 ∪ {[get_url r]})
  else acc.

(** The accumulator of the researcher after the given steps, when step
    [i] of [steps] got the outcome [i] of [outs]. *)
Fixpoint fold_steps (steps : list nat) (outs : list (res (list SearchResult)))
    (acc : list SearchResult * gset string)
  : list SearchResult * gset string :=
  match steps, outs with
  | idx :: steps', o :: outs' =>
      fold_steps steps' outs' (foldl (add_result idx) acc (hits o))
  | _, _ => acc
  end.

(** How one pass through the researcher's loop ends, given the outcome of
    its search. *)
Definition step_flow (idx : nat) (acc : list SearchResult * gset string)
    (o : res (list SearchResult)) : flow :=
  match o with
  | Ret l => Continue (foldl (add_result idx) acc l)
  | Raise e =>
      if is_ValueError e
      then Return (results_update []
                     ("⚠️  Search configuration error: " +:+ str_exn e))
      else Continue acc
  end.

(** No logged search ended in a configuration error. *)
Definition no_config_error (outs : list (string * res (list SearchResult)))
  : Prop :=
  Forall (λ qo, is_config_error qo.2 = false) outs.

(** A hit with the three keys the writer reads. *)
Definition complete (r : SearchResult) : Prop :=
  is_Some (title r) ∧ is_Some (url r) ∧ is_Some (snippet r).

(** What the reviewer can return in a state, with the calls it made. *)
Inductive review_outcome (state : ResearchState) (calls : list call)
  : Update → Prop :=
| review_no_draft msg :
    draft state = EmptyString → calls = [] →
    review_outcome state calls (final_update "No draft available." msg)
| review_final msg :
    draft state ≠ EmptyString →
    review_outcome state calls (final_update (draft state) msg)
| review_revise msg :
    draft state ≠ EmptyString → revised_once state = false →
    failed_calls calls = [] →
    review_outcome state calls (revise_update msg).

(** ** Concrete worlds *)

Module Scenario.

Definition hit (t u b : string) : RawItem :=
  {[ "title" := t; "href" := u; "body" := b ]}.

(** A local model needs no credential; the planner's model answers with
    a two-step JSON plan, each search finds one page of its own and one
    page every step finds, the writer's model answers with a cited
    brief. *)
Definition base (review : string) : World :=
  {| environ := ∅;
     chat := λ _ _ i,
       match i with
       | PlanInput _ =>
           Ret ("[" +:+ Json.quoted "current adoption" +:+ "," +:+
                Json.quoted "cost trends" +:+ "]")
       | WriteInput _ _ => Ret "Adoption grows [1]. Costs fall [3]."
       | ReviewInput _ => Ret review
       end;
     ddgs_text := λ _ q _,
       Ret [hit q ("https://example.org/" +:+ q) "text";
            hit "shared" "https://example.org/shared" "text"];
     brave_get := λ _ _ _, Ret [];
     serper_post := λ _ _ _, Ret [];
     json_loads := Json.loads;
     py_repr := Json.str_value |}.

(** Scenario C: the review always asks for a revision. *)
Definition always_revise : World :=
  base "NEEDS_REVISION: the second claim has no citation".

(** The review approves. *)
Definition approving : World := base "APPROVED".

Definition start : ResearchState :=
  initial_state "solar energy trends" "ollama" "llama3.1:8b"
                "duckduckgo" 5.

(** The planner's model answers with prose instead of JSON. *)
Definition prose_plan : World :=
  {| environ := ∅;
     chat := λ _ _ _, Ret "hello";
     ddgs_text := λ _ _ _, Ret [];
     brave_get := λ _ _ _, Ret [];
     serper_post := λ _ _ _, Ret [];
     json_loads := Json.loads;
     py_repr := Json.str_value |}.

(** The only hit of the only step has an empty link. *)
Definition empty_link : World :=
  {| environ := ∅;
     chat := λ _ _ _, Ret "APPROVED";
     ddgs_text := λ _ _ _, Ret [hit "untitled" EmptyString "text"];
     brave_get := λ _ _ _, Ret [];
     serper_post := λ _ _ _, Ret [];
     json_loads := Json.loads;
     py_repr := Json.str_value |}.

(** The search of the first step fails (the first call of the run is
    the first request to the back end), the second one answers. *)
Definition flaky_search : World :=
  {| environ := ∅;
     chat := λ _ _ _, Ret "APPROVED";
     ddgs_text := λ n q _,
       if (n =? 0)%nat then Raise (ImportError "No module")
       else Ret [hit q ("https://example.org/" +:+ q) "text"];
     brave_get := λ _ _ _, Ret [];
     serper_post := λ _ _ _, Ret [];
     json_loads := Json.loads;
     py_repr := Json.str_value |}.

(** The Brave back end is selected and its key is not set. *)
Definition no_brave_key : World := empty_link.

Definition page (t u : string) : SearchResult :=
  {| title := Some t; url := Some u; snippet := Some "text";
     step_index := Some 0%nat |}.

(** Three results, the first two with the same URL. *)
Definition repeated_results : list SearchResult :=
  [page "A" "https://a.example"; page "A again" "https://a.example";
   page "B" "https://b.example"].

Definition with_results (results : list SearchResult) : ResearchState :=
  {| messages := []; query := "q"; plan := ["q"]; results := results;
     draft := EmptyString; final := EmptyString; references := [];
     revised_once := false; llm_provider := "ollama";
     model_name := "llama3.1:8b"; search_provider := "duckduckgo";
     num_results := 5 |}.

(** The Brave key is set.  The first request answers with one hit; every
    later request gets a body that is not JSON, on which
    [response.json()] raises [json.JSONDecodeError]: a [ValueError] and,
    with a [requests] older than 2.27, no [RequestException], so that it
    leaves [_search_brave]. *)
Definition garbled_answer : World :=
  {| environ := {[ "BRAVE_API_KEY" := "brave-key" ]};
     chat := λ _ _ _, Ret "APPROVED";
     ddgs_text := λ _ _ _, Ret [];
     brave_get := λ n q _,
       if (n =? 0)%nat
       then Ret [ ({[ "title" := q; "url" := "https://example.org/" +:+ q;
                      "description" := "text" ]} : RawItem) ]
       else Raise (JSONDecodeError
                     "Expecting value: line 1 column 1 (char 0)");
     serper_post := λ _ _ _, Ret [];
     json_loads := Json.loads;
     py_repr := Json.str_value |}.

(** A state with a plan of two steps, for the Brave back end. *)
Definition two_steps : ResearchState :=
  merge (initial_state "q" "ollama" "llama3.1:8b" "brave" 5)
        (plan_update ["first step"; "second step"] EmptyString).

End Scenario.

(** ** The catalogues of the gateways, and the web front end ([app.py]) *)

Module Catalog.

(** The dictionary inside [get_available_models]. *)
Definition models : gmap string (list string) :=
  {[ "anthropic" := ["claude-sonnet-4-5-20250929";
                     "claude-sonnet-4-20250514";
                     "claude-3-7-sonnet-20250219";
                     "claude-3-5-sonnet-20241022";
                     "claude-3-opus-20240229"];
     "openai" := ["gpt-4o"; "gpt-4o-mini"; "gpt-4-turbo"; "gpt-3.5-turbo"];
     "ollama" := ["llama3.1:70b"; "llama3.1:8b"; "mistral:latest";
                  "mixtral:latest"; "phi3:medium"; "gemma2:27b"];
     "custom" := ["custom-model"] ]}.

(** [get_available_models(provider)]: [models.get(provider, [])] *)
Definition get_available_models (provider : string) : list string :=
  default [] (models !! provider).

(** One entry of [get_available_providers]. *)
Record provider_info : Type := mkInfo {
  pi_name : string;
  pi_display_name : string;
  pi_cost : string;
  pi_monthly_limit : string;
  pi_requires_api_key : bool;
  pi_description : string
}.

Definition get_available_providers : list provider_info :=
  [ {| pi_name := "duckduckgo";
       pi_display_name := "DuckDuckGo (Free)";
       pi_cost := "Free";
       pi_monthly_limit := "Unlimited";
       pi_requires_api_key := false;
       pi_description := "No API key needed, unlimited searches" |};
    {| pi_name := "brave";
       pi_display_name := "Brave Search (2K free/month)";
       pi_cost := "Free tier: 2,000/month";
       pi_monthly_limit := "2,000";
       pi_requires_api_key := true;
       pi_description := "High quality results, 2K free queries/month" |};
    {| pi_name := "serper";
       pi_display_name := "Serper.dev (2.5K free/month)";
       pi_cost := "Free tier: 2,500/month";
       pi_monthly_limit := "2,500";
       pi_requires_api_key := true;
       pi_description :=
         "Google-powered results, 2.5K free queries/month" |} ].

End Catalog.
Import Catalog.

Module App.

(** [str.lower()] on one ASCII letter. *)
Definition lower_ascii (c : ascii) : ascii :=
  let n := nat_of_ascii c in
  if (65 <=? n)%nat && (n <=? 90)%nat then ascii_of_nat (n + 32) else c.

(** The Kelvin sign U+212A (E2 84 AA): the one character outside ASCII
    whose lower case is an ASCII string, the letter k. *)
Definition is_kelvin (c1 c2 c3 : ascii) : bool :=
  (nat_of_ascii c1 =? 226)%nat && (nat_of_ascii c2 =? 132)%nat
  && (nat_of_ascii c3 =? 170)%nat.

(** [str.lower()] as far as a comparison with an ASCII string can see:
    the ASCII letters and the Kelvin sign are lower-cased, the bytes of
    every other character are kept (its lower case has a character
    outside ASCII as well).  The provider names this is used for are
    compared with ASCII names only. *)
Fixpoint lower (s : string) : string :=
  match s with
  | EmptyString => EmptyString
  | String c1 s1 =>
      match s1 with
      | String c2 (String c3 s3) =>
          if is_kelvin c1 c2 c3 then String "k" (lower s3)
          else String (lower_ascii c1) (lower s1)
      | _ => String (lower_ascii c1) (lower s1)
      end
  end.

(** The body of [for i, step in enumerate(plan, 1): plan_md += ...] *)
Definition plan_line (i : nat) (step : string) : string :=
  pretty (i + 1)%nat +:+ ". " +:+ step +:+ nl.

(** The body of [for i, url in enumerate(references, 1)] *)
Definition reference_line (i : nat) (link : string) : string :=
  "[" +:+ pretty (i + 1)%nat +:+ "] " +:+ link +:+ nl +:+ nl.

(** [s += line] for every line, in order. *)
Definition append_lines (s : string) (lines : list string) : string :=
  foldl String.append s lines.

(** [format_output(state)] on the dictionary [run_research] returned:
    [state.get("plan", [])], [state.get("final", state.get("draft", ''))]
    and [state.get("references", [])]. *)
Definition format_output (state : Update) : string * string * string :=
  let plan := default [] (u_plan state) in
  let plan_md :=
    match plan with
    | [] => "## 📋 Research Plan" +:+ nl +:+ nl +:+
            "_No plan generated_" +:+ nl
    | _ :: _ => append_lines ("## 📋 Research Plan" +:+ nl +:+ nl)
                             (imap plan_line plan)
    end in
  let brief :=
    default (default EmptyString (u_draft state)) (u_final state) in
  let brief_md :=
    if truthy brief
    then "## 📝 Research Brief" +:+ nl +:+ nl +:+ brief
    else "## 📝 Research Brief" +:+ nl +:+ nl +:+
         "_No brief generated_" +:+ nl in
  let references := default [] (u_references state) in
  let references_md :=
    match references with
    | [] => "## 📚 References" +:+ nl +:+ nl +:+
            "_No references found_" +:+ nl
    | _ :: _ => append_lines ("## 📚 References" +:+ nl +:+ nl)
                             (imap reference_line references)
    end in
  (plan_md, brief_md, references_md).

(** [research_interface]: the four strings it hands to the page. *)
Definition research_interface (W : World) (query llm_provider model_name
    search_provider : string) (num_results : Z)
  : M (string * string * string * string) :=
  if negb (truthy (strip query)) then
    ret ("❌ Please enter a research query",
         EmptyString, EmptyString, EmptyString)
  else
    try_except
      (state <- run_research W query (lower llm_provider) model_name
                             (lower search_provider) num_results ;;
       let '(plan_md, brief_md, references_md) := format_output state in
       ret ("✅ Research completed successfully for: *" +:+ query +:+ "*",
            plan_md, brief_md, references_md))
      (λ e, if is_ValueError e
            then Some (ret ("❌ Configuration Error: " +:+ str_exn e,
                            EmptyString, EmptyString, EmptyString))
            else Some (ret ("❌ Error: " +:+ str_exn e,
                            EmptyString, EmptyString, EmptyString))).

(** [update_model_choices(provider)]: the choices of the model menu and
    the preselected one ([models[0] if models else None]). *)
Definition update_model_choices (provider : string)
  : list string * option string :=
  let models := get_available_models (lower provider) in
  (models, head models).

(** The choices of the two provider menus of [create_interface]: the
    page passes the chosen string to [research_interface]. *)
Definition llm_choices : list string :=
  ["Anthropic"; "OpenAI"; "Ollama"; "Custom"].

Definition search_choices : list string :=
  pi_display_name <$> get_available_providers.

End App.
Import App.

(** ** Further readings of the log *)

(** The requests to a search back end: the count asked for. *)
Definition backend_counts (calls : list call) : list Z :=
  omap (λ c, match c with
             | CallBackend _ _ num _ => Some num
             | _ => None
             end) calls.

(** The pauses of a run, in milliseconds. *)
Definition sleeps (calls : list call) : list nat :=
  omap (λ c, match c with CallSleep ms => Some ms | _ => None end) calls.

(** The calls to the language model, with what was asked. *)
Definition model_calls (calls : list call) : list chain_input :=
  omap (λ c, match c with CallInvoke _ i _ => Some i | _ => None end) calls.

(** The search providers [search] has a branch for. *)
Definition known_search_provider (name : string) : bool :=
  String.eqb name "duckduckgo" || String.eqb name "brave"
  || String.eqb name "serper".

(** The providers [get_llm] has a branch for. *)
Definition known_llm_provider (name : string) : bool :=
  String.eqb name "anthropic" || String.eqb name "openai"
  || String.eqb name "ollama" || String.eqb name "custom".

(** ** More concrete worlds *)

Module Cases.

(** Every credential is set; the back ends answer nothing. *)
Definition all_keys : World :=
  {| environ := {[ "ANTHROPIC_API_KEY" := "sk-ant";
                   "OPENAI_API_KEY" := "sk-openai";
                   "OPENAI_BASE_URL" := "http://model.example/v1";
                   "BRAVE_API_KEY" := "brave-key";
                   "SERPER_API_KEY" := "serper-key" ]};
     chat := λ _ _ _, Ret "APPROVED";
     ddgs_text := λ _ _ _, Ret [];
     brave_get := λ _ _ _, Ret [];
     serper_post := λ _ _ _, Ret [];
     json_loads := Json.loads;
     py_repr := Json.str_value |}.

(** The Brave key is set and the back end answers with twelve hits. *)
Definition brave_many : World :=
  {| environ := {[ "BRAVE_API_KEY" := "brave-key" ]};
     chat := λ _ _ _, Ret "APPROVED";
     ddgs_text := λ _ _ _, Ret [];
     brave_get := λ _ q _,
       Ret ((λ i, {[ "title" := q; "url" := "https://example.org/" +:+
                                           pretty i ]} : RawItem)
            <$> seq 0 12);
     serper_post := λ _ _ _, Ret [];
     json_loads := Json.loads;
     py_repr := Json.str_value |}.


(** The language model raises on every call. *)
Definition model_down : World :=
  {| environ := ∅;
     chat := λ _ _ _, Raise (OtherException "connection refused");
     ddgs_text := λ _ q _,
       Ret [Scenario.hit q ("https://example.org/" +:+ q) "text"];
     brave_get := λ _ _ _, Ret [];
     serper_post := λ _ _ _, Ret [];
     json_loads := Json.loads;
     py_repr := Json.str_value |}.

(** A result without its [snippet]. *)
Definition no_snippet : SearchResult :=
  {| title := Some "A"; url := Some "https://a.example"; snippet := None;
     step_index := Some 0%nat |}.

(** A state that holds a draft, before its first review and before its
    second one. *)
Definition drafted : ResearchState :=
  merge Scenario.start
    (draft_update "Adoption grows [1]." ["https://example.org/a"]
                  "Draft complete with 1 references").

Definition reviewed_once : ResearchState :=
  merge drafted (revise_update "Requesting revision: NEEDS_REVISION").

(** The review mentions the keyword in lower case, negated. *)
Definition mild_review : World :=
  Scenario.base "Approved: nothing here needs_revision.".

End Cases.

(** * Properties *)

#[local] Set Warnings "-clear-no-such-hyp".

(** ** Python built-ins *)

Example strip_example :
  strip (" " +:+ nl +:+ " two words " +:+ nl) = "two words".
Proof. reflexivity. Qed.

Example split_lines_example :
  split_lines ("a" +:+ nl +:+ nl +:+ "b") = ["a"; EmptyString; "b"].
Proof. reflexivity. Qed.

Example needs_revision_example :
  needs_revision "Needs_Revision: no source" = true
  ∧ needs_revision "APPROVED" = false.
Proof. by split. Qed.

(** White space and letters outside ASCII: a no-break space around a
    word, and the keyword written with a long s (U+017F) and a dotless i
    (U+0131). *)
Example strip_no_break_space_example :
  strip (bytes [194; 160] +:+ "x" +:+ bytes [227; 128; 128]) = "x"
  ∧ strip (bytes [194; 160]) = EmptyString.
Proof. by split. Qed.

Example needs_revision_long_s_example :
  needs_revision ("need" +:+ bytes [197; 191] +:+ "_rev" +:+
                  bytes [196; 177] +:+ "sion") = true.
Proof. reflexivity. Qed.

Example loads_list_example :
  Json.loads (" [" +:+ Json.quoted "a" +:+ ", 1.5e3, null, {" +:+
              Json.quoted "k" +:+ ": [true]}] ")
  = Ret (JArray [JString "a"; JNumber "1.5e3"; JNull;
                 JObject [("k", JArray [JBool true])]]).
Proof. reflexivity. Qed.

Example loads_prose_example :
  Json.loads "hello" = Raise (JSONDecodeError "Expecting value")
  ∧ Json.loads "[1,]" = Raise (JSONDecodeError "Expecting value")
  ∧ Json.loads "[1] 2" = Raise (JSONDecodeError "Extra data").
Proof. by split_and!. Qed.

Lemma truthy_true (s : string) : truthy s = true ↔ s ≠ EmptyString.
Proof. destruct s; simpl; split; congruence. Qed.

Lemma truthy_false (s : string) : truthy s = false ↔ s = EmptyString.
Proof. destruct s; simpl; split; congruence. Qed.

(** ** Deduplication *)

Section FirstSeen.
Context {A : Type} (key : A → string).

Lemma first_seen_by_elem (l : list A) (x : A) :
  x ∈ first_seen_by key l → x ∈ l.
Proof.
  revert x; induction l as [|y l IH]; intros x; simpl; [done|].
  rewrite !elem_of_cons, list_elem_of_filter.
  intros [->|[_ Hx]]; [by left|right; by apply IH].
Qed.

Lemma first_seen_by_key (l : list A) (x : A) :
  x ∈ l → key x ∈ key <$> first_seen_by key l.
Proof.
  induction l as [|y l IH]; simpl; [by intros ?%elem_of_nil|].
  intros [->|Hx]%elem_of_cons; [left|].
  destruct (decide (key x = key y)) as [->|Hne]; [left|right].
  apply list_elem_of_fmap in IH as (z & Hz & Hin); [|done].
  apply list_elem_of_fmap. exists z. split; [done|].
  apply list_elem_of_filter. split; [congruence|done].
Qed.

Lemma first_seen_by_NoDup (l : list A) : NoDup (key <$> first_seen_by key l).
Proof.
  induction l as [|y l IH]; simpl; [constructor|].
  constructor.
  - intros (z & Hz & Hin%list_elem_of_filter)%list_elem_of_fmap.
    by destruct Hin.
  - revert IH. generalize (first_seen_by key l). intros k.
    induction k as [|z k IHk]; simpl; [done|].
    rewrite filter_cons. intros [Hz Hk]%NoDup_cons.
    case_decide; simpl; [|by auto].
    constructor; [|by auto].
    intros (w & Hw & Hin%list_elem_of_filter)%list_elem_of_fmap.
    destruct Hin as [_ Hin]. apply Hz. apply list_elem_of_fmap. eauto.
Qed.

Lemma first_seen_by_fmap (l : list A) :
  key <$> first_seen_by key l = first_seen (key <$> l).
Proof.
  unfold first_seen.
  induction l as [|y l IH]; [done|].
  cbn [first_seen_by fmap list_fmap]. f_equal.
  change (list_fmap A string key l) with (key <$> l).
  rewrite <- IH. generalize (first_seen_by key l). intros k.
  induction k as [|z k IHk]; [done|].
  cbn [fmap list_fmap]. rewrite !filter_cons. unfold id at 1 2.
  destruct (decide (key z ≠ key y)); cbn [fmap list_fmap]; congruence.
Qed.

Lemma first_seen_by_length (l : list A) :
  length (first_seen_by key l) = size (list_to_set (key <$> l) : gset string).
Proof.
  rewrite <- (length_fmap key).
  rewrite <- (size_list_to_set (C:=gset string)) by apply first_seen_by_NoDup.
  f_equal. apply set_eq. intros u. rewrite !elem_of_list_to_set. split.
  - intros (z & -> & Hz)%list_elem_of_fmap.
    apply list_elem_of_fmap. eauto using first_seen_by_elem.
  - intros (z & -> & Hz)%list_elem_of_fmap. by apply first_seen_by_key.
Qed.

End FirstSeen.

(** ** The two deduplicating loops *)

Lemma add_result_stamped (idx : nat) (acc : list SearchResult * gset string)
    (r : SearchResult) :
  add_result idx acc r = add_stamped acc (set_step_index idx r).
Proof. by destruct acc. Qed.

Lemma foldl_add_result (idx : nat) (l : list SearchResult)
    (acc : list SearchResult * gset string) :
  foldl (add_result idx) acc l = foldl add_stamped acc (stamped idx l).
Proof.
  revert acc; induction l as [|r l IH]; intros acc; simpl; [done|].
  by rewrite IH, add_result_stamped.
Qed.

Lemma filter_unseen_insert (seen : gset string) (u : string)
    (l : list SearchResult) :
  filter (λ r, get_url r ∉ seen ∪ {[u]}) l
  = filter (λ r, get_url r ∉ seen) (filter (λ r, get_url r ≠ u) l).
Proof.
  rewrite list_filter_filter. apply list_filter_iff. intros r. set_solver.
Qed.

Lemma filter_unseen_known (seen : gset string) (u : string)
    (l : list SearchResult) :
  u ∈ seen →
  filter (λ r, get_url r ∉ seen) (filter (λ r, get_url r ≠ u) l)
  = filter (λ r, get_url r ∉ seen) l.
Proof.
  intros Hu. rewrite list_filter_filter. apply list_filter_iff.
  intros r. set_solver.
Qed.

Lemma foldl_add_stamped (l : list SearchResult)
    (acc : list SearchResult * gset string) :
  foldl add_stamped acc l
  = (acc.1 ++ filter (λ r, get_url r ∉ acc.2)
                (first_seen_by get_url (filter has_url l)),
     acc.2 ∪ list_to_set (get_url <$> filter has_url l)).
Proof.
  revert acc; induction l as [|r l IH]; intros [all seen].
  - simpl. rewrite app_nil_r. f_equal. set_solver.
  - cbn [foldl]. rewrite IH. clear IH. unfold add_stamped. cbn [fst snd].
    rewrite filter_cons.
    destruct (truthy (get_url r)) eqn:Hu; cbn [andb].
    + apply truthy_true in Hu. rewrite decide_True by done.
      cbn [first_seen_by fmap list_fmap list_to_set foldr].
      rewrite filter_cons.
      destruct (bool_decide (get_url r ∈ seen)) eqn:Hseen; cbn [negb fst snd].
      * apply bool_decide_eq_true in Hseen.
        rewrite decide_False by (intros Hn; by apply Hn).
        rewrite filter_unseen_known by done. f_equal. set_solver.
      * apply bool_decide_eq_false in Hseen.
        rewrite decide_True by done.
        rewrite filter_unseen_insert, <- app_assoc. cbn [app].
        f_equal. set_solver.
    + apply truthy_false in Hu. rewrite decide_False; [done|].
      unfold has_url. intros Hn. by apply Hn.
Qed.

Lemma filter_all {A} (P : A → Prop) `{∀ x, Decision (P x)} (l : list A) :
  (∀ x, P x) → filter P l = l.
Proof.
  intros HP. induction l as [|x l IH]; [done|].
  rewrite filter_cons_True by done. by rewrite IH.
Qed.

Lemma foldl_add_stamped_fresh (l : list SearchResult) :
  (foldl add_stamped ([], ∅) l).1 = first_seen_by get_url (filter has_url l).
Proof.
  rewrite foldl_add_stamped. cbn [fst snd app]. apply filter_all. set_solver.
Qed.

Lemma foldl_add_reference (l : list SearchResult)
    (acc : list SearchResult * gset string) :
  foldl add_reference (get_url <$> acc.1, acc.2) l
  = (get_url <$> (foldl add_stamped acc l).1, (foldl add_stamped acc l).2).
Proof.
  revert acc; induction l as [|r l IH]; intros [all seen]; [done|].
  cbn [foldl]. rewrite <- IH. clear IH. f_equal.
  unfold add_reference, add_stamped. cbn [fst snd].
  destruct (truthy (get_url r) && negb (bool_decide (get_url r ∈ seen)));
    cbn [fst snd]; [|done].
  by rewrite fmap_app.
Qed.

Lemma collect_references_first_seen (results : list SearchResult) :
  collect_references results
  = first_seen (filter (λ u, u ≠ EmptyString) (window_urls results)).
Proof.
  unfold collect_references, window_urls.
  pose proof (foldl_add_reference (take 20 results) ([], ∅)) as Hfold.
  cbn [fst snd fmap list_fmap] in Hfold. rewrite Hfold. cbn [fst].
  rewrite foldl_add_stamped_fresh, first_seen_by_fmap. f_equal.
  generalize (take 20 results). intros l.
  induction l as [|r l IH]; [done|].
  cbn [fmap list_fmap]. rewrite !filter_cons. unfold has_url at 1.
  destruct (decide (get_url r ≠ EmptyString)); cbn [fmap list_fmap];
    by rewrite <- IH.
Qed.

(** ** First-seen order *)

Lemma first_pos_elem (u : string) (l : list string) :
  u ∈ l → is_Some (first_pos u l).
Proof.
  induction l as [|x l IH]; [by intros ?%elem_of_nil|].
  intros Hu. simpl. case_decide; [by eexists|].
  apply elem_of_cons in Hu as [->|Hu]; [done|].
  destruct (IH Hu) as [p ->]. by eexists.
Qed.

Lemma first_pos_Some_elem (u : string) (l : list string) (p : nat) :
  first_pos u l = Some p → u ∈ l.
Proof.
  revert p; induction l as [|x l IH]; intros p; [done|].
  simpl. case_decide; [subst; left|].
  destruct (first_pos u l) as [p'|]; [|done].
  intros _. right. by eapply IH.
Qed.

Lemma first_pos_cons_ne (u x : string) (l : list string) :
  x ≠ u → first_pos u (x :: l) = S <$> first_pos u l.
Proof. intros Hne. simpl. by rewrite decide_False. Qed.

Lemma filter_lookup_mono {A} (P : A → Prop) `{∀ x, Decision (P x)}
    (l : list A) (i j : nat) (a b : A) :
  filter P l !! i = Some a → filter P l !! j = Some b → (i < j)%nat →
  ∃ i' j', l !! i' = Some a ∧ l !! j' = Some b ∧ (i' < j')%nat.
Proof.
  revert i j; induction l as [|y l IH]; intros i j; [done|].
  rewrite filter_cons. destruct (decide (P y)) as [Hy|Hy].
  - destruct i as [|i], j as [|j]; simpl; try lia.
    + intros [= ->] Hb _.
      apply list_elem_of_lookup_2, list_elem_of_filter in Hb as [_ Hb].
      apply list_elem_of_lookup in Hb as [j' Hj'].
      exists 0%nat, (S j'). split_and!; [done..|lia].
    + intros Ha Hb Hij.
      destruct (IH i j Ha Hb) as (i' & j' & ? & ? & ?); [lia|].
      exists (S i'), (S j'). split_and!; [done..|lia].
  - intros Ha Hb Hij.
    destruct (IH i j Ha Hb Hij) as (i' & j' & ? & ? & ?).
    exists (S i'), (S j'). split_and!; [done..|lia].
Qed.

Lemma first_seen_elem (l : list string) (u : string) :
  u ∈ first_seen l → u ∈ l.
Proof. apply first_seen_by_elem. Qed.

Lemma first_seen_NoDup (l : list string) : NoDup (first_seen l).
Proof.
  pose proof (first_seen_by_NoDup id l) as Hnd.
  by rewrite list_fmap_id in Hnd.
Qed.

Lemma first_seen_order (l : list string) :
  in_first_seen_order (first_seen l) l.
Proof.
  unfold in_first_seen_order, first_seen.
  induction l as [|x l IH]; intros i j a b; [done|].
  cbn [first_seen_by]. unfold id at 1 2.
  destruct i as [|i], j as [|j]; try lia; cbn [lookup list_lookup].
  - intros [= ->] Hb _.
    apply list_elem_of_lookup_2, list_elem_of_filter in Hb as [Hne Hb].
    apply first_seen_elem, first_pos_elem in Hb as [q Hq].
    unfold id in Hne.
    exists 0%nat, (S q). rewrite (first_pos_cons_ne b a), Hq by congruence.
    simpl. rewrite decide_True by done. split_and!; [done..|lia].
  - intros Ha Hb Hij.
    pose proof Ha as [Hax _]%list_elem_of_lookup_2%list_elem_of_filter.
    pose proof Hb as [Hbx _]%list_elem_of_lookup_2%list_elem_of_filter.
    destruct (filter_lookup_mono _ _ _ _ _ _ Ha Hb) as (i' & j' & Ha' & Hb' & ?);
      [lia|].
    destruct (IH _ _ _ _ Ha' Hb') as (p & q & Hp & Hq & ?); [done|].
    unfold id in Hax, Hbx.
    exists (S p), (S q). rewrite !first_pos_cons_ne, Hp, Hq by congruence.
    split_and!; [done..|lia].
Qed.

Lemma first_pos_filter (P : string → Prop) `{∀ x, Decision (P x)}
    (l : list string) (a b : string) (p q : nat) :
  P a → P b →
  first_pos a (filter P l) = Some p → first_pos b (filter P l) = Some q →
  (p < q)%nat →
  ∃ p' q', first_pos a l = Some p' ∧ first_pos b l = Some q' ∧ (p' < q')%nat.
Proof.
  intros Ha Hb. revert p q; induction l as [|x l IH]; intros p q; [done|].
  rewrite filter_cons. destruct (decide (P x)) as [Hx|Hx].
  - simpl. destruct (decide (x = a)) as [->|Hxa].
    + intros [= <-]. destruct (decide (a = b)) as [->|Hab]; [intros [= <-]; lia|].
      destruct (first_pos b (filter P l)) as [q0|] eqn:Hq0; [|done].
      intros _ _.
      assert (is_Some (first_pos b l)) as [q' Hq'].
      { apply first_pos_elem.
        apply first_pos_Some_elem, list_elem_of_filter in Hq0. tauto. }
      exists 0%nat, (S q'). rewrite Hq'. split_and!; [done..|lia].
    + destruct (decide (x = b)) as [->|Hxb].
      * intros _ [= <-]. lia.
      * destruct (first_pos a (filter P l)) as [p0|]; [|done].
        destruct (first_pos b (filter P l)) as [q0|]; [|done].
        intros [= <-] [= <-] Hpq.
        destruct (IH p0 q0) as (p' & q' & -> & -> & ?); [done..|lia|].
        exists (S p'), (S q'). split_and!; [done..|lia].
  - intros Hp Hq Hpq.
    destruct (IH p q Hp Hq Hpq) as (p' & q' & Hp' & Hq' & ?).
    exists (S p'), (S q').
    rewrite !first_pos_cons_ne, Hp', Hq' by congruence.
    split_and!; [done..|lia].
Qed.

Lemma first_seen_filter_order (P : string → Prop) `{∀ x, Decision (P x)}
    (l : list string) :
  in_first_seen_order (first_seen (filter P l)) l.
Proof.
  intros i j a b Ha Hb Hij.
  destruct (first_seen_order (filter P l) i j a b Ha Hb Hij)
    as (p & q & Hp & Hq & Hpq).
  apply list_elem_of_lookup_2, first_seen_elem, list_elem_of_filter in Ha as [Ha _].
  apply list_elem_of_lookup_2, first_seen_elem, list_elem_of_filter in Hb as [Hb _].
  eauto using first_pos_filter.
Qed.

(** ** The search gateway *)

Lemma search_calls_app (l k : list call) :
  search_calls (l ++ k) = search_calls l ++ search_calls k.
Proof. apply omap_app. Qed.

Lemma retry_loop_no_search (request : M (list SearchResult))
    (attempts : list nat) (n : nat) :
  (∀ m, search_calls (request m).2 = []) →
  search_calls (retry_loop request attempts n).2 = [].
Proof.
  intros Hreq. revert n; induction attempts as [|a later IH]; intros n;
    [done|].
  cbn [retry_loop]. unfold try_except.
  specialize (Hreq n). destruct (request n) as [[hs|e] l]; [done|].
  cbn [snd] in Hreq.
  destruct e; try done.
  destruct (a =? max_retries - 1)%nat; unfold ret, bind, sleep; cbn [snd].
  - by rewrite app_nil_r.
  - specialize (IH (n + length l + length [CallSleep (1000 * 2 ^ a)])%nat).
    destruct (retry_loop request later _) as [r' l'].
    cbn [snd] in *. by rewrite !search_calls_app, Hreq, IH.
Qed.

Lemma dispatch_no_search (W : World) (q : string) (p : option string)
    (k : Z) (n : nat) :
  search_calls (dispatch W q p k n).2 = [].
Proof.
  unfold dispatch.
  repeat match goal with
         | |- context [if String.eqb ?a ?b then _ else _] =>
             destruct (String.eqb a b)
         end.
  - unfold _search_duckduckgo, try_except, bind, perform, ret, raise.
    destruct (ddgs_text W n q _) as [items|e]; [done|]. by destruct e.
  - unfold _search_brave. destruct (env_missing W _); [done|].
    apply retry_loop_no_search. intros m. unfold bind, perform, ret.
    by destruct (brave_get W m q _).
  - unfold _search_serper. destruct (env_missing W _); [done|].
    apply retry_loop_no_search. intros m. unfold bind, perform, ret.
    by destruct (serper_post W m q _).
  - done.
Qed.

Lemma normalize_complete (url_key snippet_key : string) (item : RawItem) :
  complete (normalize url_key snippet_key item).
Proof. by split_and!. Qed.

Lemma retry_loop_complete (request : M (list SearchResult))
    (attempts : list nat) (n : nat) :
  (∀ m, Forall complete (hits (request m).1)) →
  Forall complete (hits (retry_loop request attempts n).1).
Proof.
  intros Hreq. revert n; induction attempts as [|a later IH]; intros n;
    [constructor|].
  cbn [retry_loop]. unfold try_except.
  specialize (Hreq n). destruct (request n) as [[hs|e] l]; [done|].
  destruct e; try constructor.
  destruct (a =? max_retries - 1)%nat; unfold ret, bind, sleep; cbn [fst];
    [constructor|].
  specialize (IH (n + length l + length [CallSleep (1000 * 2 ^ a)])%nat).
  by destruct (retry_loop request later _) as [r' l'].
Qed.

Lemma dispatch_complete (W : World) (q : string) (p : option string)
    (k : Z) (n : nat) :
  Forall complete (hits (dispatch W q p k n).1).
Proof.
  assert (∀ (f : RawItem → SearchResult) items,
            (∀ item, complete (f item)) → Forall complete (f <$> items))
    as Hmap.
  { intros f items Hf. apply Forall_fmap, Forall_forall. intros. apply Hf. }
  unfold dispatch.
  repeat match goal with
         | |- context [if String.eqb ?a ?b then _ else _] =>
             destruct (String.eqb a b)
         end.
  - unfold _search_duckduckgo, try_except, bind, perform, ret, raise.
    destruct (ddgs_text W n q _) as [items|e]; cbn.
    + apply Hmap, normalize_complete.
    + destruct e; constructor.
  - unfold _search_brave. destruct (env_missing W _); [constructor|].
    apply retry_loop_complete. intros m. unfold bind, perform, ret.
    destruct (brave_get W m q _); cbn; [|constructor].
    apply Hmap, normalize_complete.
  - unfold _search_serper. destruct (env_missing W _); [constructor|].
    apply retry_loop_complete. intros m. unfold bind, perform, ret.
    destruct (serper_post W m q _); cbn; [|constructor].
    apply Hmap, normalize_complete.
  - constructor.
Qed.

Lemma search_run (W : World) (q : string) (p : option string) (k : Z)
    (n : nat) :
  ∃ o calls, search W q p k n = (o, calls) ∧ search_calls calls = [(q, o)]
             ∧ Forall complete (hits o).
Proof.
  unfold search. pose proof (dispatch_no_search W q p k n) as Hd.
  pose proof (dispatch_complete W q p k n) as Hc.
  destruct (dispatch W q p k n) as [o l]. cbn [fst snd] in Hd, Hc.
  eexists _, _. split_and!; [done| |done]. by rewrite search_calls_app, Hd.
Qed.

(** ** The researcher's loop *)

Lemma research_step_run (W : World) (state : ResearchState) (N idx : nat)
    (step : string) (acc : list SearchResult * gset string) (n : nat) :
  ∃ o calls,
    research_step W state N idx step acc n = (Ret (step_flow idx acc o), calls)
    ∧ search_calls calls = [(step, o)] ∧ Forall complete (hits o).
Proof.
  unfold research_step, try_except, bind.
  destruct (search_run W step (Some (search_provider state))
              (num_results state) n) as (o & l & -> & Hl & Hc).
  exists o. destruct o as [hs|e]; cbn [step_flow].
  - destruct (idx <? N - 1)%nat; unfold sleep, ret; simpl;
      eexists; (split_and!; [done| |done]);
      by rewrite ?search_calls_app, ?app_nil_r, Hl.
  - destruct (is_ValueError e); unfold ret; simpl;
      eexists; (split_and!; [done| |done]); by rewrite ?app_nil_r.
Qed.

Lemma step_flow_cases (idx : nat) (acc : list SearchResult * gset string)
    (o : res (list SearchResult)) :
  (is_config_error o = false
   ∧ step_flow idx acc o = Continue (foldl (add_result idx) acc (hits o)))
  ∨ (∃ e, o = Raise e ∧ is_ValueError e = true
          ∧ step_flow idx acc o
            = Return (results_update []
                        ("⚠️  Search configuration error: " +:+ str_exn e))).
Proof.
  destruct o as [hs|e]; cbn [step_flow is_config_error hits foldl];
    [by left|].
  destruct (is_ValueError e) eqn:He; [right; by exists e|by left].
Qed.

Lemma research_loop_run (W : World) (state : ResearchState) (N : nat)
    (steps : list (nat * string)) (acc : list SearchResult * gset string)
    (n : nat) :
  ∃ f calls,
    research_loop W state N steps acc n = (Ret f, calls) ∧
    let outs := search_calls calls in
    (no_config_error outs ∧ outs.*1 = steps.*2 ∧
     f = Continue (fold_steps steps.*1 outs.*2 acc))
    ∨ (∃ outs' q e,
         outs = outs' ++ [(q, Raise e)] ∧ is_ValueError e = true ∧
         no_config_error outs' ∧
         outs.*1 = take (length outs) steps.*2 ∧
         f = Return (results_update []
                       ("⚠️  Search configuration error: " +:+ str_exn e))).
Proof.
  revert acc n; induction steps as [|[idx step] later IH]; intros acc n.
  - eexists _, _. split; [done|]. left. by split; [constructor|].
  - cbn [research_loop]. unfold bind.
    destruct (research_step_run W state N idx step acc n)
      as (o & l & -> & Hl & _).
    destruct (step_flow_cases idx acc o) as [[Ho ->]|(e & -> & He & ->)].
    + destruct (IH (foldl (add_result idx) acc (hits o)) (n + length l)%nat)
        as (f & l' & -> & Hcases).
      eexists _, _. split; [done|]. cbn zeta in *.
      rewrite search_calls_app, Hl.
      destruct Hcases as [(Hok & Hq & ->)
                         |(outs' & q & e' & Hlast & He' & Hok & Hq & ->)].
      * left. split_and!; [by constructor|cbn; by rewrite Hq|done].
      * right. exists ((step, o) :: outs'), q, e'. rewrite Hlast in *.
        split_and!; [done..|by constructor| |done]. cbn. by rewrite Hq.
    + unfold ret. eexists _, _. split; [done|]. right.
      rewrite app_nil_r, Hl. exists [], step, e.
      split_and!; [done..|constructor|done|done].
Qed.

Lemma research_loop_complete (W : World) (state : ResearchState) (N : nat)
    (steps : list (nat * string)) (acc : list SearchResult * gset string)
    (n : nat) :
  Forall (λ qo, Forall complete (hits qo.2))
         (search_calls (research_loop W state N steps acc n).2).
Proof.
  revert acc n; induction steps as [|[idx step] later IH]; intros acc n;
    [constructor|].
  cbn [research_loop]. unfold bind.
  destruct (research_step_run W state N idx step acc n)
    as (o & l & -> & Hl & Hc).
  destruct (step_flow idx acc o) as [acc'|u].
  - specialize (IH acc' (n + length l)%nat).
    destruct (research_loop W state N later acc' _) as [r' l'].
    cbn [snd] in *. rewrite search_calls_app, Hl. by constructor.
  - unfold ret. cbn [snd]. rewrite app_nil_r, Hl. by repeat constructor.
Qed.

Lemma fold_steps_stamped (outs : list (res (list SearchResult))) (k : nat)
    (acc : list SearchResult * gset string) :
  fold_steps (seq k (length outs)) outs acc
  = foldl add_stamped acc
      (mjoin (imap (λ i, stamped (k + i)) (hits <$> outs))).
Proof.
  revert k acc; induction outs as [|o outs IH]; intros k acc; [done|].
  cbn [length seq fold_steps fmap list_fmap]. rewrite imap_cons.
  cbn [mjoin list_join]. rewrite foldl_app, IH, foldl_add_result, Nat.add_0_r.
  do 2 f_equal. apply imap_ext. intros i l _. simpl. f_equal. lia.
Qed.

Lemma imap_positions {A} (l : list A) (k : nat) :
  imap (λ i _, (k + i)%nat) l = seq k (length l).
Proof.
  revert k; induction l as [|x l IH]; intros k; [done|].
  rewrite imap_cons. cbn [length seq]. f_equal; [lia|].
  rewrite <- IH. apply imap_ext. intros i y _. simpl. lia.
Qed.

Lemma enumerate_fst {A} (l : list A) : (enumerate l).*1 = seq 0 (length l).
Proof.
  unfold enumerate. rewrite fmap_imap, <- imap_positions.
  by apply imap_ext.
Qed.

Lemma enumerate_snd {A} (l : list A) : (enumerate l).*2 = l.
Proof.
  unfold enumerate. rewrite fmap_imap.
  induction l as [|x l IH]; [done|]. rewrite imap_cons. f_equal.
  rewrite <- IH at 2. by apply imap_ext.
Qed.

Lemma researcher_node_run (W : World) (state : ResearchState) (n : nat) :
  ∃ u calls,
    researcher_node W state n = (Ret u, calls) ∧
    let outs := search_calls calls in
    (no_config_error outs ∧ outs.*1 = plan state ∧
     ∃ msg, u = results_update
                  (first_seen_by get_url
                     (filter has_url (concat_steps (hits <$> outs.*2)))) msg)
    ∨ (∃ outs' q e,
         outs = outs' ++ [(q, Raise e)] ∧ is_ValueError e = true ∧
         no_config_error outs' ∧
         outs.*1 = take (length outs) (plan state) ∧
         u = results_update []
               ("⚠️  Search configuration error: " +:+ str_exn e)).
Proof.
  unfold researcher_node.
  destruct (plan state) as [|step0 later] eqn:Hplan.
  { eexists _, _. split; [done|]. left. split_and!; [constructor|done|].
    by eexists. }
  rewrite <- Hplan. unfold bind.
  destruct (research_loop_run W state (length (plan state))
              (enumerate (plan state)) ([], ∅) n)
    as (f & l & -> & Hcases).
  cbn zeta in Hcases. rewrite enumerate_fst, enumerate_snd in Hcases.
  destruct Hcases as [(Hok & Hq & ->)|(outs' & q & e & Ho & He & Hok & Hq & ->)].
  - assert (length (plan state) = length (search_calls l).*2) as Hlen.
    { by rewrite <- Hq, !length_fmap. }
    rewrite Hlen, fold_steps_stamped.
    pose proof (foldl_add_stamped_fresh
      (mjoin (imap (λ i, stamped (0 + i)) (hits <$> (search_calls l).*2))))
      as Hfresh.
    destruct (foldl add_stamped _ _) as [all seen]. cbn [fst] in Hfresh.
    change (imap (λ i, stamped (0 + i))) with (imap stamped) in Hfresh.
    fold (concat_steps (hits <$> (search_calls l).*2)) in Hfresh.
    destruct all as [|r all]; unfold ret; eexists _, _;
      (split; [done|]); left; rewrite app_nil_r;
      (split_and!; [done..|]); rewrite <- Hfresh; by eexists.
  - unfold ret. eexists _, _. split; [done|]. right.
    rewrite app_nil_r. exists outs', q, e. by split_and!.
Qed.

(** ** The stage functions, case by case *)

Ltac run_monad :=
  unfold llm_or_return, get_llm, chain_invoke, bind, try_except, perform,
    ret, raise, sleep; cbn [fst snd].

Lemma select_llm_raises (W : World) (provider model : option string)
    (e : exn) :
  select_llm W provider model = Raise e → ∃ msg, e = ValueError msg.
Proof.
  unfold select_llm.
  repeat match goal with
         | |- context [if ?b then _ else _] => destruct b
         end; intros [=]; eauto.
Qed.

Lemma llm_or_return_run (W : World) (state : ResearchState)
    (early : exn → Update) (n : nat) :
  (∃ llm, llm_or_return W state early n
          = (Ret (inl llm),
             [CallGetLLM (Some (llm_provider state)) (Some (model_name state))
                         (Ret llm)]))
  ∨ (∃ e, llm_or_return W state early n
          = (Ret (inr (early e)),
             [CallGetLLM (Some (llm_provider state)) (Some (model_name state))
                         (Raise e)])).
Proof.
  run_monad. destruct (select_llm W _ _) as [llm|e] eqn:Hllm; cbn.
  - left. by eexists.
  - right. apply select_llm_raises in Hllm as [msg ->]. by eexists.
Qed.

(** *** The planner *)

Lemma plan_of_text_length (q response : string) :
  (1 ≤ length (plan_of_text q response) ≤ 5)%nat.
Proof.
  unfold plan_of_text.
  destruct (strip <$> filter _ (split_lines response)) as [|l ls];
    [simpl; lia|].
  rewrite length_take. cbn [length]. lia.
Qed.

Lemma plan_of_json_length (W : World) (q : string) (doc : json) :
  (2 ≤ length (plan_of_json W q doc) ≤ 5)%nat ∨ plan_of_json W q doc = [q].
Proof.
  destruct doc; try by right.
  unfold plan_of_json.
  destruct (length items <? 2)%nat eqn:H2; [by right|].
  destruct (5 <? length items)%nat eqn:H5; [by right|].
  left. cbn [orb]. rewrite length_fmap.
  apply Nat.ltb_ge in H2. apply Nat.ltb_ge in H5. lia.
Qed.

Lemma planner_node_run (W : World) (state : ResearchState) (n : nat) :
  ∃ p msg calls,
    planner_node W state n = (Ret (plan_update p msg), calls) ∧
    ((p = [query state] ∧
      ∀ response, plan_responses calls = [Ret response] →
        ∃ e, json_loads W response = Raise e ∧ is_JSONDecodeError e = false)
     ∨ (∃ response, plan_responses calls = [Ret response] ∧
          parse_plan W (query state) response = Ret p)).
Proof.
  unfold planner_node, bind.
  destruct (llm_or_return_run W state
              (λ e, plan_update [query state]
                      ("⚠️  Planner error: " +:+ str_exn e)) n)
    as [[llm ->]|[e ->]]; cbn [length].
  2: { unfold ret. eexists _, _, _. split; [done|]. left. by split. }
  run_monad. destruct (chat W _ llm _) as [response|e]; cbn [length].
  2: { eexists _, _, _. split; [done|]. left. by split. }
  destruct (parse_plan W (query state) response) as [p|e] eqn:Hp;
    cbn [length].
  - eexists _, _, _. split; [done|]. right. by eexists.
  - eexists _, _, _. split; [done|]. left. split; [done|].
    intros ? [= <-]. unfold parse_plan in Hp.
    destruct (json_loads W response) as [doc|e']; [done|].
    destruct (is_JSONDecodeError e') eqn:He'; [done|]. by eexists.
Qed.

(** *** The writer *)

Lemma format_source_raises (entry : nat * SearchResult) (e : exn) :
  format_source entry = Raise e → ∃ k, e = KeyError k.
Proof.
  destruct entry as [i r]. unfold format_source.
  destruct (title r), (url r), (snippet r); intros [=]; eauto.
Qed.

Lemma format_sources_raises (entries : list (nat * SearchResult))
    (e : exn) :
  format_sources entries = Raise e → ∃ k, e = KeyError k.
Proof.
  induction entries as [|entry later IH]; [done|]. cbn [format_sources].
  destruct (format_source entry) as [text|e'] eqn:Hentry.
  - destruct (format_sources later); [done|]. intros [= ->]. by apply IH.
  - intros [= ->]. by eapply format_source_raises.
Qed.

Lemma format_sources_lookup (entries : list (nat * SearchResult))
    (texts : list string) (i : nat) (entry : nat * SearchResult) :
  format_sources entries = Ret texts → entries !! i = Some entry →
  ∃ text, format_source entry = Ret text ∧ texts !! i = Some text.
Proof.
  revert texts i; induction entries as [|entry' later IH]; intros texts i;
    [done|].
  cbn [format_sources].
  destruct (format_source entry') as [text|] eqn:Hentry; [|done].
  destruct (format_sources later) as [texts'|]; [|done].
  intros [= <-]. destruct i as [|i]; cbn.
  - intros [= <-]. by eexists.
  - by apply IH.
Qed.

Lemma writer_node_run (W : World) (state : ResearchState) (n : nat) :
  (∃ d msg calls,
     writer_node W state n = (Ret (draft_update d [] msg), calls))
  ∨ (∃ d msg calls texts,
       writer_node W state n
       = (Ret (draft_update d (collect_references (results state)) msg),
          calls)
       ∧ format_sources (source_window (results state)) = Ret texts)
  ∨ (∃ k calls, writer_node W state n = (Raise (KeyError k), calls)).
Proof.
  unfold writer_node.
  destruct (results state) as [|r0 rs] eqn:Hresults.
  { left. by eexists _, _, _. }
  rewrite <- Hresults. unfold bind.
  destruct (llm_or_return_run W state
              (λ e, draft_update
                      ("Error: Could not initialize LLM - " +:+ str_exn e)
                      [] ("⚠️  Writer error: " +:+ str_exn e)) n)
    as [[llm ->]|[e ->]]; cbn [length].
  2: { left. unfold ret. by eexists _, _, _. }
  unfold results_text.
  destruct (format_sources (source_window (results state)))
    as [texts|e] eqn:Htexts.
  - run_monad. destruct (chat W _ llm _) as [d|e]; cbn [length].
    + right; left. by eexists _, _, _, _.
    + left. by eexists _, _, _.
  - apply format_sources_raises in Htexts as [k ->].
    right; right. unfold raise. by eexists _, _.
Qed.

Lemma filter_Forall {A} (P : A → Prop) `{∀ x, Decision (P x)} (l : list A) :
  Forall P l → filter P l = l.
Proof.
  induction 1 as [|x l Hx Hl IH]; [done|].
  rewrite filter_cons_True by done. by rewrite IH.
Qed.

Lemma first_seen_of_NoDup (l : list string) : NoDup l → first_seen l = l.
Proof.
  unfold first_seen. induction l as [|x l IH]; [done|].
  intros [Hx Hl]%NoDup_cons. cbn [first_seen_by]. rewrite IH by done.
  f_equal. apply filter_Forall. unfold id. apply Forall_forall.
  intros y Hy ->. done.
Qed.

(** *** The researcher *)

Lemma researcher_node_complete (W : World) (state : ResearchState) (n : nat)
    (u : Update) (calls : list call) :
  researcher_node W state n = (Ret u, calls) →
  ∃ rs, u_results u = Some rs ∧ Forall complete rs ∧ Forall has_url rs.
Proof.
  intros Hrun.
  assert (Forall (λ qo, Forall complete (hits qo.2)) (search_calls calls))
    as Hlog.
  { revert Hrun. unfold researcher_node.
    destruct (plan state) as [|step0 later]; [by intros [= <- <-]|].
    unfold bind.
    pose proof (research_loop_complete W state (length (step0 :: later))
                  (enumerate (step0 :: later)) ([], ∅) n) as Hloop.
    destruct (research_loop W state _ _ _ n) as [[f|e] l]; [|done].
    destruct f as [[[|r all] seen]|u']; unfold ret; intros [= <- <-];
      by rewrite app_nil_r. }
  destruct (researcher_node_run W state n) as (u' & calls' & Hrun' & Hcases).
  rewrite Hrun in Hrun'. injection Hrun' as <- <-. cbn zeta in Hcases.
  clear Hrun.
  destruct Hcases as [(_ & _ & msg & Hu)|(? & ? & ? & _ & _ & _ & _ & Hu)];
    subst u.
  2: { exists []. by split_and!. }
  eexists. split; [done|].
  assert (∀ r, r ∈ first_seen_by get_url
                     (filter has_url
                        (concat_steps (hits <$> (search_calls calls).*2))) →
               complete r ∧ has_url r) as Hall.
  { intros r [Hurl Hr]%first_seen_by_elem%list_elem_of_filter.
    split; [|done]. unfold concat_steps in Hr.
    apply list_elem_of_join in Hr as (l & Hr & Hl).
    apply list_elem_of_lookup in Hl as [i Hl].
    rewrite list_lookup_imap, list_lookup_fmap, list_lookup_fmap in Hl.
    destruct (search_calls calls !! i) as [[q o]|] eqn:Hi; [|done].
    injection Hl as <-.
    apply list_elem_of_fmap in Hr as (r' & Heq & Hr'). subst r.
    eapply Forall_lookup in Hlog; [|done]. cbn in Hlog.
    eapply Forall_forall in Hlog; [|done]. done. }
  split; apply Forall_forall; intros r Hr; by apply Hall.
Qed.

(** *** The reviewer *)

Lemma reviewer_node_outcome (W : World) (state : ResearchState) (n : nat) :
  ∃ u calls,
    reviewer_node W state n = (Ret u, calls) ∧ review_outcome state calls u.
Proof.
  unfold reviewer_node.
  destruct (truthy (draft state)) eqn:Hd; cbn [negb].
  2: { apply truthy_false in Hd. eexists _, _. split; [done|].
       by apply review_no_draft. }
  apply truthy_true in Hd. unfold bind.
  destruct (llm_or_return_run W state
              (λ e, final_update (draft state)
                      ("⚠️  Reviewer unavailable, auto-approving: " +:+
                       str_exn e)) n)
    as [[llm ->]|[e ->]]; cbn [length].
  2: { unfold ret. eexists _, _. split; [done|]. by apply review_final. }
  run_monad. destruct (chat W _ llm _) as [review|e]; cbn [length].
  2: { eexists _, _. split; [done|]. by apply review_final. }
  destruct (needs_revision review && negb (revised_once state)) eqn:Hrev.
  - eexists _, _. split; [done|].
    apply andb_true_iff in Hrev as [_ Hr%negb_true_iff].
    by apply review_revise.
  - eexists _, _. split; [done|]. by apply review_final.
Qed.

Lemma review_outcome_ends (state : ResearchState) (calls : list call)
    (u : Update) :
  review_outcome state calls u → _should_revise (merge state u) = END.
Proof.
  intros [msg Hd _|msg Hd|msg Hd Hr _]; unfold _should_revise; simpl.
  - done.
  - apply truthy_true in Hd. by rewrite Hd.
  - by rewrite andb_false_r; destruct (truthy (final state)).
Qed.


(** ** The driver *)

Lemma writer_node_complete (W : World) (state : ResearchState) (n : nat) :
  Forall complete (results state) →
  ∃ d refs msg calls,
    writer_node W state n = (Ret (draft_update d refs msg), calls).
Proof.
  intros Hc.
  destruct (writer_node_run W state n)
    as [(d & msg & calls & ->)|[(d & msg & calls & texts & -> & _)
       |(k & calls & Hrun)]]; [by eexists _, _, _, _..|].
  exfalso. revert Hrun. unfold writer_node.
  destruct (results state) as [|r0 rs] eqn:Hresults; [done|].
  rewrite <- Hresults in *. unfold bind.
  destruct (llm_or_return_run W state
              (λ e, draft_update
                      ("Error: Could not initialize LLM - " +:+ str_exn e)
                      [] ("⚠️  Writer error: " +:+ str_exn e)) n)
    as [[llm ->]|[e ->]]; cbn [length]; [|done].
  unfold results_text.
  destruct (format_sources (source_window (results state)))
    as [texts|e] eqn:Htexts.
  { run_monad. by destruct (chat W _ llm _). }
  exfalso. clear -Hc Htexts. unfold source_window, enumerate in Htexts.
  assert (Forall (λ entry, complete entry.2)
                 (imap pair (take 20 (results state)))) as Hentries.
  { apply Forall_lookup. intros i [j r]. rewrite list_lookup_imap.
    destruct (take 20 (results state) !! i) as [r'|] eqn:Hi; [|done].
    intros [= <- <-]. apply lookup_take_Some in Hi as [Hi _].
    by eapply Forall_lookup in Hc. }
  revert Htexts. generalize (imap pair (take 20 (results state))) Hentries.
  clear. induction 1 as [|[i r] later (Ht & Hu & Hs) _ IH]; [done|].
  cbn [format_sources format_source]. cbn [snd] in Ht, Hu, Hs.
  destruct Ht as [t ->], Hu as [u ->], Hs as [s ->].
  by destruct (format_sources later).
Qed.

Lemma stream_run (W : World) (state : ResearchState) (n : nat) :
  ∃ up ur uw uv calls rcalls,
    stream W state n
    = (Ret [(planner, up); (researcher, ur); (writer, uw); (reviewer, uv)],
       calls)
    ∧ review_outcome (merge (merge (merge state up) ur) uw) rcalls uv.
Proof.
  unfold stream, recursion_limit.
  cbn [stream_from run_node successor]. unfold bind.
  destruct (planner_node_run W state n) as (p & pmsg & l1 & -> & _).
  destruct (researcher_node W (merge state (plan_update p pmsg))
              (n + length l1)) as [[ur|e] l2] eqn:Hr.
  2: { destruct (researcher_node_run W (merge state (plan_update p pmsg))
                   (n + length l1)) as (? & ? & Hr' & _). congruence. }
  destruct (researcher_node_complete _ _ _ _ _ Hr) as (rs & Hrs & Hc & _).
  destruct (writer_node_complete W (merge (merge state (plan_update p pmsg)) ur)
              (n + length l1 + length l2)) as (d & refs & wmsg & l3 & ->).
  { cbn [merge results]. by rewrite Hrs. }
  destruct (reviewer_node_outcome W
              (merge (merge (merge state (plan_update p pmsg)) ur)
                     (draft_update d refs wmsg))
              (n + length l1 + length l2 + length l3))
    as (uv & l4 & -> & Hout).
  rewrite (review_outcome_ends _ _ _ Hout). unfold ret.
  eexists _, _, _, _, _, _. split; [done|]. exact Hout.
Qed.

(** * The claims *)

(** ** The revision loop and the value of a run *)

(** What holds of every run, in every world: the four nodes run once each
    and the stream ends; the reviewer's dictionary is the last chunk. *)
Lemma run_research_returns (W : World) (q lp m sp : string) (k : Z)
    (n : nat) :
  ∃ u calls,
    run_research W q lp m sp k n = (Ret u, calls) ∧
    u_plan u = None ∧ u_results u = None ∧ u_draft u = None ∧
    u_references u = None ∧
    (is_Some (u_final u) ∨ u_revised_once u = Some true).
Proof.
  unfold run_research, bind.
  destruct (stream_run W (initial_state q lp m sp k) n)
    as (up & ur & uw & uv & calls & rcalls & -> & Hout).
  cbn [last]. destruct Hout; unfold ret; cbn [is_empty final_update revise_update];
    eexists _, _; (split; [done|]); cbn; split_and!; eauto.
Qed.

(** C1 (code defect).  Scenario C, a review that always answers
    NEEDS_REVISION: the stream has exactly the four chunks planner,
    researcher, writer, reviewer.  The reviewer's request sets
    [revised_once], the conditional edge then sees the flag already set
    and ends the run: the writer never runs a second time, and the run
    ends with [final] still empty. *)
Theorem scenario_C_ends_after_first_review :
  ∃ up ur uw calls,
    stream Scenario.always_revise Scenario.start 0
    = (Ret [(planner, up); (researcher, ur); (writer, uw);
            (reviewer,
             revise_update
               ("Requesting revision: NEEDS_REVISION: " +:+
                "the second claim has no citation"))],
       calls)
    ∧ let st :=
        merge (merge (merge (merge Scenario.start up) ur) uw)
              (revise_update
                 ("Requesting revision: NEEDS_REVISION: " +:+
                  "the second claim has no citation")) in
      revised_once st = true ∧ final st = EmptyString ∧
      draft st = "Adoption grows [1]. Costs fall [3]." ∧
      _should_revise st = END.
Proof.
  eexists _, _, _, _. split; [vm_compute; reflexivity|].
  vm_compute. by split_and!.
Qed.

(** C2 (code defect).  A non-empty query, gateways that all answer, a
    review that asks for a revision: [run_research] returns, and what it
    returns has no [final]; the state of the graph at the end of the run
    has an empty [final]. *)
Theorem run_ends_with_empty_final :
  ∃ chunks calls calls',
    run_research Scenario.always_revise "solar energy trends" "ollama"
                 "llama3.1:8b" "duckduckgo" 5 0
    = (Ret (revise_update
              ("Requesting revision: NEEDS_REVISION: " +:+
               "the second claim has no citation")), calls)
    ∧ stream Scenario.always_revise Scenario.start 0 = (Ret chunks, calls')
    ∧ final (graph_state Scenario.start chunks) = EmptyString
    ∧ u_final (revise_update
                 ("Requesting revision: NEEDS_REVISION: " +:+
                  "the second claim has no citation")) = None.
Proof.
  eexists _, _, _. split_and!; [vm_compute; reflexivity..|done].
Qed.

(** C3 (code defect).  Every gateway answers and the review approves:
    the value [run_research] returns is the reviewer's own dictionary,
    with the keys [final] and [messages] and without [plan], [results]
    and [references]. *)
Theorem run_returns_the_reviewer_dictionary :
  ∃ calls,
    run_research Scenario.approving "solar energy trends" "ollama"
                 "llama3.1:8b" "duckduckgo" 5 0
    = (Ret {| u_messages := Some [AIMessage "Research complete"];
              u_plan := None; u_results := None; u_draft := None;
              u_final := Some "Adoption grows [1]. Costs fall [3].";
              u_references := None; u_revised_once := None |}, calls).
Proof. eexists. vm_compute. reflexivity. Qed.

(** ** The writer's references *)

Lemma collect_references_spec (results : list SearchResult) :
  NoDup (collect_references results)
  ∧ collect_references results ⊆ window_urls results
  ∧ in_first_seen_order (collect_references results) (window_urls results)
  ∧ Forall (λ link, link ≠ EmptyString) (collect_references results).
Proof.
  rewrite collect_references_first_seen. split_and!.
  - apply first_seen_NoDup.
  - intros link Hlink%first_seen_elem%list_elem_of_filter. tauto.
  - apply first_seen_filter_order.
  - apply Forall_forall.
    intros link Hlink%first_seen_elem%list_elem_of_filter. tauto.
Qed.

(** C4.  Whatever the results and whatever the gateways do, the
    references the writer returns hold no URL twice, hold only URLs of the
    first twenty results, and list them in the order in which they first
    occur there; they are either empty (a degraded draft) or exactly the
    non-empty URLs of that window, first occurrences only. *)
Theorem references_unique_in_first_seen_order (W : World)
    (state : ResearchState) (n : nat) (u : Update) (calls : list call)
    (refs : list string) :
  writer_node W state n = (Ret u, calls) →
  u_references u = Some refs →
  NoDup refs
  ∧ refs ⊆ window_urls (results state)
  ∧ in_first_seen_order refs (window_urls (results state))
  ∧ (refs = [] ∨
     refs = first_seen (filter (λ link, link ≠ EmptyString)
                               (window_urls (results state)))).
Proof.
  intros Hrun Hrefs.
  destruct (writer_node_run W state n)
    as [(d & msg & calls' & Hrun')|[(d & msg & calls' & texts & Hrun' & _)
       |(k & calls' & Hrun')]];
    rewrite Hrun in Hrun'; [| |done]; injection Hrun' as -> _;
    cbn in Hrefs; injection Hrefs as <-.
  - split_and!; [constructor|set_solver| |by left].
    by intros i j a b ?.
  - destruct (collect_references_spec (results state)) as (? & ? & ? & _).
    split_and!; [done..|]. right. apply collect_references_first_seen.
Qed.

(** The theorem at work: three results, the first two with the same URL,
    and a writer whose model answers. *)
Lemma references_unique_in_first_seen_order_witness :
  NoDup ["https://a.example"; "https://b.example"]
  ∧ ["https://a.example"; "https://b.example"]
    ⊆ window_urls Scenario.repeated_results
  ∧ in_first_seen_order ["https://a.example"; "https://b.example"]
      (window_urls Scenario.repeated_results)
  ∧ (["https://a.example"; "https://b.example"] = [] ∨
     ["https://a.example"; "https://b.example"]
     = first_seen (filter (λ link, link ≠ EmptyString)
                          (window_urls Scenario.repeated_results))).
Proof.
  eapply (references_unique_in_first_seen_order Scenario.approving
            (Scenario.with_results Scenario.repeated_results) 0).
  - vm_compute. reflexivity.
  - reflexivity.
Defined.

(** C5 as stated fails: with two results of the same URL in the window,
    the references are the two distinct URLs, and the second of them is
    not the URL of the source the prompt shows under the label [2] (that
    source repeats the first URL). *)
Lemma repeated_url_shifts_labels_counterexample :
  ∃ d msg calls refs,
    writer_node Scenario.approving
      (Scenario.with_results Scenario.repeated_results) 0
    = (Ret (draft_update d refs msg), calls)
    ∧ refs = ["https://a.example"; "https://b.example"]
    ∧ source_window Scenario.repeated_results !! 1%nat
      = Some (1%nat, Scenario.page "A again" "https://a.example")
    ∧ ¬ (∀ i link, refs !! i = Some link →
           ∃ entry,
             source_window Scenario.repeated_results !! i = Some entry
             ∧ label entry = S i ∧ url entry.2 = Some link).
Proof.
  eexists _, _, _, _. split_and!; [vm_compute; reflexivity|done..|].
  intros Hall.
  destruct (Hall 1%nat "https://b.example") as (entry & Hentry & _ & Hurl);
    [done|].
  injection Hentry as <-. discriminate Hurl.
Qed.

(** C5 (amended).  When the first twenty results carry pairwise distinct,
    non-empty URLs, reference number [i] (counting from zero) is the URL
    of the source the prompt shows under the label [i + 1]. *)
Theorem references_match_labels (W : World) (state : ResearchState)
    (n : nat) (u : Update) (calls : list call) (refs : list string) :
  Forall has_url (take 20 (results state)) →
  NoDup (window_urls (results state)) →
  writer_node W state n = (Ret u, calls) →
  u_references u = Some refs →
  ∀ i link, refs !! i = Some link →
    ∃ entry t s,
      source_window (results state) !! i = Some entry
      ∧ label entry = S i
      ∧ url entry.2 = Some link
      ∧ format_source entry
        = Ret ("[" +:+ pretty (S i) +:+ "] " +:+ t +:+ nl +:+
               "URL: " +:+ link +:+ nl +:+ "Content: " +:+ s).
Proof.
  intros Hurls Hnd Hrun Hrefs i link Hi.
  destruct (writer_node_run W state n)
    as [(d & msg & calls' & Hrun')|[(d & msg & calls' & texts & Hrun' & Htexts)
       |(k & calls' & Hrun')]];
    rewrite Hrun in Hrun'; [| |done]; injection Hrun' as -> _;
    cbn in Hrefs; injection Hrefs as <-; [done|].
  rewrite collect_references_first_seen in Hi.
  rewrite filter_Forall, first_seen_of_NoDup in Hi; [|done|].
  2: { unfold window_urls. by apply Forall_fmap. }
  unfold window_urls in Hi. rewrite list_lookup_fmap in Hi.
  destruct (take 20 (results state) !! i) as [r|] eqn:Hr; [|done].
  injection Hi as <-.
  assert (source_window (results state) !! i = Some (i, r)) as Hentry.
  { unfold source_window, enumerate. by rewrite list_lookup_imap, Hr. }
  destruct (format_sources_lookup _ _ _ _ Htexts Hentry)
    as (text & Htext & _).
  eapply Forall_lookup in Hurls; [|done].
  destruct r as [[t|] [link|] [s|] idx]; cbn in Htext; try done.
  exists (i, mkResult (Some t) (Some link) (Some s) idx), t, s.
  split_and!; [done|unfold label; cbn; lia|done|].
  cbn [format_source title url snippet]. by rewrite Nat.add_1_r.
Qed.

(** The theorem at work: two results with two URLs. *)
Lemma references_match_labels_witness :
  ∃ entry t s,
    source_window [Scenario.page "A" "https://a.example";
                   Scenario.page "B" "https://b.example"] !! 1%nat
    = Some entry
    ∧ label entry = 2%nat
    ∧ url entry.2 = Some "https://b.example"
    ∧ format_source entry
      = Ret ("[" +:+ pretty 2%nat +:+ "] " +:+ t +:+ nl +:+
             "URL: " +:+ "https://b.example" +:+ nl +:+ "Content: " +:+ s).
Proof.
  eapply (references_match_labels Scenario.approving
            (Scenario.with_results
               [Scenario.page "A" "https://a.example";
                Scenario.page "B" "https://b.example"]) 0 _ _
            ["https://a.example"; "https://b.example"]).
  - repeat constructor; by vm_compute.
  - vm_compute. repeat constructor; set_solver.
  - vm_compute. reflexivity.
  - reflexivity.
  - reflexivity.
Defined.

(** ** The plan *)


(** The planner in closed form: what it returns and what it logs, from
    what the gateway and the model answer. *)
Lemma planner_node_eq (W : World) (state : ResearchState) (n : nat) :
  planner_node W state n
  = match select_llm W (Some (llm_provider state))
                     (Some (model_name state)) with
    | Raise e =>
        (Ret (plan_update [query state]
                ("⚠️  Planner error: " +:+ str_exn e)),
         [CallGetLLM (Some (llm_provider state)) (Some (model_name state))
                     (Raise e)])
    | Ret llm =>
        let r := chat W (n + 1) llm (PlanInput (query state)) in
        (Ret match r with
             | Raise e =>
                 plan_update [query state]
                   ("⚠️  Planning failed, using direct query: " +:+
                    str_exn e)
             | Ret response =>
                 match parse_plan W (query state) response with
                 | Raise e =>
                     plan_update [query state]
                       ("⚠️  Planning failed, using direct query: " +:+
                        str_exn e)
                 | Ret p =>
                     plan_update p
                       ("Created research plan with " +:+
                        pretty (length p) +:+ " steps")
                 end
             end,
         [CallGetLLM (Some (llm_provider state)) (Some (model_name state))
                     (Ret llm);
          CallInvoke llm (PlanInput (query state)) r])
    end.
Proof.
  unfold planner_node. run_monad.
  destruct (select_llm W _ _) as [llm|e] eqn:Hllm; cbn.
  - destruct (chat W (n + 1) llm _) as [response|e]; cbn; [|done].
    by destruct (parse_plan W (query state) response).
  - apply select_llm_raises in Hllm as [msg ->]. done.
Qed.



(** ** The researcher *)

(** C7 as stated fails: a hit whose URL is empty is part of the
    concatenation and of its deduplication, and counts as one distinct
    URL, yet the researcher returns no result. *)
Lemma empty_url_is_dropped_counterexample :
  ∃ calls lists rs,
    researcher_node Scenario.empty_link (Scenario.with_results []) 0
    = (Ret (results_update rs "⚠️  No search results found for any step"),
       calls)
    ∧ (search_calls calls).*2 = Ret <$> lists
    ∧ lists = [[{| title := Some "untitled"; url := Some EmptyString;
                   snippet := Some "text"; step_index := None |}]]
    ∧ rs = []
    ∧ rs ≠ first_seen_by get_url (concat_steps lists)
    ∧ length rs ≠ size (distinct_urls (concat_steps lists)).
Proof.
  eexists _, [[mkResult (Some "untitled") (Some EmptyString) (Some "text")
                        None]], _.
  split_and!; [vm_compute; reflexivity|reflexivity|reflexivity|done|done|].
  unfold distinct_urls. cbn. rewrite union_empty_r_L, size_singleton. lia.
Qed.

(** C7 (amended).  The researcher never raises.  When no search of the
    run ended in a configuration error, every step of the plan was
    searched, in order, and the aggregated results are the step-order
    concatenation of the hits (a failed search has none), each stamped
    with the index of its step, restricted to the hits that carry a
    non-empty URL and deduplicated by URL with the first occurrence kept;
    their number is the number of distinct non-empty URLs. *)
Theorem research_aggregation (W : World) (state : ResearchState) (n : nat) :
  ∃ u calls,
    researcher_node W state n = (Ret u, calls) ∧
    let outs := search_calls calls in
    let found := filter has_url (concat_steps (hits <$> outs.*2)) in
    no_config_error outs →
    outs.*1 = plan state
    ∧ u_results u = Some (first_seen_by get_url found)
    ∧ length (first_seen_by get_url found) = size (distinct_urls found).
Proof.
  destruct (researcher_node_run W state n) as (u & calls & Hrun & Hcases).
  exists u, calls. split; [done|]. cbn zeta in *. intros Hok.
  destruct Hcases as [(_ & Hq & msg & ->)|(outs' & q & e & Ho & He & _)].
  - split_and!; [done..|]. apply first_seen_by_length.
  - rewrite Ho in Hok. unfold no_config_error in Hok.
    apply Forall_app in Hok as [_ Hok]. rewrite Forall_singleton in Hok.
    unfold is_config_error in Hok. cbn [snd] in Hok. by rewrite He in Hok.
Qed.

(** The theorem at work: two steps, two hits each, one URL found by
    both. *)
Lemma research_aggregation_witness :
  ∃ rs : list SearchResult,
    length rs = 3%nat ∧
    get_url <$> rs = ["https://example.org/current adoption";
                      "https://example.org/shared";
                      "https://example.org/cost trends"].
Proof.
  destruct (research_aggregation Scenario.approving
              (merge Scenario.start
                 (plan_update ["current adoption"; "cost trends"]
                              EmptyString)) 0)
    as (u & calls & Hrun & Hagg).
  vm_compute in Hrun. injection Hrun as <- <-.
  destruct Hagg as (_ & _ & Hlen).
  { repeat constructor. }
  eexists. split; [exact Hlen|]. vm_compute. reflexivity.
Defined.

(** C8 (code defect).  The configuration is in order: the provider is
    one [search] knows and its key is set.  The search of the first step
    finds a page; the search of the second step fails on its own, with
    an exception of class [ValueError] that is no configuration error.
    The researcher takes it for one: it stops, reports a "Search
    configuration error", and returns no results, so that the page the
    first step found is lost.  The claim, and the comments of the two
    handlers, say that such a step is skipped and the others are kept. *)
Theorem step_failure_aborts_the_stage :
  known_search_provider (search_provider Scenario.two_steps) = true
  ∧ env_missing Scenario.garbled_answer "BRAVE_API_KEY" = false
  ∧ ∃ calls,
      researcher_node Scenario.garbled_answer Scenario.two_steps 0
      = (Ret (results_update []
                ("⚠️  Search configuration error: " +:+
                 "Expecting value: line 1 column 1 (char 0)")), calls)
      ∧ search_calls calls
        = [("first step",
            Ret [{| title := Some "first step";
                    url := Some "https://example.org/first step";
                    snippet := Some "text"; step_index := None |}]);
           ("second step",
            Raise (JSONDecodeError
                     "Expecting value: line 1 column 1 (char 0)"))]
      ∧ length (backend_counts calls) = 2.
Proof.
  split_and!; [reflexivity..|].
  eexists. split_and!; [vm_compute; reflexivity|reflexivity..].
Qed.


(** A failed search in between: the first step is searched and fails,
    the second step is searched all the same and its hit is stamped
    with the index 1. *)
Example failed_step_is_skipped_example :
  ∃ msg calls,
    researcher_node Scenario.flaky_search
      (merge Scenario.start
         (plan_update ["first step"; "second step"] EmptyString)) 0
    = (Ret (results_update
              [{| title := Some "second step";
                  url := Some "https://example.org/second step";
                  snippet := Some "text"; step_index := Some 1%nat |}] msg),
       calls)
    ∧ (search_calls calls).*1 = ["first step"; "second step"]
    ∧ is_config_error <$> (search_calls calls).*2 = [false; false]
    ∧ hits <$> (search_calls calls).*2
      = [[]; [{| title := Some "second step";
                 url := Some "https://example.org/second step";
                 snippet := Some "text"; step_index := None |}]].
Proof.
  eexists _, _. split_and!; [vm_compute; reflexivity|reflexivity..].
Qed.


(** ** The reviewer *)

(** The reviewer of a draft that is not empty, in closed form. *)
Lemma reviewer_node_eq (W : World) (state : ResearchState) (n : nat) :
  draft state ≠ EmptyString →
  reviewer_node W state n
  = match select_llm W (Some (llm_provider state))
                     (Some (model_name state)) with
    | Raise e =>
        (Ret (final_update (draft state)
                ("⚠️  Reviewer unavailable, auto-approving: " +:+
                 str_exn e)),
         [CallGetLLM (Some (llm_provider state)) (Some (model_name state))
                     (Raise e)])
    | Ret llm =>
        let r := chat W (n + 1) llm (ReviewInput (draft state)) in
        (Ret match r with
             | Raise e =>
                 final_update (draft state)
                   ("⚠️  Review failed, auto-approving: " +:+ str_exn e)
             | Ret review =>
                 if needs_revision review && negb (revised_once state)
                 then revise_update ("Requesting revision: " +:+ review)
                 else final_update (draft state)
                        (if negb (needs_revision review)
                         then "Research complete"
                         else "Revision limit reached, finalizing")
             end,
         [CallGetLLM (Some (llm_provider state)) (Some (model_name state))
                     (Ret llm);
          CallInvoke llm (ReviewInput (draft state)) r])
    end.
Proof.
  intros Hd%truthy_true. unfold reviewer_node. rewrite Hd. cbn [negb].
  run_monad.
  destruct (select_llm W _ _) as [llm|e] eqn:Hllm; cbn.
  - destruct (chat W (n + 1) llm _) as [review|e]; cbn; [|done].
    by destruct (needs_revision review && negb (revised_once state)).
  - apply select_llm_raises in Hllm as [msg ->]. done.
Qed.

(** C9.  The reviewer never raises.  With a draft that is not empty,
    whenever the client cannot be built ([get_llm] raises) or the call
    to the model raises, the reviewer logs the failed call and returns
    [final = draft] and does not touch [revised_once]; the conditional
    edge then ends the run.  The same holds whenever its log shows a
    failed call.  With an empty draft the reviewer makes no call, so
    that nothing can fail, and [final] is the fixed text. *)
Theorem reviewer_fails_open (W : World) (state : ResearchState) (n : nat) :
  ∃ u calls,
    reviewer_node W state n = (Ret u, calls) ∧
    (failed_calls calls ≠ [] →
       u_final u = Some (draft state) ∧ u_revised_once u = None
       ∧ final (merge state u) = draft state
       ∧ draft state ≠ EmptyString
       ∧ _should_revise (merge state u) = END) ∧
    (draft state ≠ EmptyString →
     (∃ e, select_llm W (Some (llm_provider state))
                      (Some (model_name state)) = Raise e)
     ∨ (∃ llm e,
          select_llm W (Some (llm_provider state))
                     (Some (model_name state)) = Ret llm
          ∧ chat W (n + 1) llm (ReviewInput (draft state)) = Raise e) →
     failed_calls calls ≠ []
     ∧ u_final u = Some (draft state) ∧ u_revised_once u = None
     ∧ final (merge state u) = draft state
     ∧ revised_once (merge state u) = revised_once state
     ∧ _should_revise (merge state u) = END) ∧
    (draft state = EmptyString →
     calls = [] ∧ u_final u = Some "No draft available.").
Proof.
  destruct (reviewer_node_outcome W state n) as (u & calls & Hrun & Hout).
  exists u, calls. split; [done|].
  pose proof (review_outcome_ends _ _ _ Hout) as Hend.
  split_and!.
  - intros Hfailed. destruct Hout as [msg Hd Hcalls|msg Hd|msg Hd Hr Hnone].
    + by subst calls.
    + by split_and!.
    + done.
  - intros Hd Hfail. rewrite reviewer_node_eq in Hrun by done.
    destruct Hfail as [[e He]|(llm & e & Hllm & He)].
    + rewrite He in Hrun. injection Hrun as <- <-.
      by split_and!.
    + rewrite Hllm in Hrun. cbn zeta in Hrun. rewrite He in Hrun.
      injection Hrun as <- <-. by split_and!.
  - intros Hd. revert Hrun. unfold reviewer_node. rewrite Hd. cbn.
    unfold ret. by intros [= <- <-].
Qed.

(** The theorem at work: the Anthropic model without its key. *)
Lemma reviewer_fails_open_witness :
  ∃ u : Update, u_final u = Some "A draft [1]." ∧ u_revised_once u = None.
Proof.
  destruct (reviewer_fails_open Scenario.approving
              (merge (initial_state "q" "anthropic" "claude" "duckduckgo" 5)
                 (draft_update "A draft [1]." [] EmptyString)) 0)
    as (u & calls & Hrun & _ & Hopen & _).
  exists u.
  destruct Hopen as (_ & ? & ? & _); [discriminate| |done].
  left. eexists. vm_compute. reflexivity.
Defined.

(** ** Empty URLs *)

(** C10.  The researcher never raises and none of the results it returns
    has an empty or absent [url].  The writer either raises [KeyError]
    (a result of its window lacks a key) or returns references none of
    which is empty. *)
Theorem urls_are_never_empty (W : World) (state : ResearchState) (n : nat) :
  (∃ u calls rs,
     researcher_node W state n = (Ret u, calls) ∧ u_results u = Some rs ∧
     Forall (λ r, ∃ link, url r = Some link ∧ link ≠ EmptyString) rs)
  ∧ match writer_node W state n with
    | (Ret u, _) =>
        ∃ refs, u_references u = Some refs ∧
                Forall (λ link, link ≠ EmptyString) refs
    | (Raise e, _) => ∃ k, e = KeyError k
    end.
Proof.
  split.
  - destruct (researcher_node_run W state n) as (u & calls & Hrun & _).
    destruct (researcher_node_complete _ _ _ _ _ Hrun) as (rs & Hrs & _ & Hurl).
    exists u, calls, rs. split_and!; [done..|].
    eapply Forall_impl; [exact Hurl|]. intros r. unfold has_url, get_url.
    destruct (url r) as [link|]; [|done]. by exists link.
  - destruct (writer_node_run W state n)
      as [(d & msg & calls & ->)|[(d & msg & calls & texts & -> & _)
         |(k & calls & ->)]].
    + by exists [].
    + eexists. split; [done|]. apply collect_references_spec.
    + by exists k.
Qed.

(** The theorem at work: the only hit has an empty link. *)
Lemma urls_are_never_empty_witness :
  ∃ rs : list SearchResult,
    rs = [] ∧
    Forall (λ r, ∃ link, url r = Some link ∧ link ≠ EmptyString) rs.
Proof.
  destruct (urls_are_never_empty Scenario.empty_link
              (Scenario.with_results []) 0)
    as [(u & calls & rs & Hrun & Hrs & Hall) _].
  exists rs. split; [|exact Hall].
  vm_compute in Hrun. injection Hrun as <- _. by injection Hrs as <-.
Defined.

(** * Further properties *)

(** ** The driver *)


Lemma node_update_shape (W : World) (nd : node) (state : ResearchState)
    (n : nat) (u : Update) (calls : list call) :
  run_node W nd state n = (Ret u, calls) →
  ∃ msg, u_messages u = Some [AIMessage msg].
Proof.
  destruct nd; cbn [run_node]; intros Hrun.
  - destruct (planner_node_run W state n) as (p & msg & calls' & Hrun' & _).
    rewrite Hrun in Hrun'. injection Hrun' as -> _. by eexists.
  - destruct (researcher_node_run W state n) as (u' & calls' & Hrun' & Hc).
    rewrite Hrun in Hrun'. injection Hrun' as <- <-. cbn zeta in Hc.
    destruct Hc as [(_ & _ & msg & ->)|(? & ? & ? & _ & _ & _ & _ & ->)];
      by eexists.
  - destruct (writer_node_run W state n)
      as [(d & msg & calls' & Hrun')|[(d & msg & calls' & texts & Hrun' & _)
         |(k & calls' & Hrun')]];
      rewrite Hrun in Hrun'; [| |done]; injection Hrun' as -> _; by eexists.
  - destruct (reviewer_node_outcome W state n) as (u' & calls' & Hrun' & Hout).
    rewrite Hrun in Hrun'. injection Hrun' as <- <-.
    destruct Hout; by eexists.
Qed.

(** X2.  The audit trail: every node that returns adds exactly one
    message to [messages] and removes none, and it changes neither the
    query nor any of the four configuration fields. *)
Theorem node_appends_one_message (W : World) (nd : node)
    (state : ResearchState) (n : nat) (u : Update) (calls : list call) :
  run_node W nd state n = (Ret u, calls) →
  (∃ msg, messages (merge state u) = messages state ++ [AIMessage msg])
  ∧ query (merge state u) = query state
  ∧ llm_provider (merge state u) = llm_provider state
  ∧ model_name (merge state u) = model_name state
  ∧ search_provider (merge state u) = search_provider state
  ∧ num_results (merge state u) = num_results state.
Proof.
  intros Hrun. destruct (node_update_shape _ _ _ _ _ _ Hrun) as [msg Hmsg].
  split_and!; try done. exists msg. cbn. by rewrite Hmsg.
Qed.

Lemma node_appends_one_message_witness :
  ∃ msg,
    messages (merge Scenario.start
                (plan_update ["current adoption"; "cost trends"]
                             "Created research plan with 2 steps"))
    = messages Scenario.start ++ [AIMessage msg].
Proof.
  eapply (node_appends_one_message Scenario.approving planner
            Scenario.start 0).
  vm_compute. reflexivity.
Defined.

Lemma stream_run_shapes (W : World) (state : ResearchState) (n : nat) :
  ∃ p pmsg rs rmsg d refs wmsg uv calls rcalls,
    stream W state n
    = (Ret [(planner, plan_update p pmsg);
            (researcher, results_update rs rmsg);
            (writer, draft_update d refs wmsg);
            (reviewer, uv)], calls)
    ∧ review_outcome
        (merge (merge (merge state (plan_update p pmsg))
                      (results_update rs rmsg))
               (draft_update d refs wmsg)) rcalls uv.
Proof.
  unfold stream, recursion_limit.
  cbn [stream_from run_node successor]. unfold bind.
  destruct (planner_node_run W state n) as (p & pmsg & l1 & -> & _).
  destruct (researcher_node_run W (merge state (plan_update p pmsg))
              (n + length l1)) as (ur & l2 & Hr & Hcases).
  rewrite Hr.
  destruct (researcher_node_complete _ _ _ _ _ Hr) as (rs & Hrs & Hc & _).
  assert (∃ rmsg, ur = results_update rs rmsg) as [rmsg ->].
  { cbn zeta in Hcases.
    destruct Hcases as [(_ & _ & msg & ->)|(? & ? & ? & _ & _ & _ & _ & ->)];
      cbn in Hrs; injection Hrs as <-; by eexists. }
  destruct (writer_node_complete W
              (merge (merge state (plan_update p pmsg))
                     (results_update rs rmsg))
              (n + length l1 + length l2)) as (d & refs & wmsg & l3 & ->);
    [done|].
  destruct (reviewer_node_outcome W
              (merge (merge (merge state (plan_update p pmsg))
                            (results_update rs rmsg))
                     (draft_update d refs wmsg))
              (n + length l1 + length l2 + length l3))
    as (uv & l4 & -> & Hout).
  rewrite (review_outcome_ends _ _ _ Hout). unfold ret.
  eexists _, _, _, _, _, _, _, _, _, _. split; [done|]. exact Hout.
Qed.

(** X3.  How a run ends, in every world and from every state.  The
    state of the graph after the run is in one of three cases: [final] is
    the writer's draft, which is not empty; or the draft is empty and
    [final] is the fixed text of the reviewer; or the reviewer asked for
    a revision: then [revised_once] went from false to true and [final]
    is what it was before the run. *)
Theorem run_end_state (W : World) (state : ResearchState) (n : nat) :
  ∃ chunks calls,
    stream W state n = (Ret chunks, calls) ∧
    let st := graph_state state chunks in
    (draft st ≠ EmptyString ∧ final st = draft st
     ∧ revised_once st = revised_once state)
    ∨ (draft st = EmptyString ∧ final st = "No draft available."
       ∧ revised_once st = revised_once state)
    ∨ (draft st ≠ EmptyString ∧ final st = final state
       ∧ revised_once state = false ∧ revised_once st = true).
Proof.
  destruct (stream_run_shapes W state n)
    as (p & pmsg & rs & rmsg & d & refs & wmsg & uv & calls & rcalls
        & -> & Hout).
  eexists _, _. split; [done|]. cbn zeta.
  unfold graph_state. cbn [foldl snd].
  destruct Hout as [msg Hd _|msg Hd|msg Hd Hr _]; cbn in Hd |- *.
  - right; left. by split_and!.
  - left. by split_and!.
  - right; right. cbn in Hr. by split_and!.
Qed.

(** ** The search gateway *)

Lemma retry_loop_log (P : call → Prop) (request : M (list SearchResult))
    (attempts : list nat) (n : nat) :
  (∀ m, Forall P (request m).2) → (∀ ms, P (CallSleep ms)) →
  Forall P (retry_loop request attempts n).2.
Proof.
  intros Hreq Hsleep. revert n; induction attempts as [|a later IH];
    intros n; [constructor|].
  cbn [retry_loop]. unfold try_except.
  specialize (Hreq n). destruct (request n) as [[hs|e] l]; [done|].
  cbn [snd] in Hreq. destruct e; try done.
  destruct (a =? max_retries - 1)%nat; unfold ret, bind, sleep; cbn [snd].
  - by rewrite app_nil_r.
  - specialize (IH (n + length l + length [CallSleep (1000 * 2 ^ a)])%nat).
    destruct (retry_loop request later _) as [r' l']. cbn [snd] in *.
    apply Forall_app. split; [done|]. apply Forall_app. split; [|done].
    by repeat constructor.
Qed.

Lemma retry_loop_value (Q : list SearchResult → Prop)
    (request : M (list SearchResult)) (attempts : list nat) (n : nat)
    (l : list SearchResult) :
  Q [] → (∀ m hs, (request m).1 = Ret hs → Q hs) →
  (retry_loop request attempts n).1 = Ret l → Q l.
Proof.
  intros Hnil Hreq. revert n; induction attempts as [|a later IH];
    intros n; [by intros [= <-]|].
  cbn [retry_loop]. unfold try_except.
  specialize (Hreq n). destruct (request n) as [[hs|e] lg].
  { intros [= <-]. by apply Hreq. }
  destruct e; try done.
  destruct (a =? max_retries - 1)%nat; unfold ret, bind, sleep; cbn [fst].
  - by intros [= <-].
  - specialize (IH (n + length lg + length [CallSleep (1000 * 2 ^ a)])%nat).
    by destruct (retry_loop request later _) as [r' l'].
Qed.

Lemma retry_loop_raise (request : M (list SearchResult))
    (attempts : list nat) (n : nat) (e : exn) :
  (retry_loop request attempts n).1 = Raise e →
  (∃ m, (request m).1 = Raise e) ∧ ∀ msg, e ≠ RequestException msg.
Proof.
  revert n; induction attempts as [|a later IH]; intros n; [done|].
  cbn [retry_loop]. unfold try_except.
  destruct (request n) as [[hs|e'] lg] eqn:Hreq; [done|].
  destruct e'; try (intros [= <-]; split; [exists n; by rewrite Hreq|done]).
  destruct (a =? max_retries - 1)%nat; unfold ret, bind, sleep; cbn [fst];
    [done|].
  specialize (IH (n + length lg + length [CallSleep (1000 * 2 ^ a)])%nat).
  by destruct (retry_loop request later _) as [r' l'].
Qed.

Lemma retry_loop_requests (request : M (list SearchResult))
    (attempts : list nat) (n : nat) :
  (∀ m, length (backend_counts (request m).2) ≤ 1) →
  length (backend_counts (retry_loop request attempts n).2)
  ≤ length attempts.
Proof.
  intros Hreq. revert n; induction attempts as [|a later IH]; intros n;
    [done|].
  cbn [retry_loop length]. unfold try_except.
  specialize (Hreq n). destruct (request n) as [[hs|e] lg]; cbn [snd] in *;
    [lia|].
  destruct e; cbn [snd]; try lia.
  destruct (a =? max_retries - 1)%nat; unfold ret, bind, sleep; cbn [snd].
  - rewrite app_nil_r. lia.
  - specialize (IH (n + length lg + length [CallSleep (1000 * 2 ^ a)])%nat).
    destruct (retry_loop request later _) as [r' l']. cbn [snd] in *.
    unfold backend_counts in *. rewrite !omap_app, !length_app. cbn. lia.
Qed.

Lemma clamp_bounds (k : Z) : (1 ≤ clamp 1 10 k ≤ 10)%Z.
Proof. unfold clamp. lia. Qed.

(** X4.  Whatever count the caller passes, every request [search] sends
    to a back end asks for at least one and at most ten results. *)
Theorem search_asks_for_one_to_ten (W : World) (q : string)
    (p : option string) (k : Z) (n : nat) :
  Forall (λ num, (1 ≤ num ≤ 10)%Z) (backend_counts (search W q p k n).2).
Proof.
  pose (P := λ c, match c with
                  | CallBackend _ _ num _ => (1 ≤ num ≤ 10)%Z
                  | _ => True
                  end).
  assert (∀ calls, Forall P calls →
                   Forall (λ num, (1 ≤ num ≤ 10)%Z) (backend_counts calls))
    as Hcounts.
  { induction 1 as [|c calls Hc _ IH]; [constructor|].
    destruct c; cbn; try done. by constructor. }
  assert (∀ calls, Forall P calls → ∀ c, P c → Forall P (calls ++ [c]))
    as Hsnoc.
  { intros calls Hcalls c Hc. apply Forall_app. split; [done|].
    by constructor. }
  apply Hcounts. unfold search.
  assert (Forall P (dispatch W q p k n).2) as Hd.
  { unfold dispatch. pose proof (clamp_bounds k) as Hk.
    repeat match goal with
           | |- context [if String.eqb ?a ?b then _ else _] =>
               destruct (String.eqb a b)
           end.
    - unfold _search_duckduckgo, try_except, bind, perform, ret, raise.
      destruct (ddgs_text W n q _) as [items|e]; cbn [fst snd app length].
      + apply (Hsnoc []); [constructor|exact Hk].
      + destruct e; cbn [fst snd app length];
          (apply (Hsnoc []); [constructor|exact Hk]).
    - unfold _search_brave. destruct (env_missing W _); [constructor|].
      apply retry_loop_log; [|done]. intros m. unfold bind, perform, ret.
      destruct (brave_get W m q _); cbn [fst snd app length];
        (apply (Hsnoc []); [constructor|exact Hk]).
    - unfold _search_serper. destruct (env_missing W _); [constructor|].
      apply retry_loop_log; [|done]. intros m. unfold bind, perform, ret.
      destruct (serper_post W m q _); cbn [fst snd app length];
        (apply (Hsnoc []); [constructor|exact Hk]).
    - constructor. }
  destruct (dispatch W q p k n) as [r l]. cbn [snd] in *.
  by apply Hsnoc.
Qed.

Lemma dispatch_requests (W : World) (q : string) (p : option string)
    (k : Z) (n : nat) :
  length (backend_counts (dispatch W q p k n).2) ≤ 3.
Proof.
  unfold dispatch.
  repeat match goal with
         | |- context [if String.eqb ?a ?b then _ else _] =>
             destruct (String.eqb a b)
         end.
  - unfold _search_duckduckgo, try_except, bind, perform, ret, raise.
    destruct (ddgs_text W n q _) as [items|e]; cbn; [lia|].
    destruct e; cbn; lia.
  - unfold _search_brave. destruct (env_missing W _); [cbn; lia|].
    etrans; [apply retry_loop_requests|done].
    intros m. unfold bind, perform, ret.
    destruct (brave_get W m q _); cbn; lia.
  - unfold _search_serper. destruct (env_missing W _); [cbn; lia|].
    etrans; [apply retry_loop_requests|done].
    intros m. unfold bind, perform, ret.
    destruct (serper_post W m q _); cbn; lia.
  - cbn. lia.
Qed.

(** X5.  A search sends at most three requests to its back end. *)
Theorem search_sends_at_most_three_requests (W : World) (q : string)
    (p : option string) (k : Z) (n : nat) :
  length (backend_counts (search W q p k n).2) ≤ 3.
Proof.
  unfold search. pose proof (dispatch_requests W q p k n) as Hd.
  destruct (dispatch W q p k n) as [r l]. cbn [snd] in *.
  unfold backend_counts in *. rewrite omap_app, length_app. cbn. lia.
Qed.

(** X6.  A network error never leaves [search]: the exception it raises,
    if any, is not a [RequestException]. *)
Theorem search_keeps_network_errors (W : World) (q : string)
    (p : option string) (k : Z) (n : nat) (e : exn) (calls : list call) :
  search W q p k n = (Raise e, calls) → ∀ msg, e ≠ RequestException msg.
Proof.
  unfold search. destruct (dispatch W q p k n) as [r l] eqn:Hd.
  intros [= -> _]. revert Hd. unfold dispatch.
  repeat match goal with
         | |- context [if String.eqb ?a ?b then _ else _] =>
             destruct (String.eqb a b)
         end.
  - unfold _search_duckduckgo, try_except, bind, perform, ret, raise.
    destruct (ddgs_text W n q _) as [items|e']; cbn; [done|].
    destruct e'; cbn; by intros [= <- _].
  - unfold _search_brave. destruct (env_missing W _).
    + unfold raise. by intros [= <- _].
    + intros Hd. eapply retry_loop_raise. by rewrite Hd.
  - unfold _search_serper. destruct (env_missing W _).
    + unfold raise. by intros [= <- _].
    + intros Hd. eapply retry_loop_raise. by rewrite Hd.
  - unfold raise. by intros [= <- _].
Qed.

Lemma search_keeps_network_errors_witness :
  ValueError ("BRAVE_API_KEY required for Brave Search. " +:+
              "Get your API key at https://brave.com/search/api/")
  ≠ RequestException "timed out".
Proof.
  eapply (search_keeps_network_errors Scenario.no_brave_key "q"
            (Some "brave") 5 0).
  vm_compute. reflexivity.
Defined.


Lemma dispatch_brave (W : World) (q : string) (k : Z) :
  dispatch W q (Some "brave") k = _search_brave W q (clamp 1 10 k).
Proof. reflexivity. Qed.

Lemma dispatch_serper (W : World) (q : string) (k : Z) :
  dispatch W q (Some "serper") k = _search_serper W q (clamp 1 10 k).
Proof. reflexivity. Qed.

(** X7.  With the Brave or the Serper back end, [search] returns at most
    as many hits as were asked for once the count is brought into the
    range from one to ten: never more than ten. *)
Theorem keyed_search_returns_at_most_ten (W : World) (q provider : string)
    (k : Z) (n : nat) (l : list SearchResult) (calls : list call) :
  provider = "brave" ∨ provider = "serper" →
  search W q (Some provider) k n = (Ret l, calls) →
  length l ≤ Z.to_nat (clamp 1 10 k) ∧ length l ≤ 10.
Proof.
  intros Hp. unfold search.
  destruct (dispatch W q (Some provider) k n) as [r lg] eqn:Hd.
  intros [= -> _].
  assert (length l ≤ Z.to_nat (clamp 1 10 k)) as Hlen.
  { revert Hd. destruct Hp as [-> | ->].
    - rewrite dispatch_brave. unfold _search_brave. destruct (env_missing W _); [done|].
      intros Hd. eapply (retry_loop_value (λ l, length l ≤ _));
        [cbn; lia| |by rewrite Hd].
      intros m hs. unfold bind, perform, ret.
      destruct (brave_get W m q _) as [items|]; cbn; [|done].
      intros [= <-]. rewrite length_fmap, length_take. lia.
    - rewrite dispatch_serper. unfold _search_serper.
      destruct (env_missing W _); [done|].
      intros Hd. eapply (retry_loop_value (λ l, length l ≤ _));
        [cbn; lia| |by rewrite Hd].
      intros m hs. unfold bind, perform, ret.
      destruct (serper_post W m q _) as [items|]; cbn; [|done].
      intros [= <-]. rewrite length_fmap, length_take. lia. }
  split; [done|]. pose proof (clamp_bounds k). lia.
Qed.

Lemma keyed_search_returns_at_most_ten_witness :
  ∃ l calls,
    search Cases.brave_many "q" (Some "brave") 50 0 = (Ret l, calls)
    ∧ length l ≤ Z.to_nat (clamp 1 10 50) ∧ length l ≤ 10.
Proof.
  eexists _, _. split; [vm_compute; reflexivity|].
  eapply (keyed_search_returns_at_most_ten Cases.brave_many "q" "brave"
            50 0); [by left|vm_compute; reflexivity].
Defined.






(** X10.  Every hit [search] returns has the three keys [title], [url]
    and [snippet], and no [step_index] yet, whatever the back end
    answered: the writer's [r['title']], [r['url']] and [r['snippet']]
    cannot fail on a hit that comes from [search]. *)
Theorem search_hits_have_the_three_keys (W : World) (q : string)
    (p : option string) (k : Z) (n : nat) (l : list SearchResult)
    (calls : list call) :
  search W q p k n = (Ret l, calls) →
  Forall (λ r, is_Some (title r) ∧ is_Some (url r) ∧ is_Some (snippet r)
               ∧ step_index r = None
               ∧ ∃ text, format_source (0%nat, r) = Ret text) l.
Proof.
  pose (Q := Forall (λ r : SearchResult,
                 is_Some (title r) ∧ is_Some (url r) ∧ is_Some (snippet r)
                 ∧ step_index r = None
                 ∧ ∃ text, format_source (0%nat, r) = Ret text)).
  assert (∀ uk sk (items : list RawItem), Q (normalize uk sk <$> items))
    as Hnorm.
  { intros uk sk items. apply Forall_fmap, Forall_forall. intros item _.
    cbn. split_and!; try done. by eexists. }
  unfold search. destruct (dispatch W q p k n) as [r lg] eqn:Hd.
  intros [= -> _]. revert Hd. unfold dispatch.
  repeat match goal with
         | |- context [if String.eqb ?a ?b then _ else _] =>
             destruct (String.eqb a b)
         end.
  - unfold _search_duckduckgo, try_except, bind, perform, ret, raise.
    destruct (ddgs_text W n q _) as [items|e']; cbn.
    + intros [= <- _]. apply Hnorm.
    + destruct e'; cbn; intros [= <- _]; constructor.
  - unfold _search_brave. destruct (env_missing W _); [done|].
    intros Hd. eapply (retry_loop_value Q); [constructor| |by rewrite Hd].
    intros m hs. unfold bind, perform, ret.
    destruct (brave_get W m q _) as [items|]; cbn; [|done].
    intros [= <-]. apply Hnorm.
  - unfold _search_serper. destruct (env_missing W _); [done|].
    intros Hd. eapply (retry_loop_value Q); [constructor| |by rewrite Hd].
    intros m hs. unfold bind, perform, ret.
    destruct (serper_post W m q _) as [items|]; cbn; [|done].
    intros [= <-]. apply Hnorm.
  - done.
Qed.

Lemma search_hits_have_the_three_keys_witness :
  ∃ l : list SearchResult,
    length l = 10 ∧
    Forall (λ r, is_Some (title r) ∧ is_Some (url r) ∧ is_Some (snippet r)
                 ∧ step_index r = None
                 ∧ ∃ text, format_source (0%nat, r) = Ret text) l.
Proof.
  eexists. split;
    [|eapply (search_hits_have_the_three_keys Cases.brave_many "q"
                (Some "brave") 50 0); vm_compute; reflexivity].
  reflexivity.
Defined.

(** ** The language-model gateway *)

(** X11.  [get_llm] refuses a named provider in exactly four cases: the
    provider is "anthropic" and [ANTHROPIC_API_KEY] is unset or empty; it
    is "openai" and [OPENAI_API_KEY] is unset or empty; it is "custom"
    and [OPENAI_BASE_URL] is unset or empty; or it is none of the four
    known names.  In particular "ollama" is never refused. *)
Theorem get_llm_refuses_exactly_without_credentials (W : World)
    (provider : string) (model : option string) :
  (∃ e, select_llm W (Some provider) model = Raise e)
  ↔ (provider = "anthropic" ∧ env_missing W "ANTHROPIC_API_KEY" = true)
    ∨ (provider = "openai" ∧ env_missing W "OPENAI_API_KEY" = true)
    ∨ (provider = "custom" ∧ env_missing W "OPENAI_BASE_URL" = true)
    ∨ known_llm_provider provider = false.
Proof.
  unfold select_llm, known_llm_provider. cbv zeta.
  change (default _ (Some provider)) with provider.
  destruct (String.eqb_spec provider "anthropic") as [->|Ha].
  { cbn. destruct (env_missing W "ANTHROPIC_API_KEY"); split;
      [by left|by eexists|intros [? [=]]|].
    intros [[_ [=]]|[[[=] _]|[[[=] _]|[=]]]]. }
  destruct (String.eqb_spec provider "openai") as [->|Ho].
  { cbn. destruct (env_missing W "OPENAI_API_KEY"); split;
      [by right; left|by eexists|intros [? [=]]|].
    intros [[[=] _]|[[_ [=]]|[[[=] _]|[=]]]]. }
  destruct (String.eqb_spec provider "ollama") as [->|Hl].
  { cbn. split; [intros [? [=]]|].
    intros [[[=] _]|[[[=] _]|[[[=] _]|[=]]]]. }
  destruct (String.eqb_spec provider "custom") as [->|Hc].
  { cbn. destruct (env_missing W "OPENAI_BASE_URL"); split;
      [by right; right; left|by eexists|intros [? [=]]|].
    intros [[[=] _]|[[[=] _]|[[_ [=]]|[=]]]]. }
  cbn. split; [intros _; by right; right; right|intros _; by eexists].
Qed.

(** X12.  A client built for "anthropic", "openai" or "ollama" never
    carries an empty API key, and a client built for a named model
    carries that model. *)
Theorem client_carries_key_and_model (W : World) (provider model : string)
    (llm : LLM) :
  select_llm W (Some provider) (Some model) = Ret llm →
  llm_model llm = model
  ∧ (provider ≠ "custom" → llm_api_key llm ≠ EmptyString).
Proof.
  unfold select_llm, env_missing. cbv zeta.
  change (default _ (Some provider)) with provider.
  destruct (String.eqb_spec provider "anthropic") as [->|Ha].
  { destruct (default EmptyString (getenv W "ANTHROPIC_API_KEY")) eqn:Hk;
      cbn; [done|]. by intros [= <-]. }
  destruct (String.eqb_spec provider "openai") as [->|Ho].
  { destruct (default EmptyString (getenv W "OPENAI_API_KEY")) eqn:Hk;
      cbn; [done|]. by intros [= <-]. }
  destruct (String.eqb_spec provider "ollama") as [->|Hl].
  { by intros [= <-]. }
  destruct (String.eqb_spec provider "custom") as [->|Hc]; [|done].
  destruct (negb (truthy (default EmptyString (getenv W "OPENAI_BASE_URL"))));
    [done|]. by intros [= <-].
Qed.

Lemma client_carries_key_and_model_witness :
  llm_model (ChatAnthropic "claude-3-opus-20240229" "sk-ant")
  = "claude-3-opus-20240229"
  ∧ ("anthropic" ≠ "custom" →
     llm_api_key (ChatAnthropic "claude-3-opus-20240229" "sk-ant")
     ≠ EmptyString).
Proof.
  apply (client_carries_key_and_model Cases.all_keys).
  vm_compute. reflexivity.
Defined.

Lemma models_lookup (provider : string) :
  get_available_models provider ≠ [] ↔ known_llm_provider provider = true.
Proof.
  unfold get_available_models, known_llm_provider, models.
  destruct (String.eqb_spec provider "anthropic") as [->|Ha]; [done|].
  destruct (String.eqb_spec provider "openai") as [->|Ho]; [done|].
  destruct (String.eqb_spec provider "ollama") as [->|Hl]; [done|].
  destruct (String.eqb_spec provider "custom") as [->|Hc]; [done|].
  rewrite !lookup_insert_ne, lookup_singleton_ne by done. done.
Qed.

(** X13.  The model menu follows the gateway: [update_model_choices]
    offers a non-empty list of models, and preselects its first entry,
    exactly for the providers whose lower-cased name [get_llm] has a
    branch for; for any other name it offers nothing and preselects
    nothing.  The first model offered for "anthropic" is the model
    [get_llm] falls back to when neither an argument nor the environment
    names one. *)
Theorem model_menu_follows_the_gateway (W : World) (provider : string) :
  (known_llm_provider (lower provider) = true →
     ∃ m ms, update_model_choices provider = (m :: ms, Some m))
  ∧ (known_llm_provider (lower provider) = false →
     update_model_choices provider = ([], None))
  ∧ (getenv W "MODEL_NAME" = None →
     ∀ llm, select_llm W (Some "anthropic") None = Ret llm →
       head (get_available_models "anthropic") = Some (llm_model llm)).
Proof.
  unfold update_model_choices. split_and!.
  - intros Hk. apply models_lookup in Hk.
    destruct (get_available_models (lower provider)) as [|m ms]; [done|].
    by exists m, ms.
  - intros Hk.
    destruct (get_available_models (lower provider)) as [|m ms] eqn:Hm;
      [done|].
    assert (known_llm_provider (lower provider) = true) as Hk'.
    { apply models_lookup. by rewrite Hm. }
    congruence.
  - intros Hname llm. unfold select_llm, getenv_default.
    unfold getenv in Hname. rewrite Hname. cbn.
    destruct (env_missing W "ANTHROPIC_API_KEY"); [done|].
    by intros [= <-].
Qed.

Lemma model_menu_follows_the_gateway_witness :
  (∃ m ms, update_model_choices "OpenAI" = (m :: ms, Some m))
  ∧ update_model_choices "Gemini" = ([], None)
  ∧ head (get_available_models "anthropic")
    = Some "claude-sonnet-4-5-20250929".
Proof.
  destruct (model_menu_follows_the_gateway Cases.all_keys "OpenAI")
    as (Hknown & _ & Hdefault).
  destruct (model_menu_follows_the_gateway Cases.all_keys "Gemini")
    as (_ & Hunknown & _).
  split_and!.
  - by apply Hknown.
  - by apply Hunknown.
  - apply (Hdefault eq_refl (ChatAnthropic "claude-sonnet-4-5-20250929"
                                           "sk-ant")).
    vm_compute. reflexivity.
Defined.

(** ** The stages *)

(** X14.  The planner never raises and calls the model at most once,
    with the query.  When the client cannot be built ([get_llm] raises),
    the plan is the query alone and the model is not called; when the
    call to the model raises, the plan is the query alone as well. *)
Theorem planner_falls_back_to_the_query (W : World) (state : ResearchState)
    (n : nat) :
  (∃ u calls,
     planner_node W state n = (Ret u, calls)
     ∧ (model_calls calls = []
        ∨ model_calls calls = [PlanInput (query state)]))
  ∧ (∀ e,
       select_llm W (Some (llm_provider state)) (Some (model_name state))
       = Raise e →
       ∃ msg calls,
         planner_node W state n = (Ret (plan_update [query state] msg), calls)
         ∧ failed_calls calls ≠ [] ∧ model_calls calls = [])
  ∧ (∀ llm e,
       select_llm W (Some (llm_provider state)) (Some (model_name state))
       = Ret llm →
       chat W (n + 1) llm (PlanInput (query state)) = Raise e →
       ∃ msg calls,
         planner_node W state n = (Ret (plan_update [query state] msg), calls)
         ∧ failed_calls calls ≠ []
         ∧ model_calls calls = [PlanInput (query state)]).
Proof.
  rewrite planner_node_eq. split_and!.
  - destruct (select_llm W _ _) as [llm|e]; eexists _, _;
      (split; [done|]); [by right|by left].
  - intros e ->. by eexists _, _.
  - intros llm e -> He. cbn zeta. rewrite He. by eexists _, _.
Qed.

Lemma planner_falls_back_to_the_query_witness :
  ∃ msg calls,
    planner_node Cases.model_down Scenario.start 0
    = (Ret (plan_update ["solar energy trends"] msg), calls)
    ∧ failed_calls calls ≠ []
    ∧ model_calls calls = [PlanInput "solar energy trends"].
Proof.
  destruct (planner_falls_back_to_the_query Cases.model_down
              Scenario.start 0) as (_ & _ & Hcall).
  apply (Hcall (ChatOpenAI "llama3.1:8b" "not-needed"
                  (Some "http://localhost:11434/v1"))
               (OtherException "connection refused")); reflexivity.
Defined.





(** The writer with results, in closed form. *)
Lemma writer_node_eq (W : World) (state : ResearchState) (n : nat) :
  results state ≠ [] →
  writer_node W state n
  = match select_llm W (Some (llm_provider state))
                     (Some (model_name state)) with
    | Raise e =>
        (Ret (draft_update
                ("Error: Could not initialize LLM - " +:+ str_exn e) []
                ("⚠️  Writer error: " +:+ str_exn e)),
         [CallGetLLM (Some (llm_provider state)) (Some (model_name state))
                     (Raise e)])
    | Ret llm =>
        match results_text (results state) with
        | Raise e =>
            (Raise e,
             [CallGetLLM (Some (llm_provider state))
                         (Some (model_name state)) (Ret llm)])
        | Ret text =>
            let r := chat W (n + 1) llm (WriteInput (query state) text) in
            (Ret match r with
                 | Raise e =>
                     draft_update
                       ("Error generating brief: " +:+ str_exn e) []
                       ("⚠️  Writing failed: " +:+ str_exn e)
                 | Ret draft =>
                     draft_update (strip draft)
                       (collect_references (results state))
                       ("Draft complete with " +:+
                        pretty (length (collect_references
                                          (results state))) +:+
                        " references")
                 end,
             [CallGetLLM (Some (llm_provider state))
                         (Some (model_name state)) (Ret llm);
              CallInvoke llm (WriteInput (query state) text) r])
        end
    end.
Proof.
  intros Hresults. unfold writer_node.
  destruct (results state) as [|r0 rs] eqn:Hrs; [done|].
  rewrite <- Hrs. run_monad.
  destruct (select_llm W _ _) as [llm|e] eqn:Hllm; cbn.
  - destruct (results_text (results state)) as [text|e]; cbn; [|done].
    by destruct (chat W (n + 1) llm _) as [d|e].
  - apply select_llm_raises in Hllm as [msg ->]. done.
Qed.

(** X17.  The writer degrades instead of failing on the model.  With
    results to write about: when the client cannot be built ([get_llm]
    raises), it returns a draft that starts with "Error" and quotes the
    exception, with no references, and does not call the model; when the
    sources are listed and the call to the model raises, it returns such
    a draft as well, with no references. *)
Theorem writer_degrades_on_a_failed_call (W : World) (state : ResearchState)
    (n : nat) :
  results state ≠ [] →
  (∀ e,
     select_llm W (Some (llm_provider state)) (Some (model_name state))
     = Raise e →
     ∃ msg calls,
       writer_node W state n
       = (Ret (draft_update
                 ("Error: Could not initialize LLM - " +:+ str_exn e) []
                 msg), calls)
       ∧ failed_calls calls ≠ [] ∧ model_calls calls = [])
  ∧ (∀ llm text e,
       select_llm W (Some (llm_provider state)) (Some (model_name state))
       = Ret llm →
       results_text (results state) = Ret text →
       chat W (n + 1) llm (WriteInput (query state) text) = Raise e →
       ∃ msg calls,
         writer_node W state n
         = (Ret (draft_update ("Error generating brief: " +:+ str_exn e) []
                   msg), calls)
         ∧ failed_calls calls ≠ []
         ∧ model_calls calls = [WriteInput (query state) text]).
Proof.
  intros Hresults. rewrite writer_node_eq by done. split.
  - intros e ->. by eexists _, _.
  - intros llm text e -> -> He. cbn zeta. rewrite He. by eexists _, _.
Qed.

Lemma writer_degrades_on_a_failed_call_witness :
  ∃ msg calls,
    writer_node Cases.model_down
      (Scenario.with_results Scenario.repeated_results) 0
    = (Ret (draft_update
              ("Error generating brief: " +:+ "connection refused") []
              msg), calls)
    ∧ failed_calls calls ≠ []
    ∧ ∃ text, model_calls calls = [WriteInput "q" text].
Proof.
  destruct (writer_degrades_on_a_failed_call Cases.model_down
              (Scenario.with_results Scenario.repeated_results) 0)
    as [_ Hcall]; [discriminate|].
  destruct (Hcall (ChatOpenAI "llama3.1:8b" "not-needed"
                     (Some "http://localhost:11434/v1"))
                  (default EmptyString
                     (match results_text Scenario.repeated_results with
                      | Ret text => Some text
                      | Raise _ => None
                      end))
                  (OtherException "connection refused"))
    as (msg & calls & Hrun & Hfailed & Hmodel);
    [reflexivity|vm_compute; reflexivity|reflexivity|].
  exists msg, calls. split_and!; [exact Hrun|exact Hfailed|].
  eexists. exact Hmodel.
Defined.

Lemma format_sources_incomplete (entries : list (nat * SearchResult)) :
  Exists (λ entry, ¬ complete entry.2) entries →
  ∃ k, format_sources entries = Raise (KeyError k).
Proof.
  induction 1 as [[i r] later Hr|[i r] later _ [k IH]];
    cbn [format_sources].
  - assert (∃ k, format_source (i, r) = Raise (KeyError k)) as [k ->];
      [|by eexists].
    unfold format_source. cbn [snd] in Hr. unfold complete in Hr.
    destruct (title r), (url r), (snippet r); try by eexists.
    destruct Hr. by split_and!.
  - destruct (format_source (i, r)) as [text|e] eqn:Hentry.
    + rewrite IH. by eexists.
    + apply format_source_raises in Hentry as [k' ->]. by eexists.
Qed.

(** X18.  The one way the writer raises: when the client is built and
    one of the first twenty results lacks [title], [url] or [snippet],
    the writer raises [KeyError] before it calls the model. *)
Theorem writer_raises_on_an_incomplete_result (W : World)
    (state : ResearchState) (n : nat) (llm : LLM) :
  select_llm W (Some (llm_provider state)) (Some (model_name state))
  = Ret llm →
  Exists (λ r, ¬ complete r) (take 20 (results state)) →
  ∃ k calls,
    writer_node W state n = (Raise (KeyError k), calls)
    ∧ model_calls calls = [].
Proof.
  intros Hllm Hex. unfold writer_node.
  destruct (results state) as [|r0 rs] eqn:Hresults.
  { by apply Exists_nil in Hex. }
  rewrite <- Hresults in *. run_monad. rewrite Hllm. cbn.
  unfold results_text.
  destruct (format_sources_incomplete (source_window (results state)))
    as [k ->].
  { unfold source_window, enumerate.
    apply Exists_exists in Hex as (r & Hr & Hinc).
    apply list_elem_of_lookup in Hr as [i Hi].
    apply Exists_exists. exists (i, r). split; [|done].
    apply list_elem_of_lookup. exists i.
    by rewrite list_lookup_imap, Hi. }
  by eexists _, _.
Qed.

Lemma writer_raises_on_an_incomplete_result_witness :
  ∃ k calls,
    writer_node Scenario.approving (Scenario.with_results [Cases.no_snippet])
                0
    = (Raise (KeyError k), calls)
    ∧ model_calls calls = [].
Proof.
  eapply (writer_raises_on_an_incomplete_result Scenario.approving
            (Scenario.with_results [Cases.no_snippet]) 0).
  - vm_compute. reflexivity.
  - apply Exists_cons_hd. intros (_ & _ & [s Hs]). discriminate Hs.
Defined.

Lemma upper2_Some (c1 c2 : ascii) (out : string) :
  upper2 c1 c2 = Some out → 192 ≤ nat_of_ascii c1 ∧ cont c2.
Proof.
  unfold upper2, cont. cbv zeta.
  repeat match goal with
         | |- context [(?x =? ?y)%nat] => destruct (Nat.eqb_spec x y)
         end; cbn [andb]; intros [=]; lia.
Qed.

Lemma upper3_Some (c1 c2 c3 : ascii) (out : string) :
  upper3 c1 c2 c3 = Some out → 192 ≤ nat_of_ascii c1 ∧ cont c2 ∧ cont c3.
Proof.
  unfold upper3, cont. cbv zeta.
  repeat match goal with
         | |- context [(?x =? ?y)%nat] => destruct (Nat.eqb_spec x y)
         end; cbn [andb]; intros [=]; lia.
Qed.

Lemma upper_ascii_plain (c : ascii) : plain (upper_ascii c) → plain c.
Proof.
  unfold plain, upper_ascii. cbv zeta.
  destruct (Nat.leb_spec 97 (nat_of_ascii c));
    destruct (Nat.leb_spec (nat_of_ascii c) 122); cbn [andb]; lia.
Qed.

Lemma upper_ascii_cont (c : ascii) : cont c → upper_ascii c = c.
Proof.
  unfold cont, upper_ascii. cbv zeta. intros Hc.
  destruct (Nat.leb_spec 97 (nat_of_ascii c));
    destruct (Nat.leb_spec (nat_of_ascii c) 122); cbn [andb]; done || lia.
Qed.

Lemma app_cons (c : ascii) (a b : string) :
  String c a +:+ b = String c (a +:+ b).
Proof. reflexivity. Qed.

Lemma app_empty_r (a : string) : a +:+ EmptyString = a.
Proof. induction a as [|c a IH]; [done|]. by rewrite app_cons, IH. Qed.

Lemma app_assoc_s (a b c : string) : a +:+ (b +:+ c) = (a +:+ b) +:+ c.
Proof. induction a as [|x a IH]; [done|]. by rewrite !app_cons, IH. Qed.

Lemma all_plain_app (a b : string) :
  all_plain (a +:+ b) ↔ all_plain a ∧ all_plain b.
Proof.
  induction a as [|c a IH]; [cbn; tauto|].
  rewrite app_cons. cbn [all_plain]. tauto.
Qed.

Lemma upper_one (c1 : ascii) :
  upper (String c1 EmptyString) = String (upper_ascii c1) EmptyString.
Proof. reflexivity. Qed.

Lemma upper_more (c1 c2 : ascii) (s2 : string) :
  upper (String c1 (String c2 s2))
  = match upper2 c1 c2 with
    | Some out => out +:+ upper s2
    | None =>
        match s2 with
        | EmptyString =>
            String (upper_ascii c1) (upper (String c2 EmptyString))
        | String c3 s3 =>
            match upper3 c1 c2 c3 with
            | Some out => out +:+ upper s3
            | None => String (upper_ascii c1) (upper (String c2 s2))
            end
        end
    end.
Proof. by destruct s2. Qed.

(** A byte that starts no later character cannot complete one: what
    comes before a character boundary is upper-cased on its own. *)
Lemma upper_before (a s : string) :
  starts_ok s → ∃ x, upper (a +:+ s) = x +:+ upper s.
Proof.
  intros Hs.
  assert (∀ n a, String.length a ≤ n →
                 ∃ x, upper (a +:+ s) = x +:+ upper s) as Hall;
    [|by apply (Hall (String.length a))].
  clear a. induction n as [|n IH]; intros a Hlen.
  { destruct a; [by exists EmptyString|cbn in Hlen; lia]. }
  destruct a as [|c1 [|c2 a2]]; [by exists EmptyString| |].
  - (* one byte before [s] *)
    rewrite app_cons. change (EmptyString +:+ s) with s.
    destruct s as [|d s']; [by eexists (String _ EmptyString)|].
    cbn [starts_ok] in Hs. rewrite upper_more.
    destruct (upper2 c1 d) as [out|] eqn:H2.
    { by apply upper2_Some in H2 as [_ ?]. }
    destruct s' as [|d2 s''].
    { by exists (String (upper_ascii c1) EmptyString). }
    destruct (upper3 c1 d d2) as [out|] eqn:H3.
    { by apply upper3_Some in H3 as (_ & ? & _). }
    by exists (String (upper_ascii c1) EmptyString).
  - rewrite !app_cons, upper_more.
    destruct (upper2 c1 c2) as [out|] eqn:H2.
    { destruct (IH a2) as [x ->]; [cbn in Hlen; lia|].
      exists (out +:+ x). apply app_assoc_s. }
    assert (∃ x, upper (String c2 (a2 +:+ s)) = x +:+ upper s)
      as [x1 Hx1].
    { rewrite <- app_cons. apply IH. cbn in Hlen |- *. lia. }
    destruct a2 as [|c3 a3].
    + change (EmptyString +:+ s) with s in *.
      destruct s as [|d s'].
      * exists (String (upper_ascii c1) (upper (String c2 EmptyString))).
        by rewrite app_empty_r.
      * cbn [starts_ok] in Hs.
        destruct (upper3 c1 c2 d) as [out|] eqn:H3.
        { by apply upper3_Some in H3 as (_ & _ & ?). }
        rewrite Hx1. by exists (String (upper_ascii c1) x1).
    + rewrite app_cons in *.
      destruct (upper3 c1 c2 c3) as [out|] eqn:H3.
      * destruct (IH a3) as [x ->]; [cbn in Hlen; lia|].
        exists (out +:+ x). apply app_assoc_s.
      * rewrite Hx1. by exists (String (upper_ascii c1) x1).
Qed.

(** Upper-casing that yields ASCII only reads whole characters: what
    follows is upper-cased on its own. *)
Lemma upper_plain_app (w b : string) :
  all_plain (upper w) → upper (w +:+ b) = upper w +:+ upper b.
Proof.
  assert (∀ n w, String.length w ≤ n → all_plain (upper w) →
                 upper (w +:+ b) = upper w +:+ upper b) as Hall;
    [|by apply (Hall (String.length w))].
  clear w. induction n as [|n IH]; intros w Hlen Hw.
  { destruct w; [done|cbn in Hlen; lia]. }
  destruct w as [|c1 [|c2 w2]]; [done| |].
  - rewrite upper_one in *. cbn [all_plain] in Hw.
    destruct Hw as [Hc1%upper_ascii_plain _]. unfold plain in Hc1.
    rewrite app_cons. change (EmptyString +:+ b) with b.
    destruct b as [|d b']; [done|]. rewrite upper_more.
    destruct (upper2 c1 d) as [out|] eqn:H2.
    { apply upper2_Some in H2 as [? _]. lia. }
    destruct b' as [|d2 b'']; [done|].
    destruct (upper3 c1 d d2) as [out|] eqn:H3.
    { apply upper3_Some in H3 as [? _]. lia. }
    done.
  - rewrite !app_cons. rewrite upper_more in Hw |- *. rewrite upper_more.
    destruct (upper2 c1 c2) as [out|] eqn:H2.
    { apply all_plain_app in Hw as [_ Hw].
      rewrite IH by (done || cbn in Hlen; lia). apply app_assoc_s. }
    assert (all_plain (upper (String c2 w2)) →
            upper (String c2 (w2 +:+ b))
            = upper (String c2 w2) +:+ upper b) as Hw1.
    { rewrite <- app_cons. apply IH. cbn in Hlen |- *. lia. }
    destruct w2 as [|c3 w3].
    + change (EmptyString +:+ b) with b in *.
      cbn [all_plain] in Hw. destruct Hw as [Hc1%upper_ascii_plain Hw].
      unfold plain in Hc1.
      destruct b as [|d b']; [by rewrite app_empty_r|].
      destruct (upper3 c1 c2 d) as [out|] eqn:H3.
      { apply upper3_Some in H3 as [? _]. lia. }
      by rewrite Hw1, app_cons.
    + rewrite app_cons in *.
      destruct (upper3 c1 c2 c3) as [out|] eqn:H3.
      * apply all_plain_app in Hw as [_ Hw].
        rewrite IH by (done || cbn in Hlen; lia). apply app_assoc_s.
      * cbn [all_plain] in Hw. destruct Hw as [_ Hw].
        by rewrite Hw1, app_cons.
Qed.

Lemma keyword_starts_ok (word after : string) :
  upper word = "NEEDS_REVISION" → starts_ok (word +:+ after).
Proof.
  destruct word as [|d [|c2 w2]]; [done|done|].
  rewrite !app_cons. cbn [starts_ok]. intros Hw Hd.
  rewrite upper_more in Hw.
  destruct (upper2 d c2) as [out|] eqn:H2.
  { apply upper2_Some in H2 as [? _]. unfold cont in Hd. lia. }
  assert (upper_ascii d = "N"%char → False) as Hno.
  { rewrite upper_ascii_cont by done. intros ->. unfold cont in Hd.
    change (nat_of_ascii "N") with 78 in Hd. lia. }
  destruct w2 as [|c3 w3]; [by injection Hw|].
  destruct (upper3 d c2 c3) as [out|] eqn:H3.
  { apply upper3_Some in H3 as [? _]. unfold cont in Hd. lia. }
  by injection Hw.
Qed.

Lemma prefix_app (w b : string) : String.prefix w (w +:+ b) = true.
Proof.
  induction w as [|c w IH]; [by destruct b|].
  change (String.prefix (String c w) (String c w +:+ b))
    with (if Ascii.ascii_dec c c then String.prefix w (w +:+ b) else false).
  by destruct (Ascii.ascii_dec c c).
Qed.

Lemma contains_app (w a b : string) : contains w (a +:+ w +:+ b) = true.
Proof.
  induction a as [|c a IH].
  - change (EmptyString +:+ w +:+ b) with (w +:+ b).
    destruct (w +:+ b) eqn:Heq; cbn [contains];
      by rewrite <- Heq, prefix_app.
  - change (String c a +:+ w +:+ b) with (String c (a +:+ w +:+ b)).
    cbn [contains]. rewrite IH. apply orb_true_r.
Qed.

Lemma needs_revision_anywhere (before word after : string) :
  upper word = "NEEDS_REVISION" →
  needs_revision (before +:+ word +:+ after) = true.
Proof.
  intros Hw. unfold needs_revision.
  destruct (upper_before before (word +:+ after)) as [x ->].
  { by apply keyword_starts_ok. }
  rewrite upper_plain_app, Hw.
  - apply contains_app.
  - rewrite Hw. cbn [all_plain].
    repeat split; unfold plain; apply Nat.ltb_lt; reflexivity.
Qed.

(** X19.  The reviewer looks for its keyword anywhere in the review and
    in any letter case.  On a first review of a draft, with a model that
    answers, a review that contains the letters of NEEDS_REVISION in
    whatever case and context makes the reviewer ask for a revision:
    [revised_once] is set and [final] is not. *)
Theorem reviewer_finds_the_keyword_anywhere (W : World)
    (state : ResearchState) (n : nat) (llm : LLM)
    (before word after : string) :
  draft state ≠ EmptyString → revised_once state = false →
  select_llm W (Some (llm_provider state)) (Some (model_name state))
  = Ret llm →
  chat W (n + 1) llm (ReviewInput (draft state))
  = Ret (before +:+ word +:+ after) →
  upper word = "NEEDS_REVISION" →
  (reviewer_node W state n).1
  = Ret (revise_update
           ("Requesting revision: " +:+ before +:+ word +:+ after)).
Proof.
  intros Hd%truthy_true Hr Hllm Hchat Hw. unfold reviewer_node.
  rewrite Hd. cbn [negb]. run_monad. rewrite Hllm. cbn.
  rewrite Hchat. cbn.
  by rewrite needs_revision_anywhere, Hr.
Qed.

Lemma reviewer_finds_the_keyword_anywhere_witness :
  (reviewer_node Cases.mild_review Cases.drafted 0).1
  = Ret (revise_update
           ("Requesting revision: " +:+ "Approved: nothing here " +:+
            "needs_revision" +:+ ".")).
Proof.
  eapply (reviewer_finds_the_keyword_anywhere Cases.mild_review
            Cases.drafted 0).
  - discriminate.
  - reflexivity.
  - vm_compute. reflexivity.
  - reflexivity.
  - reflexivity.
Defined.

(** X20.  The revision budget is hard: a reviewer that runs with
    [revised_once] set never asks for a revision.  It returns a [final]
    that is not empty and leaves the flag alone, whatever the model
    answers and also when the model fails. *)
Theorem second_review_always_finalises (W : World) (state : ResearchState)
    (n : nat) :
  revised_once state = true →
  ∃ f msg calls,
    reviewer_node W state n = (Ret (final_update f msg), calls)
    ∧ f ≠ EmptyString
    ∧ (draft state ≠ EmptyString → f = draft state).
Proof.
  intros Hr.
  destruct (reviewer_node_outcome W state n) as (u & calls & -> & Hout).
  destruct Hout as [msg Hd _|msg Hd|msg _ Hr' _].
  - eexists _, _, _. by split_and!.
  - eexists _, _, _. by split_and!.
  - congruence.
Qed.

Lemma second_review_always_finalises_witness :
  ∃ f msg calls,
    reviewer_node Scenario.always_revise Cases.reviewed_once 0
    = (Ret (final_update f msg), calls)
    ∧ f ≠ EmptyString
    ∧ (draft Cases.reviewed_once ≠ EmptyString
       → f = draft Cases.reviewed_once).
Proof.
  apply (second_review_always_finalises Scenario.always_revise
           Cases.reviewed_once 0).
  reflexivity.
Defined.

(** ** The web front end *)




Lemma dispatch_unknown (W : World) (q p : string) (k : Z) :
  known_search_provider p = false →
  dispatch W q (Some p) k
  = raise (ValueError ("Unknown search provider: " +:+ p +:+ ". " +:+
                       "Supported: duckduckgo, brave, serper")).
Proof.
  unfold known_search_provider, dispatch. cbv zeta.
  change (default _ (Some p)) with p.
  intros [[-> ->]%orb_false_iff ->]%orb_false_iff. done.
Qed.

Lemma researcher_unknown_provider (W : World) (state : ResearchState)
    (n : nat) :
  known_search_provider (search_provider state) = false →
  ∃ msg calls,
    researcher_node W state n = (Ret (results_update [] msg), calls)
    ∧ backend_counts calls = [].
Proof.
  intros Hp. unfold researcher_node.
  destruct (plan state) as [|step0 later] eqn:Hplan.
  { by eexists _, _. }
  unfold enumerate.
  cbn [imap research_loop]. unfold research_step, search.
  rewrite dispatch_unknown by done.
  unfold bind, try_except, raise, ret. cbn.
  by eexists _, _.
Qed.

Lemma writer_node_no_results (W : World) (state : ResearchState) (n : nat) :
  results state = [] →
  writer_node W state n
  = (Ret (draft_update "No research results available to synthesize." []
            "⚠️  No results to write about"), []).
Proof. unfold writer_node. by intros ->. Qed.

Lemma planner_node_backend (W : World) (state : ResearchState) (n : nat) :
  backend_counts (planner_node W state n).2 = [].
Proof.
  unfold planner_node, bind.
  destruct (llm_or_return_run W state
              (λ e, plan_update [query state]
                      ("⚠️  Planner error: " +:+ str_exn e)) n)
    as [[llm ->]|[e ->]]; cbn [length]; [|done].
  run_monad. destruct (chat W _ llm _) as [response|e]; cbn [length];
    [|done].
  by destruct (parse_plan W (query state) response).
Qed.

Lemma reviewer_node_backend (W : World) (state : ResearchState) (n : nat) :
  backend_counts (reviewer_node W state n).2 = [].
Proof.
  unfold reviewer_node.
  destruct (truthy (draft state)); cbn [negb]; [|done]. unfold bind.
  destruct (llm_or_return_run W state
              (λ e, final_update (draft state)
                      ("⚠️  Reviewer unavailable, auto-approving: " +:+
                       str_exn e)) n)
    as [[llm ->]|[e ->]]; cbn [length]; [|done].
  run_monad. destruct (chat W _ llm _) as [review|e]; cbn [length];
    [|done].
  by destruct (needs_revision review && negb (revised_once state)).
Qed.

Lemma backend_counts_app (l1 l2 : list call) :
  backend_counts (l1 ++ l2) = backend_counts l1 ++ backend_counts l2.
Proof. unfold backend_counts. apply omap_app. Qed.

Lemma search_choices_unknown (choice : string) :
  choice ∈ search_choices → known_search_provider (lower choice) = false.
Proof.
  unfold search_choices, get_available_providers.
  cbn [fmap list_fmap pi_display_name].
  rewrite !elem_of_cons, elem_of_nil. by intros [->|[->|[->|[]]]].
Qed.

(** X22.  The search menu of the page offers the display names of the
    catalogue, and [research_interface] passes the chosen one, lower
    cased, as the provider name.  None of them is a name [search] has a
    branch for.  So with a choice of that menu no request ever reaches a
    search back end, in any world; the run still reports success, and
    the brief panel shows the writer's fixed text for a run without
    results, or no brief at all. *)
Theorem search_menu_never_reaches_a_back_end (W : World)
    (q lp m choice : string) (k : Z) (n : nat) :
  strip q ≠ EmptyString → choice ∈ search_choices →
  ∃ status plan_md brief_md references_md calls,
    research_interface W q lp m choice k n
    = (Ret (status, plan_md, brief_md, references_md), calls)
    ∧ status = "✅ Research completed successfully for: *" +:+ q +:+ "*"
    ∧ backend_counts calls = []
    ∧ (brief_md = "## 📝 Research Brief" +:+ nl +:+ nl +:+
                  "No research results available to synthesize."
       ∨ brief_md = "## 📝 Research Brief" +:+ nl +:+ nl +:+
                    "_No brief generated_" +:+ nl).
Proof.
  intros Hq%truthy_true Hp%search_choices_unknown.
  unfold research_interface. rewrite Hq. cbn [negb].
  unfold try_except, bind at 1. unfold run_research, bind.
  unfold stream, recursion_limit.
  cbn [stream_from run_node successor]. unfold bind.
  set (st0 := initial_state q (lower lp) m (lower choice) k).
  pose proof (planner_node_backend W st0 n) as Hb1.
  destruct (planner_node_run W st0 n) as (p & pmsg & l1 & Hrun1 & _).
  rewrite Hrun1 in Hb1 |- *. cbn [snd] in Hb1.
  destruct (researcher_unknown_provider W (merge st0 (plan_update p pmsg))
              (n + length l1)) as (rmsg & l2 & -> & Hb2); [done|].
  rewrite writer_node_no_results by done.
  set (st3 := merge _ (draft_update _ _ _)).
  pose proof (reviewer_node_backend W st3
                (n + length l1 + length l2 + length (@nil call))) as Hb4.
  destruct (reviewer_node_outcome W st3
                (n + length l1 + length l2 + length (@nil call)))
    as (uv & l4 & Hrun4 & Hout).
  rewrite Hrun4 in Hb4 |- *. cbn [snd] in Hb4.
  rewrite (review_outcome_ends _ _ _ Hout). unfold ret. cbn [last].
  assert (backend_counts (l1 ++ (l2 ++ [] ++ l4 ++ []) ++ []) = [])
    as Hlog.
  { by rewrite !backend_counts_app, Hb1, Hb2, Hb4. }
  destruct Hout as [msg Hd _|msg Hd|msg Hd Hr _]; [done| |];
    cbn [is_empty final_update revise_update format_output u_plan u_final
         u_draft u_references default truthy id];
    rewrite ?app_nil_r in *.
  - eexists _, _, _, _, _. split; [done|]. split; [done|].
    split; [done|]. by left.
  - eexists _, _, _, _, _. split; [done|]. split; [done|].
    split; [done|]. by right.
Qed.

Lemma search_menu_never_reaches_a_back_end_witness :
  ∃ status plan_md brief_md references_md calls,
    research_interface Scenario.approving "solar energy trends" "Ollama"
      "llama3.1:8b" "DuckDuckGo (Free)" 5 0
    = (Ret (status, plan_md, brief_md, references_md), calls)
    ∧ status = "✅ Research completed successfully for: *" +:+
               "solar energy trends" +:+ "*"
    ∧ backend_counts calls = []
    ∧ (brief_md = "## 📝 Research Brief" +:+ nl +:+ nl +:+
                  "No research results available to synthesize."
       ∨ brief_md = "## 📝 Research Brief" +:+ nl +:+ nl +:+
                    "_No brief generated_" +:+ nl).
Proof.
  apply (search_menu_never_reaches_a_back_end Scenario.approving
           "solar energy trends" "Ollama" "llama3.1:8b"
           "DuckDuckGo (Free)" 5 0).
  - vm_compute. discriminate.
  - unfold search_choices, get_available_providers. set_solver.
Defined.

(** ** Pauses *)

Lemma sleeps_app (l1 l2 : list call) :
  sleeps (l1 ++ l2) = sleeps l1 ++ sleeps l2.
Proof. unfold sleeps. apply omap_app. Qed.

Lemma retry_loop_sleeps (request : M (list SearchResult))
    (attempts : list nat) (n : nat) :
  (∀ m, sleeps (request m).2 = []) →
  sum_list (sleeps (retry_loop request attempts n).2)
  ≤ sum_list ((λ a, if (a =? max_retries - 1)%nat then 0
                    else 1000 * 2 ^ a) <$> attempts).
Proof.
  intros Hreq. revert n; induction attempts as [|a later IH]; intros n;
    [done|].
  cbn [retry_loop fmap list_fmap sum_list]. unfold try_except.
  specialize (Hreq n). destruct (request n) as [[hs|e] lg]; cbn [snd] in *.
  { rewrite Hreq. cbn. lia. }
  destruct e; cbn [snd]; try (rewrite Hreq; cbn; lia).
  destruct (a =? max_retries - 1)%nat; unfold ret, bind, sleep; cbn [snd].
  - rewrite app_nil_r, Hreq. cbn. lia.
  - specialize (IH (n + length lg + length [CallSleep (1000 * 2 ^ a)])%nat).
    destruct (retry_loop request later _) as [r' l']. cbn [snd] in *.
    rewrite !sleeps_app, Hreq, !sum_list_with_app.
    change (sleeps [CallSleep (1000 * 2 ^ a)]) with [1000 * 2 ^ a].
    cbn [app sum_list]. lia.
Qed.

Lemma dispatch_sleeps (W : World) (q : string) (p : option string) (k : Z)
    (n : nat) :
  sum_list (sleeps (dispatch W q p k n).2) ≤ 3000.
Proof.
  assert (sum_list ((λ a, if (a =? max_retries - 1)%nat then 0
                          else 1000 * 2 ^ a) <$> seq 0 max_retries) = 3000)
    as Hsum by reflexivity.
  unfold dispatch.
  repeat match goal with
         | |- context [if String.eqb ?a ?b then _ else _] =>
             destruct (String.eqb a b)
         end.
  - unfold _search_duckduckgo, try_except, bind, perform, ret, raise.
    destruct (ddgs_text W n q _) as [items|e]; cbn; [lia|].
    destruct e; cbn; lia.
  - unfold _search_brave. destruct (env_missing W _); [cbn; lia|].
    rewrite <- Hsum. apply retry_loop_sleeps. intros m.
    unfold bind, perform, ret. by destruct (brave_get W m q _).
  - unfold _search_serper. destruct (env_missing W _); [cbn; lia|].
    rewrite <- Hsum. apply retry_loop_sleeps. intros m.
    unfold bind, perform, ret. by destruct (serper_post W m q _).
  - cbn. lia.
Qed.

Lemma sum_sleeps_snoc (l : list call) (c : call) :
  sum_list (sleeps (l ++ [c]))
  = sum_list (sleeps l) + match c with CallSleep ms => ms | _ => 0 end.
Proof.
  rewrite sleeps_app, sum_list_with_app. f_equal.
  destruct c; cbn [sleeps omap list_omap sum_list_with]; unfold id; lia.
Qed.

Lemma research_step_sleeps (W : World) (state : ResearchState)
    (n_steps idx : nat) (step : string)
    (acc : list SearchResult * gset string) (n : nat) :
  sum_list (sleeps (research_step W state n_steps idx step acc n).2)
  ≤ 3000 + (if (idx <? n_steps - 1)%nat then 500 else 0).
Proof.
  unfold research_step, try_except, bind, search.
  pose proof (dispatch_sleeps W step (Some (search_provider state))
                (num_results state) n) as Hd.
  destruct (dispatch W step _ _ n) as [[hs|e] l]; cbn [snd] in Hd.
  - destruct (idx <? n_steps - 1)%nat; unfold sleep, ret; cbn [fst snd];
      rewrite ?app_nil_r, ?sum_sleeps_snoc; lia.
  - destruct (is_ValueError e); unfold ret; cbn [fst snd];
      rewrite ?app_nil_r, ?sum_sleeps_snoc;
      destruct (idx <? n_steps - 1)%nat; lia.
Qed.

Lemma research_loop_sleeps (W : World) (state : ResearchState)
    (n_steps : nat) (steps : list (nat * string))
    (acc : list SearchResult * gset string) (n : nat) :
  sum_list (sleeps (research_loop W state n_steps steps acc n).2)
  ≤ 3000 * length steps
    + 500 * length (filter (λ s, s.1 < n_steps - 1) steps).
Proof.
  revert acc n; induction steps as [|[idx step] later IH]; intros acc n;
    [cbn; lia|].
  cbn [research_loop length]. unfold bind.
  pose proof (research_step_sleeps W state n_steps idx step acc n) as Hs.
  assert (3000 + (if (idx <? n_steps - 1)%nat then 500 else 0)
          ≤ 3000 + 500 * length (filter (λ s : nat * string,
                                           s.1 < n_steps - 1)
                                        [(idx, step)])) as Hs'.
  { destruct (Nat.ltb_spec idx (n_steps - 1)).
    - rewrite filter_cons_True by done. cbn. lia.
    - rewrite filter_cons_False by (cbn; lia). cbn. lia. }
  change ((idx, step) :: later) with ([(idx, step)] ++ later).
  rewrite filter_app, length_app.
  destruct (research_step W state n_steps idx step acc n) as [[f|e] l];
    cbn [snd] in Hs.
  - destruct f as [acc'|u].
    + specialize (IH acc' (n + length l)).
      destruct (research_loop W state n_steps later acc' _) as [r' l'].
      cbn [snd] in *. rewrite sleeps_app, sum_list_with_app. lia.
    + unfold ret. cbn [snd]. rewrite app_nil_r. lia.
  - cbn [snd]. lia.
Qed.

Lemma early_steps (A : Type) (l : list A) (k b : nat) :
  length (filter (λ s : nat * A, s.1 < b) (imap (λ i x, (k + i, x)) l))
  ≤ b - k.
Proof.
  revert k; induction l as [|x l IH]; intros k; [cbn; lia|].
  rewrite imap_cons.
  assert (imap ((λ i x, (k + i, x)) ∘ S) l = imap (λ i x, (S k + i, x)) l)
    as ->.
  { apply imap_ext. intros i y _. cbn. f_equal. lia. }
  specialize (IH (S k)).
  destruct (decide (k + 0 < b)) as [Hlt|Hge].
  - rewrite filter_cons_True by done. cbn [length]. lia.
  - rewrite filter_cons_False by done. lia.
Qed.

(** X23.  The pauses of the researcher are bounded by the plan: one run
    of the researcher sleeps at most 3.5 seconds per step of the plan,
    less the half second that is not slept after the last step, whatever
    the back ends do.  (Per step: at most one and two seconds between the
    three attempts of a keyed back end, and half a second of pacing.) *)
Theorem researcher_pauses_are_bounded (W : World) (state : ResearchState)
    (n : nat) :
  sum_list (sleeps (researcher_node W state n).2)
  ≤ 3500 * length (plan state) - 500.
Proof.
  unfold researcher_node.
  destruct (plan state) as [|step0 later] eqn:Hplan; [cbn; lia|].
  rewrite <- Hplan. unfold bind.
  pose proof (research_loop_sleeps W state (length (plan state))
                (enumerate (plan state)) ([], ∅) n) as Hloop.
  pose proof (early_steps string (plan state) 0
                (length (plan state) - 1)) as Hearly.
  change (imap (λ i x, (0 + i, x)) (plan state))
    with (enumerate (plan state)) in Hearly.
  assert (length (enumerate (plan state)) = length (plan state)) as Hlen.
  { unfold enumerate. apply length_imap. }
  assert (1 ≤ length (plan state)) by (rewrite Hplan; cbn; lia).
  destruct (research_loop W state _ _ _ n) as [[f|e] l]; cbn [snd] in *.
  - destruct f as [[[|r all] seen]|u]; unfold ret; cbn [snd];
      rewrite app_nil_r; lia.
  - lia.
Qed.

(** ** The cost of a run *)

Lemma model_calls_app (l1 l2 : list call) :
  model_calls (l1 ++ l2) = model_calls l1 ++ model_calls l2.
Proof. unfold model_calls. apply omap_app. Qed.

Lemma no_model_calls (calls : list call) :
  Forall (λ c, match c with CallInvoke _ _ _ => False | _ => True end) calls →
  model_calls calls = [].
Proof.
  induction 1 as [|c calls Hc _ IH]; [done|]. by destruct c.
Qed.

Lemma dispatch_no_model (W : World) (q : string) (p : option string)
    (k : Z) (n : nat) :
  model_calls (dispatch W q p k n).2 = [].
Proof.
  apply no_model_calls. unfold dispatch.
  repeat match goal with
         | |- context [if String.eqb ?a ?b then _ else _] =>
             destruct (String.eqb a b)
         end.
  - unfold _search_duckduckgo, try_except, bind, perform, ret, raise.
    destruct (ddgs_text W n q _) as [items|e]; cbn; [by repeat constructor|].
    destruct e; cbn; by repeat constructor.
  - unfold _search_brave. destruct (env_missing W _); [constructor|].
    apply retry_loop_log; [|done]. intros m. unfold bind, perform, ret.
    destruct (brave_get W m q _); cbn; by repeat constructor.
  - unfold _search_serper. destruct (env_missing W _); [constructor|].
    apply retry_loop_log; [|done]. intros m. unfold bind, perform, ret.
    destruct (serper_post W m q _); cbn; by repeat constructor.
  - constructor.
Qed.

Lemma research_step_cost (W : World) (state : ResearchState)
    (n_steps idx : nat) (step : string)
    (acc : list SearchResult * gset string) (n : nat) :
  model_calls (research_step W state n_steps idx step acc n).2 = []
  ∧ length (backend_counts (research_step W state n_steps idx step acc n).2)
    ≤ 3.
Proof.
  unfold research_step, try_except, bind, search.
  pose proof (dispatch_requests W step (Some (search_provider state))
                (num_results state) n) as Hb.
  pose proof (dispatch_no_model W step (Some (search_provider state))
                (num_results state) n) as Hm.
  destruct (dispatch W step _ _ n) as [[hs|e] l]; cbn [snd] in Hb, Hm.
  - destruct (idx <? n_steps - 1)%nat; unfold sleep, ret; cbn [fst snd];
      rewrite ?app_nil_r, !model_calls_app, !backend_counts_app, Hm,
        !length_app; cbn; split; [done|lia|done|lia].
  - destruct (is_ValueError e); unfold ret; cbn [fst snd];
      rewrite ?app_nil_r, !model_calls_app, !backend_counts_app, Hm,
        !length_app; cbn; split; [done|lia|done|lia].
Qed.

Lemma research_loop_cost (W : World) (state : ResearchState)
    (n_steps : nat) (steps : list (nat * string))
    (acc : list SearchResult * gset string) (n : nat) :
  model_calls (research_loop W state n_steps steps acc n).2 = []
  ∧ length (backend_counts (research_loop W state n_steps steps acc n).2)
    ≤ 3 * length steps.
Proof.
  revert acc n; induction steps as [|[idx step] later IH]; intros acc n;
    [split; [done|cbn; lia]|].
  cbn [research_loop length]. unfold bind.
  destruct (research_step_cost W state n_steps idx step acc n) as [Hm Hb].
  destruct (research_step W state n_steps idx step acc n) as [[f|e] l];
    cbn [snd] in Hm, Hb |- *; [|split; [done|lia]].
  destruct f as [acc'|u].
  - destruct (IH acc' (n + length l)) as [Hm' Hb'].
    destruct (research_loop W state n_steps later acc' _) as [r' l'].
    cbn [snd] in *.
    rewrite model_calls_app, backend_counts_app, length_app, Hm, Hm'.
    split; [done|lia].
  - unfold ret. cbn [snd]. rewrite app_nil_r. split; [done|lia].
Qed.

Lemma researcher_node_cost (W : World) (state : ResearchState) (n : nat) :
  model_calls (researcher_node W state n).2 = []
  ∧ length (search_calls (researcher_node W state n).2)
    ≤ length (plan state)
  ∧ length (backend_counts (researcher_node W state n).2)
    ≤ 3 * length (plan state).
Proof.
  assert (length (search_calls (researcher_node W state n).2)
          ≤ length (plan state)) as Hsearch.
  { destruct (researcher_node_run W state n) as (u & calls & -> & Hcases).
    cbn zeta in Hcases. cbn [snd].
    destruct Hcases as [(_ & Hq & _)|(? & ? & ? & _ & _ & _ & Hq & _)];
      apply (f_equal length) in Hq; rewrite length_fmap in Hq.
    - lia.
    - rewrite length_take in Hq. lia. }
  split_and!; [| done |]; revert Hsearch; unfold researcher_node;
    (destruct (plan state) as [|step0 later] eqn:Hplan;
       [intros _; cbn; try done; lia|]); intros _; unfold bind;
    destruct (research_loop_cost W state (length (step0 :: later))
                (enumerate (step0 :: later)) ([], ∅) n) as [Hm Hb];
    (destruct (research_loop W state _ _ _ n) as [[f|e] l];
       cbn [snd] in *; [|try done]).
  - destruct f as [[[|r all] seen]|u]; unfold ret; cbn [snd];
      by rewrite app_nil_r.
  - unfold enumerate in Hb. rewrite length_imap in Hb.
    destruct f as [[[|r all] seen]|u]; unfold ret; cbn [snd];
      by rewrite app_nil_r.
  - unfold enumerate in Hb. by rewrite length_imap in Hb.
Qed.

Lemma planner_node_cost (W : World) (state : ResearchState) (n : nat) :
  ∃ p msg calls,
    planner_node W state n = (Ret (plan_update p msg), calls)
    ∧ 1 ≤ length p ≤ 5
    ∧ length (model_calls calls) ≤ 1
    ∧ search_calls calls = [] ∧ backend_counts calls = [].
Proof.
  assert (∀ response p, parse_plan W (query state) response = Ret p →
                        1 ≤ length p ≤ 5) as Hparse.
  { intros response p. unfold parse_plan.
    destruct (json_loads W response) as [doc|e].
    - intros [= <-].
      destruct (plan_of_json_length W (query state) doc) as [?| ->];
        [lia|cbn; lia].
    - destruct (is_JSONDecodeError e); [|done]. intros [= <-].
      apply plan_of_text_length. }
  unfold planner_node, bind.
  destruct (llm_or_return_run W state
              (λ e, plan_update [query state]
                      ("⚠️  Planner error: " +:+ str_exn e)) n)
    as [[llm ->]|[e ->]]; cbn [length].
  2: { unfold ret. eexists _, _, _. split; [done|]. cbn. split_and!; done || lia. }
  run_monad. destruct (chat W _ llm _) as [response|e]; cbn [length].
  2: { eexists _, _, _. split; [done|]. cbn. split_and!; done || lia. }
  destruct (parse_plan W (query state) response) as [p|e] eqn:Hp.
  - eexists _, _, _. split; [done|]. cbn.
    split_and!; try done; try lia; by eapply Hparse.
  - eexists _, _, _. split; [done|]. cbn. split_and!; done || lia.
Qed.

Lemma writer_node_cost (W : World) (state : ResearchState) (n : nat) :
  length (model_calls (writer_node W state n).2) ≤ 1
  ∧ search_calls (writer_node W state n).2 = []
  ∧ backend_counts (writer_node W state n).2 = [].
Proof.
  unfold writer_node.
  destruct (results state) as [|r0 rs] eqn:Hresults; [cbn; split_and!; done || lia|].
  rewrite <- Hresults. unfold bind.
  destruct (llm_or_return_run W state
              (λ e, draft_update
                      ("Error: Could not initialize LLM - " +:+ str_exn e)
                      [] ("⚠️  Writer error: " +:+ str_exn e)) n)
    as [[llm ->]|[e ->]]; cbn [length].
  2: { unfold ret. cbn. split_and!; done || lia. }
  unfold results_text.
  destruct (format_sources (source_window (results state))) as [texts|e].
  - run_monad. destruct (chat W _ llm _) as [d|e]; cbn;
      split_and!; done || lia.
  - unfold raise. cbn. split_and!; done || lia.
Qed.

Lemma reviewer_node_cost (W : World) (state : ResearchState) (n : nat) :
  length (model_calls (reviewer_node W state n).2) ≤ 1
  ∧ search_calls (reviewer_node W state n).2 = []
  ∧ backend_counts (reviewer_node W state n).2 = [].
Proof.
  unfold reviewer_node.
  destruct (truthy (draft state)); cbn [negb];
    [|cbn; split_and!; done || lia].
  unfold bind.
  destruct (llm_or_return_run W state
              (λ e, final_update (draft state)
                      ("⚠️  Reviewer unavailable, auto-approving: " +:+
                       str_exn e)) n)
    as [[llm ->]|[e ->]]; cbn [length].
  2: { unfold ret. cbn. split_and!; done || lia. }
  run_monad. destruct (chat W _ llm _) as [review|e]; cbn [length].
  2: { cbn. split_and!; done || lia. }
  destruct (needs_revision review && negb (revised_once state)); cbn;
    split_and!; done || lia.
Qed.

(** X24.  What one run can cost, in every world and from every state:
    at most three calls to the language model, at most five calls to
    [search], and at most fifteen requests to a search back end. *)
Theorem a_run_costs_at_most (W : World) (state : ResearchState) (n : nat) :
  length (model_calls (stream W state n).2) ≤ 3
  ∧ length (search_calls (stream W state n).2) ≤ 5
  ∧ length (backend_counts (stream W state n).2) ≤ 15.
Proof.
  unfold stream, recursion_limit.
  cbn [stream_from run_node successor]. unfold bind.
  destruct (planner_node_cost W state n)
    as (p & pmsg & l1 & -> & Hp & Hm1 & Hs1 & Hb1).
  set (st1 := merge state (plan_update p pmsg)).
  assert (length (plan st1) ≤ 5) as Hplan by (cbn; lia).
  destruct (researcher_node_cost W st1 (n + length l1))
    as (Hm2 & Hs2 & Hb2).
  destruct (researcher_node W st1 (n + length l1)) as [[ur|e] l2] eqn:Hr.
  2: { destruct (researcher_node_run W st1 (n + length l1))
         as (? & ? & Hr' & _). congruence. }
  cbn [snd] in Hm2, Hs2, Hb2.
  destruct (researcher_node_complete _ _ _ _ _ Hr) as (rs & Hrs & Hc & _).
  set (st2 := merge st1 ur).
  destruct (writer_node_cost W st2 (n + length l1 + length l2))
    as (Hm3 & Hs3 & Hb3).
  destruct (writer_node_complete W st2 (n + length l1 + length l2))
    as (d & refs & wmsg & l3 & Hw).
  { unfold st2. cbn [merge results]. by rewrite Hrs. }
  rewrite Hw in Hm3, Hs3, Hb3 |- *. cbn [snd] in Hm3, Hs3, Hb3.
  set (st3 := merge st2 (draft_update d refs wmsg)).
  destruct (reviewer_node_cost W st3
              (n + length l1 + length l2 + length l3))
    as (Hm4 & Hs4 & Hb4).
  destruct (reviewer_node_outcome W st3
              (n + length l1 + length l2 + length l3))
    as (uv & l4 & Hv & Hout).
  rewrite Hv in Hm4, Hs4, Hb4 |- *. cbn [snd] in Hm4, Hs4, Hb4.
  rewrite (review_outcome_ends _ _ _ Hout). unfold ret. cbn [snd].
  rewrite !app_nil_r, !model_calls_app, !search_calls_app,
    !backend_counts_app, !length_app.
  rewrite Hm2, Hs1, Hs3, Hs4, Hb1, Hb3, Hb4. cbn [length]. lia.
Qed.

(** ** The plan and the value of a run *)

Lemma plan_of_text_steps (q response : string) :
  q ≠ EmptyString →
  Forall (λ step, step ≠ EmptyString) (plan_of_text q response).
Proof.
  intros Hq. unfold plan_of_text.
  assert (Forall (λ step, step ≠ EmptyString)
            (strip <$> filter (λ line, truthy (strip line) = true)
                              (split_lines response))) as Hlines.
  { apply Forall_fmap, Forall_forall.
    intros line [Hline _]%list_elem_of_filter. cbn.
    by apply truthy_true. }
  destruct (strip <$> filter _ (split_lines response)) as [|l ls] eqn:Heq.
  - by repeat constructor.
  - by apply Forall_take.
Qed.

(** X25.  Blank search queries can only come from a JSON plan.  For a
    query that is not empty, a plan of the planner contains an empty
    step only if the model answered, the response parsed as a JSON list
    of two to five items, and the plan is [str] of these items: the
    fallbacks (the query itself, or the non-blank lines of a response
    that does not parse) never produce one. *)
Theorem empty_steps_come_from_json_only (W : World) (state : ResearchState)
    (n : nat) :
  query state ≠ EmptyString →
  ∃ p msg calls,
    planner_node W state n = (Ret (plan_update p msg), calls)
    ∧ (EmptyString ∈ p →
       ∃ llm response items,
         select_llm W (Some (llm_provider state)) (Some (model_name state))
         = Ret llm
         ∧ chat W (n + 1) llm (PlanInput (query state)) = Ret response
         ∧ plan_responses calls = [Ret response]
         ∧ json_loads W response = Ret (JArray items)
         ∧ (2 ≤ length items ≤ 5)%nat
         ∧ p = py_str W <$> items).
Proof.
  intros Hq. rewrite planner_node_eq.
  assert (EmptyString ∉ [query state]) as Hfallback.
  { intros Hempty%list_elem_of_singleton. by rewrite <- Hempty in Hq. }
  destruct (select_llm W _ _) as [llm|e] eqn:Hllm; [|by eexists _, _, _].
  cbn zeta. destruct (chat W (n + 1) llm _) as [response|e] eqn:Hchat;
    [|by eexists _, _, _].
  unfold parse_plan. destruct (json_loads W response) as [doc|e] eqn:Hdoc.
  - eexists _, _, _. split; [done|]. intros Hempty.
    destruct doc as [| | | |items|]; try done.
    unfold plan_of_json in Hempty |- *.
    destruct (Nat.ltb_spec (length items) 2);
      destruct (Nat.ltb_spec 5 (length items)); cbn [orb] in *; try done.
    exists llm, response, items. split_and!; try done; lia.
  - destruct (is_JSONDecodeError e); [|by eexists _, _, _].
    eexists _, _, _. split; [done|]. intros Hempty.
    pose proof (plan_of_text_steps (query state) response Hq) as Hsteps.
    eapply Forall_forall in Hsteps; [|exact Hempty]. done.
Qed.

Lemma empty_steps_come_from_json_only_witness :
  ∃ p msg calls,
    planner_node Scenario.prose_plan Scenario.start 0
    = (Ret (plan_update p msg), calls)
    ∧ (EmptyString ∈ p →
       ∃ llm response items,
         select_llm Scenario.prose_plan
           (Some (llm_provider Scenario.start))
           (Some (model_name Scenario.start)) = Ret llm
         ∧ chat Scenario.prose_plan (0 + 1) llm
                (PlanInput (query Scenario.start)) = Ret response
         ∧ plan_responses calls = [Ret response]
         ∧ json_loads Scenario.prose_plan response = Ret (JArray items)
         ∧ (2 ≤ length items ≤ 5)%nat
         ∧ p = py_str Scenario.prose_plan <$> items).
Proof.
  apply (empty_steps_come_from_json_only Scenario.prose_plan
           Scenario.start 0).
  discriminate.
Defined.

